(** * Dolphin's log manager (Source/Core/Common/Logging/LogManager.cpp)

  A shallow embedding of the logging dispatcher: the log containers with
  their listener bit sets, the file listener, the manager's constructor,
  the filtering and fan-out of [LogWithFullPath], and the process-wide
  instance with [Init] and [Shutdown].

  Layout: the data model and the operations first, in the order of the
  C++ file, then the theorems. *)

From Stdlib Require Import ZArith String Ascii List Lia Bool.
From stdpp Require Import base tactics option list gmap strings pretty.

Local Open Scope string_scope.
Local Open Scope Z_scope.

(* ===================================================================== *)
(** ** Enumerations of Log.h and LogManager.h *)
(* ===================================================================== *)

Module LogTypes.

(** Modelled from the spec: Common/Logging/Log.h is not under src/. The
    levels are a small ordered enumeration in which a smaller number is a
    more severe level; the numbering starts at 1, the value the
    constructor clamps to from below. *)
Inductive LOG_LEVELS : Set :=
| LNOTICE | LERROR | LWARNING | LINFO | LDEBUG.

Definition level_value (l : LOG_LEVELS) : Z :=
  match l with
  | LNOTICE => 1
  | LERROR => 2
  | LWARNING => 3
  | LINFO => 4
  | LDEBUG => 5
  end.

(** Modelled from the spec: the table [LogTypes::LOG_LEVEL_TO_CHAR] of Log.h
    is not under src/. It gives a single character that encodes the level,
    here the initial of the level's name. *)
Definition LOG_LEVEL_TO_CHAR (l : LOG_LEVELS) : ascii :=
  match l with
  | LNOTICE => "N"
  | LERROR => "E"
  | LWARNING => "W"
  | LINFO => "I"
  | LDEBUG => "D"
  end%char.

(** Modelled from the spec: the enumeration [LogTypes::LOG_TYPE] of Log.h is
    not under src/. The log types are a fixed, closed enumeration, with one
    container each: the enumerators are those the constructor of
    [LogManager] creates a container for. *)
Inductive LOG_TYPE : Set :=
| ACTIONREPLAY | AUDIO | AUDIO_INTERFACE | BOOT | COMMANDPROCESSOR
| COMMON | CONSOLE | CORE | DISCIO | DSPHLE | DSPLLE | DSP_MAIL
| DSPINTERFACE | DVDINTERFACE | DYNA_REC | EXPANSIONINTERFACE | FILEMON
| GDB_STUB | GPFIFO | HOST_GPU | IOS | IOS_DI | IOS_ES | IOS_FILEIO
| IOS_SD | IOS_SSL | IOS_STM | IOS_NET | IOS_USB | IOS_WC24 | IOS_WIIMOTE
| MASTER_LOG | MEMCARD_MANAGER | MEMMAP | NETPLAY | OSHLE | OSREPORT
| PAD | PIXELENGINE | PROCESSORINTERFACE | POWERPC | SERIALINTERFACE
| SP1 | VIDEO | VIDEOINTERFACE | WIIMOTE | WII_IPC.

(** All enumerators, in declaration order: what a range-for over the
    array [m_log] visits. *)
Definition all_log_types : list LOG_TYPE :=
  [ ACTIONREPLAY; AUDIO; AUDIO_INTERFACE; BOOT; COMMANDPROCESSOR;
    COMMON; CONSOLE; CORE; DISCIO; DSPHLE; DSPLLE; DSP_MAIL;
    DSPINTERFACE; DVDINTERFACE; DYNA_REC; EXPANSIONINTERFACE; FILEMON;
    GDB_STUB; GPFIFO; HOST_GPU; IOS; IOS_DI; IOS_ES; IOS_FILEIO;
    IOS_SD; IOS_SSL; IOS_STM; IOS_NET; IOS_USB; IOS_WC24; IOS_WIIMOTE;
    MASTER_LOG; MEMCARD_MANAGER; MEMMAP; NETPLAY; OSHLE; OSREPORT;
    PAD; PIXELENGINE; PROCESSORINTERFACE; POWERPC; SERIALINTERFACE;
    SP1; VIDEO; VIDEOINTERFACE; WIIMOTE; WII_IPC ].

End LogTypes.

Export LogTypes.

Module LogListener.

(** Modelled from the spec: the enumeration [LogListener::LISTENER] of
    LogManager.h is not under src/. The listener identities are File,
    Console and Window; they are dense and start at 0, as they index both
    the bit set of a container and the listener table. *)
Inductive LISTENER : Set :=
| FILE_LISTENER | CONSOLE_LISTENER | LOG_WINDOW_LISTENER.

Definition listener_index (id : LISTENER) : Z :=
  match id with
  | FILE_LISTENER => 0
  | CONSOLE_LISTENER => 1
  | LOG_WINDOW_LISTENER => 2
  end.

Definition NUMBER_OF_LISTENERS : Z := 3.

Definition all_listeners : list LISTENER :=
  [FILE_LISTENER; CONSOLE_LISTENER; LOG_WINDOW_LISTENER].

End LogListener.

Export LogListener.

#[global] Instance LOG_LEVELS_eq_dec : EqDecision LOG_LEVELS.
Proof. solve_decision. Defined.

#[global] Instance LOG_TYPE_eq_dec : EqDecision LOG_TYPE.
Proof. solve_decision. Defined.

#[global] Instance LISTENER_eq_dec : EqDecision LISTENER.
Proof. solve_decision. Defined.

(* ===================================================================== *)
(** ** Common/BitSet.h: a set of small integers in one 32-bit word *)
(* ===================================================================== *)

Module BitSet32.

(** Modelled from the spec: Common/BitSet.h is not under src/. The set is
    a compact membership test over 32 identities, held in one unsigned
    32-bit word [m_val]; iteration visits the members in ascending
    order. An assignment through [operator[]] rewrites one bit and keeps
    the others; the conversion to [bool] tells whether the set has a
    member. *)
Record t : Set := Make { m_val : Z }.

Definition width : Z := 32.

(** Results of the 32-bit operations, wrapped to the width of the word. *)
Definition wrap (v : Z) : Z := v mod 2 ^ width.

Definition empty : t := Make 0.

Definition mask (bit : Z) : Z := wrap (Z.shiftl 1 bit).

(** [bool(bs[bit])] *)
Definition get (bs : t) (bit : Z) : bool :=
  negb (Z.land (m_val bs) (mask bit) =? 0).

(** [bs[bit] = set] *)
Definition set (bs : t) (bit : Z) (b : bool) : t :=
  Make (Z.lor (Z.land (m_val bs) (wrap (Z.lnot (mask bit))))
              (if b then mask bit else 0)).

(** [bool(bs)] *)
Definition to_bool (bs : t) : bool := negb (m_val bs =? 0).

(** [for (auto i : bs)]: the members, smallest first. *)
Definition elements (bs : t) : list Z :=
  filter (fun i => get bs i = true) (seqZ 0 width).

(** The words a 32-bit variable can hold. *)
Definition in_range (bs : t) : Prop := 0 <= m_val bs < 2 ^ width.

End BitSet32.

(* ===================================================================== *)
(** ** class LogContainer *)
(* ===================================================================== *)

(** The members of a container: its names, the enabled flag and the set of
    the listener ids subscribed to it. *)
Record LogContainer : Set := mkLogContainer {
m_full_name : string;
m_short_name : string;
m_enable : bool;
m_listener_ids : BitSet32.t
}.

Module Container.

(** [LogContainer(short_name, full_name, enable = false)]: the bit set is
    default-constructed, that is empty. *)
Definition new (short_name full_name : string) (enable : bool) : LogContainer :=
  {| m_full_name := full_name;
     m_short_name := short_name;
     m_enable := enable;
     m_listener_ids := BitSet32.empty |}.

Definition GetShortName (c : LogContainer) : string := m_short_name c.
Definition GetFullName (c : LogContainer) : string := m_full_name c.

Definition with_listener_ids (c : LogContainer) (ids : BitSet32.t) : LogContainer :=
  {| m_full_name := m_full_name c;
     m_short_name := m_short_name c;
     m_enable := m_enable c;
     m_listener_ids := ids |}.

(** [m_listener_ids[id] = 1] *)
Definition AddListener (id : LISTENER) (c : LogContainer) : LogContainer :=
  with_listener_ids c (BitSet32.set (m_listener_ids c) (listener_index id) true).

(** [m_listener_ids[id] = 0] *)
Definition RemoveListener (id : LISTENER) (c : LogContainer) : LogContainer :=
  with_listener_ids c (BitSet32.set (m_listener_ids c) (listener_index id) false).

Definition IsEnabled (c : LogContainer) : bool := m_enable c.

Definition SetEnable (enable : bool) (c : LogContainer) : LogContainer :=
  {| m_full_name := m_full_name c;
     m_short_name := m_short_name c;
     m_enable := enable;
     m_listener_ids := m_listener_ids c |}.

(** [bool(m_listener_ids)] *)
Definition HasListeners (c : LogContainer) : bool :=
  BitSet32.to_bool (m_listener_ids c).

(** [begin()] .. [end()]: the listener ids the range-for of
    [LogWithFullPath] visits. *)
Definition listener_ids (c : LogContainer) : list Z :=
  BitSet32.elements (m_listener_ids c).

(** Membership of a listener identity in the container's set. *)
Definition subscribed (c : LogContainer) (id : LISTENER) : bool :=
  BitSet32.get (m_listener_ids c) (listener_index id).

(** The containers the program builds: made by the constructor and changed
    through the member functions only. *)
Inductive built : LogContainer -> Prop :=
| built_new short_name full_name enable :
    built (new short_name full_name enable)
| built_add id c : built c -> built (AddListener id c)
| built_remove id c : built c -> built (RemoveListener id c)
| built_enable b c : built c -> built (SetEnable b c).

End Container.


(* ===================================================================== *)
(** ** class FileLogListener *)
(* ===================================================================== *)

(** The output file stream [m_logfile], reduced to what the listener uses:
    the [good()] flag, the characters inserted and not yet flushed, and
    the contents of the file behind the stream. *)
Record ofstream : Set := mkOfstream {
  os_good : bool;
  os_pending : string;
  os_file : string
}.

(** What the device does with a flush: it takes everything, or it fails
    after a number of characters. *)
Inductive io_result : Set :=
| IoOk
| IoError (written : nat).

(** The members of the file listener: the mutex (held or free), the stream,
    and the enabled flag [m_enable], here [m_file_enable] as the log
    container has a member of the same name. *)
Record FileLogListener : Set := mkFileLogListener {
  m_log_lock : bool;
  m_logfile : ofstream;
  m_file_enable : bool
}.

Module FileListener.

(** The first [n] characters of a string, and the rest. *)
Definition take (n : nat) (s : string) : string := substring 0 n s.
Definition drop (n : nat) (s : string) : string :=
  substring n (String.length s - n) s.

(** Modelled from the spec: [File::OpenFStream] of Common/FileUtil.h is not
    under src/. It opens the stream on the path, here for appending:
    the stream is good when the file opened, and what is written goes after
    what the file already holds; a path that cannot be opened raises no
    error and leaves the stream not good. *)
Definition OpenFStream (opened : option string) : ofstream :=
  match opened with
  | Some existing => mkOfstream true "" existing
  | None => mkOfstream false "" ""
  end.

(** [stream << msg]: a stream that is not good takes nothing. *)
Definition insert (msg : string) (os : ofstream) : ofstream :=
  if os_good os
  then mkOfstream true (os_pending os +:+ msg) (os_file os)
  else os.

(** [stream << std::flush] *)
Definition flush (io : io_result) (os : ofstream) : ofstream :=
  if os_good os
  then match io with
       | IoOk => mkOfstream true "" (os_file os +:+ os_pending os)
       | IoError n =>
           mkOfstream false (drop n (os_pending os))
                      (os_file os +:+ take n (os_pending os))
       end
  else os.

Definition IsValid (l : FileLogListener) : bool := os_good (m_logfile l).
Definition IsEnabled (l : FileLogListener) : bool := m_file_enable l.

Definition SetEnable (enable : bool) (l : FileLogListener) : FileLogListener :=
  {| m_log_lock := m_log_lock l;
     m_logfile := m_logfile l;
     m_file_enable := enable |}.

Definition with_logfile (l : FileLogListener) (os : ofstream) : FileLogListener :=
  {| m_log_lock := m_log_lock l;
     m_logfile := os;
     m_file_enable := m_file_enable l |}.

(** [FileLogListener(filename)]: open for appending, then [SetEnable(true)].
    The argument is what opening the path gives: the file's contents, or
    nothing when it cannot be opened. *)
Definition new (opened : option string) : FileLogListener :=
  SetEnable true
    {| m_log_lock := false;
       m_logfile := OpenFStream opened;
       m_file_enable := false |}.

(** [Log(level, msg)] run by one thread from start to end: the guard, then
    under the lock (taken and released, so left as it was) the insertion
    and the flush. *)
Definition Log (io : io_result) (l : FileLogListener)
    (level : LOG_LEVELS) (msg : string) : FileLogListener :=
  if negb (IsEnabled l) || negb (IsValid l)
  then l
  else with_logfile l (flush io (insert msg (m_logfile l))).

(** A sequence of calls by one thread, each with the device's answer. *)
Definition LogAll (l : FileLogListener)
    (calls : list (io_result * LOG_LEVELS * string)) : FileLogListener :=
  foldl (fun l c => Log c.1.1 l c.1.2 c.2) l calls.

(** The member functions a client can call on a listener. *)
Inductive op : Set :=
| OpLog (io : io_result) (level : LOG_LEVELS) (msg : string)
| OpSetEnable (enable : bool).

Definition run_op (l : FileLogListener) (o : op) : FileLogListener :=
  match o with
  | OpLog io level msg => Log io l level msg
  | OpSetEnable enable => SetEnable enable l
  end.

Definition run_ops (l : FileLogListener) (ops : list op) : FileLogListener :=
  foldl run_op l ops.

End FileListener.

(** *** Concurrent callers of [FileLogListener::Log]

    Each thread runs the body of [Log] statement by statement; the threads
    interleave at every statement, and the insertion of a message goes a
    character at a time, so that without the lock the characters of two
    messages could mix. The device takes every flush. *)
Module Concurrent.

(** Where a thread is in [Log]. *)
Inductive pc : Set :=
| AtGuard                 (* if (!IsEnabled() || !IsValid()) return; *)
| AtLock                  (* std::lock_guard<std::mutex> lk(m_log_lock); *)
| AtInsert (rest : string) (* m_logfile << msg, [rest] still to insert *)
| AtFlush                 (* << std::flush *)
| AtUnlock                (* end of scope: the guard releases the lock *)
| Done.

#[global] Instance pc_eq_dec : EqDecision pc.
Proof. solve_decision. Defined.

Record thread : Set := mkThread { t_msg : string; t_pc : pc }.

Record state : Set := mkState {
  st_listener : FileLogListener;
  st_threads : list thread
}.

Definition with_lock (l : FileLogListener) (held : bool) : FileLogListener :=
  {| m_log_lock := held;
     m_logfile := m_logfile l;
     m_file_enable := m_file_enable l |}.

(** One statement of one thread: the listener and the thread's next
    position, or nothing when the thread cannot move (it waits for the
    lock, or it has returned). *)
Definition step_thread (l : FileLogListener) (t : thread)
    : option (FileLogListener * thread) :=
  match t_pc t with
  | AtGuard =>
      if negb (FileListener.IsEnabled l) || negb (FileListener.IsValid l)
      then Some (l, mkThread (t_msg t) Done)
      else Some (l, mkThread (t_msg t) AtLock)
  | AtLock =>
      if m_log_lock l
      then None
      else Some (with_lock l true, mkThread (t_msg t) (AtInsert (t_msg t)))
  | AtInsert "" => Some (l, mkThread (t_msg t) AtFlush)
  | AtInsert (String a rest) =>
      Some (FileListener.with_logfile l
              (FileListener.insert (String a "") (m_logfile l)),
            mkThread (t_msg t) (AtInsert rest))
  | AtFlush =>
      Some (FileListener.with_logfile l
              (FileListener.flush IoOk (m_logfile l)),
            mkThread (t_msg t) AtUnlock)
  | AtUnlock => Some (with_lock l false, mkThread (t_msg t) Done)
  | Done => None
  end.

(** The scheduler picks a thread that can move. *)
Inductive step : state -> state -> Prop :=
| step_at i t l' t' s :
    st_threads s !! i = Some t ->
    step_thread (st_listener s) t = Some (l', t') ->
    step s (mkState l' (<[i:=t']> (st_threads s))).

Inductive steps : state -> state -> Prop :=
| steps_refl s : steps s s
| steps_step s1 s2 s3 : step s1 s2 -> steps s2 s3 -> steps s1 s3.

(** A run under a scheduler given as the list of thread numbers to move,
    for executing the model. *)
Fixpoint run (schedule : list nat) (s : state) : option state :=
  match schedule with
  | [] => Some s
  | i :: rest =>
      match st_threads s !! i with
      | Some t =>
          match step_thread (st_listener s) t with
          | Some (l', t') => run rest (mkState l' (<[i:=t']> (st_threads s)))
          | None => None
          end
      | None => None
      end
  end.

(** [N] callers, one message each, all about to enter [Log]. *)
Definition start (l : FileLogListener) (msgs : list string) : state :=
  mkState l ((fun m => mkThread m AtGuard) <$> msgs).

Definition all_done (s : state) : Prop :=
  Forall (fun t => t_pc t = Done) (st_threads s).

(** The concatenation of a list of messages. *)
Definition concat_msgs (msgs : list string) : string :=
  foldr String.append "" msgs.

(** A thread between taking the lock and releasing it. *)
Definition holding (p : pc) : bool :=
  match p with
  | AtInsert _ | AtFlush | AtUnlock => true
  | AtGuard | AtLock | Done => false
  end.

(** A thread whose message has been flushed to the file. *)
Definition flushed (p : pc) : bool :=
  match p with
  | AtUnlock | Done => true
  | AtGuard | AtLock | AtInsert _ | AtFlush => false
  end.

(** What the stream holds pending, given the thread that has the lock: the
    part of its message inserted so far. *)
Definition pending_ok (holder : option thread) (pending : string) : Prop :=
  match holder with
  | Some t =>
      match t_pc t with
      | AtInsert rest => t_msg t = pending +:+ rest
      | AtFlush => pending = t_msg t
      | _ => pending = ""
      end
  | None => pending = ""
  end.

(** The messages of the threads [order], in that order. *)
Definition written (msgs : list string) (order : list nat) : list string :=
  (fun i => default "" (msgs !! i)) <$> order.

(** What holds in every state of a run from [start l0 msgs]: [order] lists
    the threads whose message is in the file, in the order of their
    flushes, and [holder] is the thread that has the lock. *)
Record inv (l0 : FileLogListener) (msgs : list string) (s : state)
    (order : list nat) (holder : option nat) : Prop := mkInv {
  inv_msgs : t_msg <$> st_threads s = msgs;
  inv_enable : m_file_enable (st_listener s) = true;
  inv_good : os_good (m_logfile (st_listener s)) = true;
  inv_lock : m_log_lock (st_listener s) = bool_decide (is_Some holder);
  inv_holder : forall i t,
    st_threads s !! i = Some t ->
    holding (t_pc t) = true <-> holder = Some i;
  inv_holder_thread : forall i,
    holder = Some i -> is_Some (st_threads s !! i);
  inv_pending :
    pending_ok (holder ≫= fun i => st_threads s !! i)
      (os_pending (m_logfile (st_listener s)));
  inv_order : NoDup order;
  inv_flushed : forall i,
    i ∈ order <->
    exists t, st_threads s !! i = Some t /\ flushed (t_pc t) = true;
  inv_file :
    os_file (m_logfile (st_listener s))
    = os_file (m_logfile l0) +:+ concat_msgs (written msgs order)
}.

(** The statements a thread still has to run, counting one for each
    character to insert. *)
Definition remaining (t : thread) : nat :=
  match t_pc t with
  | AtGuard => 5 + String.length (t_msg t)
  | AtLock => 4 + String.length (t_msg t)
  | AtInsert rest => 3 + String.length rest
  | AtFlush => 2
  | AtUnlock => 1
  | Done => 0
  end.

Definition remaining_all (s : state) : nat :=
  foldr (fun t n => (remaining t + n)%nat) O (st_threads s).

End Concurrent.

(* ===================================================================== *)
(** ** What the manager takes from its collaborators *)
(* ===================================================================== *)

(** Modelled from the spec: Common/IniFile.h is not under src/. The
    configuration is consumed as plain values: a section holds booleans and
    integers under keys, and [Get(key, &out, default)] gives the value under
    the key, or the default when the key is missing. *)
Inductive ini_value : Set :=
| IniBool (b : bool)
| IniInt (n : Z).

Module IniFile.

Definition GetBool (section : gmap string ini_value) (key : string)
    (default : bool) : bool :=
  match section !! key with
  | Some (IniBool b) => b
  | _ => default
  end.

Definition GetInt (section : gmap string ini_value) (key : string)
    (default : Z) : Z :=
  match section !! key with
  | Some (IniInt n) => n
  | _ => default
  end.

(** [ini.GetOrCreateSection(name)]: a section that is not in the file is
    created empty. *)
Definition GetOrCreateSection (ini : gmap string (gmap string ini_value))
    (name : string) : gmap string ini_value :=
  default ∅ (ini !! name).

End IniFile.

(** Modelled from the spec: Common/StringUtil.h is not under src/.
    [CharArrayFromFormatV(out, outsize, format, args)] formats into a buffer
    of [outsize] characters, the terminator included: the result is bounded,
    it holds the first [outsize - 1] characters of the text the format and
    its arguments expand to. *)
Definition CharArrayFromFormatV (outsize : nat) (expanded : string) : string :=
  FileListener.take (outsize - 1) expanded.

(** [%u] applied to an [int]: the decimal digits of the number read as an
    unsigned 32-bit value. *)
Definition format_u (n : Z) : string := pretty (Z.to_N (n mod 2 ^ 32)).

(** [file + n]: a pointer into a C string moved forward by [n] characters.
    The pointer stays in the string, its terminator included, when [n] is
    at most the length of the string. *)
Definition advance_defined (file : string) (n : nat) : Prop :=
  (n <= String.length file)%nat.

(** The string at [file + n]: the characters of [file] from the [n]th on.
    Where [advance_defined] fails the C++ reads memory that is not part of
    the string, which the model does not describe; [advance] gives the
    empty string there, and the text of a line is stated under
    [advance_defined] only. *)
Definition advance (file : string) (n : nat) : string :=
  FileListener.drop n file.

(** The listener objects on the heap, at addresses in [nat]. The console
    listener and the log window are defined elsewhere; only the file
    listener has state here. *)
Inductive object : Set :=
| ObjFileLogListener (l : FileLogListener)
| ObjConsoleListener
| ObjLogWindow.

(** [new T(...)]: an address that holds no object yet. *)
Definition heap_new (o : object) (h : gmap nat object) : nat * gmap nat object :=
  let a := fresh (dom h) in (a, <[a:=o]> h).

(** [delete p]: nothing for a null pointer. *)
Definition heap_delete (p : option nat) (h : gmap nat object) : gmap nat object :=
  match p with
  | Some a => delete a h
  | None => h
  end.

(** What the constructor reads from outside the class. *)
Record Env : Type := mkEnv {
  (** [MAX_LOGLEVEL] of Log.h, fixed by the build *)
  MAX_LOGLEVEL : LOG_LEVELS;
  (** [DIR_SEP] of CommonPaths.h *)
  DIR_SEP : string;
  (** [__FILE__] in LogManager.cpp *)
  FILE_macro : string;
  (** what [ini.Load] finds in the logger configuration file *)
  logger_config : gmap string (gmap string ini_value);
  (** what opening the main log file gives: its contents, or nothing *)
  main_log : option string
}.

(* ===================================================================== *)
(** ** class LogManager *)
(* ===================================================================== *)

Definition MAX_MSGLEN : nat := 1024.

(** The calls [LogWithFullPath] makes, in order. *)
Inductive event : Set :=
| Formatted (text : string)
    (* CharArrayFromFormatV or StringFromFormat ran and produced [text] *)
| TimeRead
    (* Common::Timer::GetTimeFormatted() *)
| ListenerLog (listener_id : Z) (listener : nat)
              (level : LOG_LEVELS) (msg : string).
    (* m_listeners[listener_id]->Log(level, msg) *)

(** The members of the manager: the level, as the number of its enumerator;
    the array of containers, indexed by log type; the array of listener
    pointers, as a map from the index to the address, a null pointer being
    an index without address; the cut-off point of the file paths. *)
Record LogManager : Type := mkLogManager {
  m_level : Z;
  m_log : LOG_TYPE -> LogContainer;
  m_listeners : gmap Z nat;
  m_path_cutoff_point : nat
}.

Module Manager.

(** [static size_t DeterminePathCutOffPoint()] *)
Definition DeterminePathCutOffPoint (dir_sep file_macro : string) : nat :=
  let pattern := dir_sep +:+ "Source" +:+ dir_sep +:+ "Core" +:+ dir_sep in
  match index 0 pattern file_macro with
  | Some pos => (pos + String.length pattern)%nat
  | None => O
  end.

(** The containers the constructor creates, with their short and full
    names. *)
Definition create_container (t : LOG_TYPE) : LogContainer :=
  match t with
  | ACTIONREPLAY => Container.new "ActionReplay" "ActionReplay" false
  | AUDIO => Container.new "Audio" "Audio Emulator" false
  | AUDIO_INTERFACE => Container.new "AI" "Audio Interface (AI)" false
  | BOOT => Container.new "BOOT" "Boot" false
  | COMMANDPROCESSOR => Container.new "CP" "CommandProc" false
  | COMMON => Container.new "COMMON" "Common" false
  | CONSOLE => Container.new "CONSOLE" "Dolphin Console" false
  | CORE => Container.new "CORE" "Core" false
  | DISCIO => Container.new "DIO" "Disc IO" false
  | DSPHLE => Container.new "DSPHLE" "DSP HLE" false
  | DSPLLE => Container.new "DSPLLE" "DSP LLE" false
  | DSP_MAIL => Container.new "DSPMails" "DSP Mails" false
  | DSPINTERFACE => Container.new "DSP" "DSPInterface" false
  | DVDINTERFACE => Container.new "DVD" "DVD Interface" false
  | DYNA_REC => Container.new "JIT" "Dynamic Recompiler" false
  | EXPANSIONINTERFACE => Container.new "EXI" "Expansion Interface" false
  | FILEMON => Container.new "FileMon" "File Monitor" false
  | GDB_STUB => Container.new "GDB_STUB" "GDB Stub" false
  | GPFIFO => Container.new "GP" "GPFifo" false
  | HOST_GPU => Container.new "Host GPU" "Host GPU" false
  | IOS => Container.new "IOS" "IOS" false
  | IOS_DI => Container.new "IOS_DI" "IOS - Drive Interface" false
  | IOS_ES => Container.new "IOS_ES" "IOS - ETicket Services" false
  | IOS_FILEIO => Container.new "IOS_FILEIO" "IOS - FileIO" false
  | IOS_SD => Container.new "IOS_SD" "IOS - SDIO" false
  | IOS_SSL => Container.new "IOS_SSL" "IOS - SSL" false
  | IOS_STM => Container.new "IOS_STM" "IOS - State Transition Manager" false
  | IOS_NET => Container.new "IOS_NET" "IOS - Network" false
  | IOS_USB => Container.new "IOS_USB" "IOS - USB" false
  | IOS_WC24 => Container.new "IOS_WC24" "IOS - WiiConnect24" false
  | IOS_WIIMOTE => Container.new "IOS_WIIMOTE" "IOS - Wii Remote" false
  | MASTER_LOG => Container.new "*" "Master Log" false
  | MEMCARD_MANAGER => Container.new "MemCard Manager" "MemCard Manager" false
  | MEMMAP => Container.new "MI" "MI & memmap" false
  | NETPLAY => Container.new "NETPLAY" "Netplay" false
  | OSHLE => Container.new "HLE" "HLE" false
  | OSREPORT => Container.new "OSREPORT" "OSReport" false
  | PAD => Container.new "PAD" "Pad" false
  | PIXELENGINE => Container.new "PE" "PixelEngine" false
  | PROCESSORINTERFACE => Container.new "PI" "ProcessorInt" false
  | POWERPC => Container.new "PowerPC" "IBM CPU" false
  | SERIALINTERFACE => Container.new "SI" "Serial Interface (SI)" false
  | SP1 => Container.new "SP1" "Serial Port 1" false
  | VIDEO => Container.new "Video" "Video Backend" false
  | VIDEOINTERFACE => Container.new "VI" "Video Interface (VI)" false
  | WIIMOTE => Container.new "Wiimote" "Wiimote" false
  | WII_IPC => Container.new "WII_IPC" "WII IPC" false
  end.

(** [m_log[type]] replaced by [f(m_log[type])]; the other entries stay. *)
Definition update_log (log : LOG_TYPE -> LogContainer) (type : LOG_TYPE)
    (f : LogContainer -> LogContainer) : LOG_TYPE -> LogContainer :=
  fun t => if decide (t = type) then f (log t) else log t.

Definition with_log (m : LogManager) (log : LOG_TYPE -> LogContainer) : LogManager :=
  {| m_level := m_level m;
     m_log := log;
     m_listeners := m_listeners m;
     m_path_cutoff_point := m_path_cutoff_point m |}.

Definition GetLogLevel (m : LogManager) : Z := m_level m.

(** [SetLogLevel(level)]: the member holds the number of the enumerator,
    which is what the constructor passes after [static_cast]. *)
Definition SetLogLevel (level : Z) (m : LogManager) : LogManager :=
  {| m_level := level;
     m_log := m_log m;
     m_listeners := m_listeners m;
     m_path_cutoff_point := m_path_cutoff_point m |}.

Definition SetEnable (type : LOG_TYPE) (enable : bool) (m : LogManager) : LogManager :=
  with_log m (update_log (m_log m) type (Container.SetEnable enable)).

Definition IsEnabled (m : LogManager) (type : LOG_TYPE) (level : LOG_LEVELS) : bool :=
  Container.IsEnabled (m_log m type) && (GetLogLevel m >=? level_value level).

Definition GetShortName (m : LogManager) (type : LOG_TYPE) : string :=
  Container.GetShortName (m_log m type).

Definition GetFullName (m : LogManager) (type : LOG_TYPE) : string :=
  Container.GetFullName (m_log m type).

(** [m_listeners[id] = listener]; a null pointer empties the slot. *)
Definition RegisterListener (id : LISTENER) (listener : option nat)
    (m : LogManager) : LogManager :=
  {| m_level := m_level m;
     m_log := m_log m;
     m_listeners :=
       match listener with
       | Some p => <[listener_index id := p]> (m_listeners m)
       | None => delete (listener_index id) (m_listeners m)
       end;
     m_path_cutoff_point := m_path_cutoff_point m |}.

Definition AddListener (type : LOG_TYPE) (id : LISTENER) (m : LogManager) : LogManager :=
  with_log m (update_log (m_log m) type (Container.AddListener id)).

Definition RemoveListener (type : LOG_TYPE) (id : LISTENER) (m : LogManager) : LogManager :=
  with_log m (update_log (m_log m) type (Container.RemoveListener id)).

(** [StringFromFormat("%s %s:%u %c[%s]: %s\n", time, file, line,
    LOG_LEVEL_TO_CHAR[level], short_name, temp)] *)
Definition format_line (time file : string) (line : Z) (level : LOG_LEVELS)
    (short_name temp : string) : string :=
  time +:+ " " +:+ file +:+ ":" +:+ format_u line +:+ " "
    +:+ String (LOG_LEVEL_TO_CHAR level) ("[" +:+ short_name +:+ "]: " +:+ temp
    +:+ String (ascii_of_nat 10) "").

(** The fan-out: one call for each id of the container's set that has a
    listener in the table. *)
Definition dispatch (listeners : gmap Z nat) (level : LOG_LEVELS)
    (msg : string) (ids : list Z) : list event :=
  flat_map (fun listener_id =>
              match listeners !! listener_id with
              | Some p => [ListenerLog listener_id p level msg]
              | None => []
              end) ids.

(** [LogWithFullPath(level, type, file, line, format, args)]. [time] is what
    the timer returns when asked, [expanded] the text [format] and [args]
    expand to. *)
Definition LogWithFullPath (m : LogManager) (time : string)
    (level : LOG_LEVELS) (type : LOG_TYPE) (file : string) (line : Z)
    (expanded : string) : list event :=
  let log := m_log m type in
  if negb (Container.IsEnabled log)
     || (level_value level >? GetLogLevel m)
     || negb (Container.HasListeners log)
  then []
  else
    let temp := CharArrayFromFormatV MAX_MSGLEN expanded in
    let msg := format_line time file line level (Container.GetShortName log) temp in
    [Formatted temp; TimeRead; Formatted msg]
      ++ dispatch (m_listeners m) level msg (Container.listener_ids log).

(** [Log(level, type, file, line, format, args)] *)
Definition Log (m : LogManager) (time : string)
    (level : LOG_LEVELS) (type : LOG_TYPE) (file : string) (line : Z)
    (expanded : string) : list event :=
  LogWithFullPath m time level type (advance file (m_path_cutoff_point m))
    line expanded.

(** The verbosity made valid: not below 1, not above [MAX_LOGLEVEL]. *)
Definition clamp_verbosity (max_loglevel : LOG_LEVELS) (verbosity : Z) : Z :=
  let verbosity := if verbosity <? 1 then 1 else verbosity in
  if verbosity >? level_value max_loglevel
  then level_value max_loglevel
  else verbosity.

(** The body of the loop over the containers in the constructor. *)
Definition configure_container (logs : gmap string ini_value)
    (write_file write_console write_window : bool)
    (container : LogContainer) : LogContainer :=
  let enable := IniFile.GetBool logs (Container.GetShortName container) false in
  let container := Container.SetEnable enable container in
  let container :=
    if enable && write_file
    then Container.AddListener FILE_LISTENER container else container in
  let container :=
    if enable && write_console
    then Container.AddListener CONSOLE_LISTENER container else container in
  if enable && write_window
  then Container.AddListener LOG_WINDOW_LISTENER container else container.

(** [LogManager::LogManager()]. The listener table starts with null
    pointers and the level is set before anything reads it. *)
Definition new (env : Env) (h : gmap nat object) : LogManager * gmap nat object :=
  (* create log containers *)
  let m := {| m_level := 0;
              m_log := create_container;
              m_listeners := ∅;
              m_path_cutoff_point := O |} in
  let '(file_listener, h) :=
    heap_new (ObjFileLogListener (FileListener.new (main_log env))) h in
  let m := RegisterListener FILE_LISTENER (Some file_listener) m in
  let '(console_listener, h) := heap_new ObjConsoleListener h in
  let m := RegisterListener CONSOLE_LISTENER (Some console_listener) m in
  let logs := IniFile.GetOrCreateSection (logger_config env) "Logs" in
  let options := IniFile.GetOrCreateSection (logger_config env) "Options" in
  let write_file := IniFile.GetBool options "WriteToFile" false in
  let write_console := IniFile.GetBool options "WriteToConsole" true in
  let write_window := IniFile.GetBool options "WriteToWindow" true in
  (* Set up log listeners *)
  let verbosity := IniFile.GetInt options "Verbosity" 0 in
  (* Ensure the verbosity level is valid *)
  let m := SetLogLevel (clamp_verbosity (MAX_LOGLEVEL env) verbosity) m in
  let m :=
    with_log m
      (foldl (fun log t =>
                update_log log t
                  (configure_container logs write_file write_console write_window))
             (m_log m) all_log_types) in
  ({| m_level := m_level m;
      m_log := m_log m;
      m_listeners := m_listeners m;
      m_path_cutoff_point :=
        DeterminePathCutOffPoint (DIR_SEP env) (FILE_macro env) |}, h).

(** [LogManager::~LogManager()]: the containers go with the manager; of the
    listeners, the console and the file listener are deleted. The log
    window listener pointer is owned by the GUI code. *)
Definition destroy (m : LogManager) (h : gmap nat object) : gmap nat object :=
  let h := heap_delete (m_listeners m !! listener_index CONSOLE_LISTENER) h in
  heap_delete (m_listeners m !! listener_index FILE_LISTENER) h.

End Manager.

(* ===================================================================== *)
(** ** The process-wide instance *)
(* ===================================================================== *)

(** [static LogManager* s_log_manager] and the heap of listener objects. *)
Record World : Type := mkWorld {
  s_log_manager : option LogManager;
  heap : gmap nat object
}.

Module Singleton.

Definition GetInstance (w : World) : option LogManager := s_log_manager w.

(** [s_log_manager = new LogManager();] *)
Definition Init (env : Env) (w : World) : World :=
  let '(m, h) := Manager.new env (heap w) in
  {| s_log_manager := Some m; heap := h |}.

(** [delete s_log_manager; s_log_manager = nullptr;] *)
Definition Shutdown (w : World) : World :=
  {| s_log_manager := None;
     heap := match s_log_manager w with
             | Some m => Manager.destroy m (heap w)
             | None => heap w
             end |}.

(** [GenericLog(level, type, file, line, fmt, ...)] *)
Definition GenericLog (w : World) (time : string)
    (level : LOG_LEVELS) (type : LOG_TYPE) (file : string) (line : Z)
    (expanded : string) : list event :=
  match GetInstance w with
  | Some m => Manager.Log m time level type file line expanded
  | None => []
  end.

(** [LogManager::GetInstance()->f(...)] for a member function [f] that
    changes the manager, called by code that knows the instance exists (the
    GUI registers its log window this way). *)
Definition on_instance (f : LogManager -> LogManager) (w : World) : World :=
  {| s_log_manager := f <$> s_log_manager w;
     heap := heap w |}.

End Singleton.

(* ===================================================================== *)
(** ** Reading a trace of calls *)
(* ===================================================================== *)

Module Trace.

Definition listener_id_of (e : event) : option Z :=
  match e with
  | ListenerLog listener_id _ _ _ => Some listener_id
  | _ => None
  end.

Definition listener_of (e : event) : option nat :=
  match e with
  | ListenerLog _ listener _ _ => Some listener
  | _ => None
  end.

(** The calls of [Log] made through the slot [listener_id] of the table. *)
Definition emits_to (listener_id : Z) (tr : list event) : list event :=
  filter (fun e => listener_id_of e = Some listener_id) tr.

(** The calls of [Log] made on the listener object at [listener]. *)
Definition emits_on (listener : nat) (tr : list event) : list event :=
  filter (fun e => listener_of e = Some listener) tr.

(** All the calls of [Log] on listeners. *)
Definition emits (tr : list event) : list event :=
  filter (fun e => is_Some (listener_id_of e)) tr.

(** [part] occurs in [s]. *)
Definition contains (s part : string) : Prop :=
  exists before after, s = before +:+ part +:+ after.

End Trace.

(* ===================================================================== *)
(** ** A configuration to run the model on *)
(* ===================================================================== *)

Module Example.

(** A release build on a Unix path; the audio log is enabled, written to
    the console and not to the file, and the verbosity is Info. *)
Definition env : Env :=
  {| MAX_LOGLEVEL := LINFO;
     DIR_SEP := "/";
     FILE_macro := "/src/dolphin/Source/Core/Common/Logging/LogManager.cpp";
     logger_config :=
       {[ "Logs" := {[ "Audio" := IniBool true ]};
          "Options" := {[ "WriteToConsole" := IniBool true;
                          "WriteToFile" := IniBool false;
                          "Verbosity" := IniInt 4 ]} ]};
     main_log := Some "" |}.

(** No configuration file at all, and a main log that cannot be opened. *)
Definition bare_env : Env :=
  {| MAX_LOGLEVEL := LINFO;
     DIR_SEP := "/";
     FILE_macro := "/src/dolphin/Source/Core/Common/Logging/LogManager.cpp";
     logger_config := ∅;
     main_log := None |}.

Definition empty_world : World := {| s_log_manager := None; heap := ∅ |}.

Definition manager : LogManager := (Manager.new env ∅).1.

(** The manager with the console listener registered at the id of the log
    window as well: one object at two ids. *)
Definition shared_manager : LogManager :=
  Manager.RegisterListener LOG_WINDOW_LISTENER
    (m_listeners manager !! listener_index CONSOLE_LISTENER) manager.

(** A source file of the build of [env]. *)
Definition audio_cpp : string :=
  "/src/dolphin/Source/Core/AudioCommon/audio.cpp".

(** A text of 1024 characters. *)
Definition long_text : string :=
  foldr String.append "" (replicate 1024 "a").

End Example.

(* ===================================================================== *)
(** ** Member functions run in sequence, and calls run on the heap *)
(* ===================================================================== *)

Module Ops.

(** The messages that reach the file when one thread runs [ops] on a file
    listener with a good stream and a device that takes every flush:
    those logged while the listener is enabled. *)
Fixpoint logged (enabled : bool) (ops : list FileListener.op) : list string :=
  match ops with
  | [] => []
  | FileListener.OpLog _ _ msg :: rest =>
      if enabled then msg :: logged enabled rest else logged enabled rest
  | FileListener.OpSetEnable enable :: rest => logged enable rest
  end.

(** The device takes the flush of every call of [Log] in [ops]. *)
Definition device_ok (o : FileListener.op) : Prop :=
  match o with
  | FileListener.OpLog io _ _ => io = IoOk
  | FileListener.OpSetEnable _ => True
  end.

(** The member functions of the manager that change it. [SetLogLevel]
    stores the number it is given, whether or not it is the number of an
    enumerator. *)
Inductive manager_op : Set :=
| OpSetLogLevel (level : Z)
| OpSetEnable (type : LOG_TYPE) (enable : bool)
| OpRegisterListener (id : LISTENER) (listener : option nat)
| OpAddListener (type : LOG_TYPE) (id : LISTENER)
| OpRemoveListener (type : LOG_TYPE) (id : LISTENER).

Definition run_manager_op (m : LogManager) (o : manager_op) : LogManager :=
  match o with
  | OpSetLogLevel level => Manager.SetLogLevel level m
  | OpSetEnable type enable => Manager.SetEnable type enable m
  | OpRegisterListener id listener => Manager.RegisterListener id listener m
  | OpAddListener type id => Manager.AddListener type id m
  | OpRemoveListener type id => Manager.RemoveListener type id m
  end.

Definition run_manager_ops (m : LogManager) (ops : list manager_op) : LogManager :=
  foldl run_manager_op m ops.

(** The argument of the last [SetLogLevel] of [ops], and [level] when there
    is none. *)
Fixpoint last_level (level : Z) (ops : list manager_op) : Z :=
  match ops with
  | [] => level
  | OpSetLogLevel level' :: rest => last_level level' rest
  | _ :: rest => last_level level rest
  end.

(** [m_listeners[listener_id]->Log(level, msg)] on the heap: the virtual call
    goes to [FileLogListener::Log] when the object is a file listener; the
    console listener and the log window write elsewhere; a pointer to no
    object has no defined meaning. *)
Definition deliver (io : io_result) (h : gmap nat object) (e : event)
    : option (gmap nat object) :=
  match e with
  | ListenerLog _ listener level msg =>
      match h !! listener with
      | Some (ObjFileLogListener l) =>
          Some (<[listener :=
                    ObjFileLogListener (FileListener.Log io l level msg)]> h)
      | Some ObjConsoleListener => Some h
      | Some ObjLogWindow => Some h
      | None => None
      end
  | Formatted _ => Some h
  | TimeRead => Some h
  end.

(** The calls of a trace, one after the other. *)
Fixpoint deliver_all (io : io_result) (h : gmap nat object) (tr : list event)
    : option (gmap nat object) :=
  match tr with
  | [] => Some h
  | e :: rest =>
      match deliver io h e with
      | Some h' => deliver_all io h' rest
      | None => None
      end
  end.

End Ops.


(* ===================================================================== *)
(** * Properties *)
(* ===================================================================== *)

(** ** The bit set *)

Section BitSet32_facts.

Import BitSet32.

Lemma mask_pow2 bit : 0 <= bit < width -> mask bit = 2 ^ bit.
Proof.
  intros H. unfold mask, wrap, width in *.
  rewrite Z.shiftl_1_l. apply Z.mod_small. split; [lia|].
  apply Z.pow_lt_mono_r; lia.
Qed.

(** A word read bit by bit: the wrapped complement of a mask. *)
Lemma wrap_lnot_bits m n :
  0 <= n ->
  Z.testbit (wrap (Z.lnot m)) n = (n <? width) && negb (Z.testbit m n).
Proof.
  intros Hn. unfold wrap, width. destruct (Z.ltb_spec n 32).
  - rewrite Z.mod_pow2_bits_low by lia. rewrite Z.lnot_spec by lia. done.
  - rewrite Z.mod_pow2_bits_high by lia. done.
Qed.

Lemma get_testbit bs bit :
  0 <= bit < width -> get bs bit = Z.testbit (m_val bs) bit.
Proof.
  intros H. unfold get. rewrite mask_pow2 by done.
  destruct (Z.testbit (m_val bs) bit) eqn:E.
  - apply negb_true_iff, Z.eqb_neq. intros H0.
    assert (Z.testbit (Z.land (m_val bs) (2 ^ bit)) bit = true) as H1.
    { rewrite Z.land_spec, E, Z.pow2_bits_true; lia. }
    rewrite H0, Z.bits_0 in H1. done.
  - apply negb_false_iff, Z.eqb_eq. apply Z.bits_inj'. intros n Hn.
    rewrite Z.land_spec, Z.bits_0.
    destruct (decide (n = bit)) as [->|Hne].
    + rewrite E. done.
    + rewrite Z.pow2_bits_false by lia. apply andb_false_r.
Qed.

(** The bits of the word after [bs[bit] = b]. *)
Lemma set_bits bs bit b n :
  0 <= bit < width -> 0 <= n ->
  Z.testbit (m_val (set bs bit b)) n =
    if decide (n = bit) then b
    else (n <? width) && Z.testbit (m_val bs) n.
Proof.
  intros Hbit Hn. unfold set. cbn [m_val].
  rewrite mask_pow2 by done.
  rewrite Z.lor_spec, Z.land_spec, wrap_lnot_bits by done.
  assert (Z.testbit (if b then 2 ^ bit else 0) n
          = b && bool_decide (n = bit)) as ->.
  { destruct b; [|by rewrite Z.bits_0].
    rewrite Z.pow2_bits_eqb by lia. cbn.
    case_bool_decide; [apply Z.eqb_eq|apply Z.eqb_neq]; lia. }
  rewrite Z.pow2_bits_eqb by lia.
  case_decide as Hd.
  - subst n. rewrite Z.eqb_refl, bool_decide_true by done.
    destruct (Z.testbit (m_val bs) bit), (bit <? width), b; done.
  - rewrite bool_decide_false by done.
    assert ((bit =? n) = false) as -> by (apply Z.eqb_neq; lia).
    destruct (Z.testbit (m_val bs) n), (n <? width), b; done.
Qed.

(** Every bit of the new word lies in the 32-bit range. *)
Lemma set_high_bits bs bit b n :
  0 <= bit < width -> width <= n ->
  Z.testbit (m_val (set bs bit b)) n = false.
Proof.
  intros Hbit Hn. rewrite set_bits by (unfold width in *; lia).
  case_decide; [unfold width in *; lia|].
  assert ((n <? width) = false) as -> by (apply Z.ltb_ge; lia). done.
Qed.

(** Reading a bit back after writing one. *)
Lemma get_set bs bit b j :
  0 <= bit < width -> 0 <= j < width ->
  get (set bs bit b) j = if decide (j = bit) then b else get bs j.
Proof.
  intros Hbit Hj. rewrite !get_testbit by done.
  rewrite set_bits by lia. case_decide; [done|].
  assert ((j <? width) = true) as -> by (apply Z.ltb_lt; lia). done.
Qed.

(** Two sets with the same bits are the same set. *)
Lemma eq_of_bits bs1 bs2 :
  (forall n, 0 <= n -> Z.testbit (m_val bs1) n = Z.testbit (m_val bs2) n) ->
  bs1 = bs2.
Proof.
  destruct bs1 as [v1], bs2 as [v2]. cbn [m_val]. intros H.
  f_equal. apply Z.bits_inj'. exact H.
Qed.

(** Writing the same bit twice is writing it once. *)
Lemma set_set bs bit b :
  0 <= bit < width -> set (set bs bit b) bit b = set bs bit b.
Proof.
  intros Hbit. apply eq_of_bits. intros n Hn.
  rewrite !set_bits by assumption.
  case_decide; [done|]. destruct (n <? width); done.
Qed.

(** Writing a bit overrides what was written to it before. *)
Lemma set_set_override bs bit b1 b2 :
  0 <= bit < width -> set (set bs bit b1) bit b2 = set bs bit b2.
Proof.
  intros Hbit. apply eq_of_bits. intros n Hn.
  rewrite !set_bits by assumption.
  case_decide; [done|]. destruct (n <? width); done.
Qed.

(** The members, as the iteration gives them. *)
Lemma elem_of_BitSet32_elements bs i :
  i ∈ elements bs <-> 0 <= i < width /\ get bs i = true.
Proof.
  unfold elements. rewrite list_elem_of_filter, elem_of_seqZ. tauto.
Qed.

Lemma NoDup_BitSet32_elements bs : NoDup (elements bs).
Proof. unfold elements. apply NoDup_filter, NoDup_seqZ. Qed.

(** The set converts to [true] exactly when the word has a bit set. *)
Lemma to_bool_true bs :
  0 <= m_val bs ->
  to_bool bs = true <-> exists n, 0 <= n /\ Z.testbit (m_val bs) n = true.
Proof.
  intros Hnn. unfold to_bool. rewrite negb_true_iff, Z.eqb_neq. split.
  - intros Hne.
    destruct (Z.eq_dec (m_val bs) 0) as [|_]; [done|].
    exists (Z.log2 (m_val bs)). split; [apply Z.log2_nonneg|].
    apply Z.bit_log2. lia.
  - intros (n & Hn & Hb) H0. rewrite H0, Z.bits_0 in Hb. done.
Qed.

End BitSet32_facts.

(** ** The log container *)

Section Container_facts.

Import Container.

Lemma listener_index_range id : 0 <= listener_index id < BitSet32.width.
Proof. destruct id; cbn; unfold BitSet32.width; lia. Qed.

Lemma listener_index_inj id1 id2 :
  listener_index id1 = listener_index id2 -> id1 = id2.
Proof. destruct id1, id2; cbn; intros; congruence || lia. Qed.

Lemma listener_of_index n :
  0 <= n < NUMBER_OF_LISTENERS -> exists id, listener_index id = n.
Proof.
  unfold NUMBER_OF_LISTENERS. intros Hn.
  assert (n = 0 \/ n = 1 \/ n = 2) as [->|[->| ->]] by lia.
  - by exists FILE_LISTENER.
  - by exists CONSOLE_LISTENER.
  - by exists LOG_WINDOW_LISTENER.
Qed.

Lemma set_nonneg bs bit b : 0 <= bit < BitSet32.width -> 0 <= BitSet32.m_val (BitSet32.set bs bit b).
Proof.
  intros Hbit. unfold BitSet32.set. cbn [BitSet32.m_val].
  rewrite mask_pow2 by done.
  apply Z.lor_nonneg. split.
  - apply Z.land_nonneg. right. unfold BitSet32.wrap.
    apply Z.mod_pos_bound. unfold BitSet32.width. lia.
  - destruct b; lia.
Qed.

(** In a container the program builds, the word of the listener set is not
    negative and has no bit beyond the listener identities. *)
Lemma built_listener_bits c :
  built c ->
  0 <= BitSet32.m_val (m_listener_ids c) /\
  forall n, NUMBER_OF_LISTENERS <= n ->
            Z.testbit (BitSet32.m_val (m_listener_ids c)) n = false.
Proof.
  induction 1 as [s f e|id c Hc [IH0 IH]|id c Hc [IH0 IH]|b c Hc IH].
  - cbn. split; [lia|]. intros n _. apply Z.bits_0.
  - cbn [AddListener with_listener_ids m_listener_ids].
    pose proof (listener_index_range id) as Hr. split.
    + by apply set_nonneg.
    + intros n Hn. unfold NUMBER_OF_LISTENERS in Hn.
      rewrite set_bits by lia. case_decide as Hd.
      * destruct id; cbn in Hd; lia.
      * rewrite IH by done. apply andb_false_r.
  - cbn [RemoveListener with_listener_ids m_listener_ids].
    pose proof (listener_index_range id) as Hr. split.
    + by apply set_nonneg.
    + intros n Hn. unfold NUMBER_OF_LISTENERS in Hn.
      rewrite set_bits by lia. case_decide as Hd.
      * destruct id; cbn in Hd; lia.
      * rewrite IH by done. apply andb_false_r.
  - exact IH.
Qed.

Lemma subscribed_testbit c id :
  subscribed c id = Z.testbit (BitSet32.m_val (m_listener_ids c)) (listener_index id).
Proof. unfold subscribed. apply get_testbit, listener_index_range. Qed.

Lemma subscribed_AddListener c id j :
  subscribed (AddListener id c) j = if decide (j = id) then true else subscribed c j.
Proof.
  unfold subscribed, AddListener. cbn [with_listener_ids m_listener_ids].
  rewrite get_set by apply listener_index_range.
  repeat case_decide; try done; subst; try done.
  exfalso. eauto using listener_index_inj.
Qed.

Lemma subscribed_RemoveListener c id j :
  subscribed (RemoveListener id c) j = if decide (j = id) then false else subscribed c j.
Proof.
  unfold subscribed, RemoveListener. cbn [with_listener_ids m_listener_ids].
  rewrite get_set by apply listener_index_range.
  repeat case_decide; try done; subst; try done.
  exfalso. eauto using listener_index_inj.
Qed.

Lemma subscribed_SetEnable c b j :
  subscribed (SetEnable b c) j = subscribed c j.
Proof. done. Qed.

(** The ids the iteration visits are the subscribed identities. *)
Lemma listener_ids_subscribed c id :
  listener_index id ∈ listener_ids c <-> subscribed c id = true.
Proof.
  unfold listener_ids, subscribed. rewrite elem_of_BitSet32_elements.
  pose proof (listener_index_range id). tauto.
Qed.

Lemma HasListeners_subscribed c :
  built c ->
  HasListeners c = true <-> exists id, subscribed c id = true.
Proof.
  intros Hb. destruct (built_listener_bits c Hb) as [H0 Hhigh].
  unfold HasListeners. rewrite to_bool_true by done. split.
  - intros (n & Hn & Hbit).
    destruct (Z.lt_ge_cases n NUMBER_OF_LISTENERS) as [Hlt|Hge].
    + destruct (listener_of_index n) as [id <-]; [lia|].
      exists id. by rewrite subscribed_testbit.
    + rewrite Hhigh in Hbit by done. done.
  - intros [id Hid]. rewrite subscribed_testbit in Hid.
    exists (listener_index id). split; [|done].
    apply listener_index_range.
Qed.

End Container_facts.

(** C10: [AddListener(id)] makes [id] a member of the container's listener
    set and [RemoveListener(id)] makes it a non-member, whatever was there
    before: both are idempotent, and removing after adding leaves the id
    absent. Neither changes the membership of another id, the enabled flag
    or the names. [HasListeners()] is true exactly when some listener id is
    a member; the ids the iteration visits are the members. The container
    is any the program builds (constructor, then member functions). *)
Theorem add_remove_listener_membership (c : LogContainer) (id : LISTENER) :
  Container.built c ->
  let added := Container.AddListener id c in
  let removed := Container.RemoveListener id c in
  Container.subscribed added id = true
  /\ Container.subscribed removed id = false
  /\ Container.AddListener id added = added
  /\ Container.RemoveListener id removed = removed
  /\ Container.subscribed (Container.RemoveListener id added) id = false
  /\ (forall j, j <> id ->
        Container.subscribed added j = Container.subscribed c j
        /\ Container.subscribed removed j = Container.subscribed c j)
  /\ (Container.IsEnabled added = Container.IsEnabled c
      /\ Container.IsEnabled removed = Container.IsEnabled c)
  /\ (Container.GetShortName added = Container.GetShortName c
      /\ Container.GetFullName added = Container.GetFullName c
      /\ Container.GetShortName removed = Container.GetShortName c
      /\ Container.GetFullName removed = Container.GetFullName c)
  /\ (forall c', c' = c \/ c' = added \/ c' = removed ->
        (Container.HasListeners c' = true
           <-> exists j, Container.subscribed c' j = true)
        /\ (forall j, listener_index j ∈ Container.listener_ids c'
                      <-> Container.subscribed c' j = true)).
Proof.
  intros Hb added removed. subst added removed.
  pose proof (listener_index_range id) as Hr.
  repeat split.
  - rewrite subscribed_AddListener. by rewrite decide_True.
  - rewrite subscribed_RemoveListener. by rewrite decide_True.
  - unfold Container.AddListener.
    cbn [Container.with_listener_ids m_listener_ids m_full_name m_short_name m_enable].
    by rewrite set_set.
  - unfold Container.RemoveListener.
    cbn [Container.with_listener_ids m_listener_ids m_full_name m_short_name m_enable].
    by rewrite set_set.
  - rewrite subscribed_RemoveListener. by rewrite decide_True.
  - rewrite subscribed_AddListener. by rewrite decide_False.
  - rewrite subscribed_RemoveListener. by rewrite decide_False.
  - destruct H as [->|[->| ->]]; apply HasListeners_subscribed;
      eauto using Container.built.
  - destruct H as [->|[->| ->]]; apply HasListeners_subscribed;
      eauto using Container.built.
  - apply listener_ids_subscribed.
  - apply listener_ids_subscribed.
Qed.

(** The theorem at the container of the audio log with the console listener
    already subscribed. *)
Lemma add_remove_listener_membership_witness :
  let c := Container.AddListener CONSOLE_LISTENER
             (Container.new "Audio" "Audio Emulator" true) in
  Container.subscribed (Container.AddListener FILE_LISTENER c) FILE_LISTENER = true
  /\ Container.subscribed (Container.RemoveListener FILE_LISTENER c) FILE_LISTENER = false.
Proof.
  intros c.
  pose proof (add_remove_listener_membership c FILE_LISTENER) as H.
  cbv zeta in H.
  destruct H as (H1 & H2 & _).
  - apply Container.built_add, Container.built_new.
  - split; assumption.
Defined.

(** ** Filtering and fan-out *)

Section Dispatch_facts.

Import Manager Trace.

Lemma elem_of_dispatch listeners level msg ids e :
  e ∈ dispatch listeners level msg ids <->
  exists i p, e = ListenerLog i p level msg /\ i ∈ ids /\ listeners !! i = Some p.
Proof.
  unfold dispatch. rewrite list_elem_of_In, in_flat_map. split.
  - intros (i & Hi & He). apply list_elem_of_In in Hi.
    destruct (listeners !! i) as [p|] eqn:Hp; cbn in He; [|done].
    destruct He as [<-|[]]. eauto.
  - intros (i & p & -> & Hi & Hp). exists i. split.
    + by apply list_elem_of_In.
    + rewrite Hp. by left.
Qed.

Lemma dispatch_cons listeners level msg i ids :
  dispatch listeners level msg (i :: ids) =
    (match listeners !! i with
     | Some p => [ListenerLog i p level msg]
     | None => []
     end ++ dispatch listeners level msg ids)%list.
Proof. done. Qed.

(** Through one slot, the fan-out calls once if the id is in the set and the
    slot holds a listener, and not at all otherwise. *)
Lemma emits_to_dispatch listeners level msg ids i :
  NoDup ids ->
  emits_to i (dispatch listeners level msg ids) =
    if decide (i ∈ ids)
    then match listeners !! i with
         | Some p => [ListenerLog i p level msg]
         | None => []
         end
    else [].
Proof.
  unfold emits_to. induction 1 as [|j ids Hj Hnd IH].
  - cbn. by rewrite decide_False by apply not_elem_of_nil.
  - rewrite dispatch_cons, filter_app, IH.
    destruct (decide (i = j)) as [->|Hne].
    + rewrite (decide_False (P := j ∈ ids)) by done.
      rewrite (decide_True (P := j ∈ j :: ids)) by apply list_elem_of_here.
      rewrite app_nil_r. destruct (listeners !! j); [|done].
      rewrite filter_cons_True by done. done.
    + assert (filter (fun e => listener_id_of e = Some i)
                (match listeners !! j with
                 | Some p => [ListenerLog j p level msg]
                 | None => []
                 end) = []) as ->.
      { destruct (listeners !! j); [|done].
        rewrite filter_cons_False; [done|]. cbn. congruence. }
      cbn [app]. destruct (decide (i ∈ ids)) as [Hin|Hnin].
      * rewrite decide_True by (by apply list_elem_of_further). done.
      * rewrite decide_False; [done|].
        rewrite elem_of_cons. tauto.
Qed.

(** On one listener object, the fan-out calls once for every id of the set
    whose slot holds that object. *)
Lemma emits_on_dispatch listeners level msg ids p :
  emits_on p (dispatch listeners level msg ids) =
    map (fun i => ListenerLog i p level msg)
        (filter (fun i => listeners !! i = Some p) ids).
Proof.
  unfold emits_on. induction ids as [|j ids IH]; [done|].
  rewrite dispatch_cons, filter_app, IH.
  destruct (listeners !! j) as [q|] eqn:Hq.
  - destruct (decide (q = p)) as [->|Hne].
    + rewrite filter_cons_True by done.
      rewrite (filter_cons_True (fun i => listeners !! i = Some p)) by done.
      done.
    + rewrite filter_cons_False by (cbn; congruence).
      rewrite (filter_cons_False (fun i => listeners !! i = Some p))
        by congruence.
      done.
  - rewrite (filter_cons_False (fun i => listeners !! i = Some p))
      by congruence.
    done.
Qed.

Lemma filter_only {A} (P : A -> Prop) `{!forall x, Decision (P x)}
    (l : list A) (x : A) :
  NoDup l -> x ∈ l -> (forall y, y ∈ l -> P y <-> y = x) ->
  filter P l = [x].
Proof.
  induction 1 as [|y l Hy Hnd IH]; intros Hx HP.
  - by apply elem_of_nil in Hx.
  - destruct (decide (P y)) as [Py|Py].
    + rewrite filter_cons_True by done.
      assert (y = x) as -> by (apply HP; [left|done]).
      f_equal. apply elem_of_nil_inv.
      intros z [Pz Hz]%list_elem_of_filter.
      apply HP in Pz; [|by right]. by subst.
    + rewrite filter_cons_False by done.
      apply IH.
      * apply elem_of_cons in Hx as [->|]; [|done].
        exfalso. apply Py, HP; [left|done].
      * intros z Hz. apply HP. by right.
Qed.

(** A member bit makes the set convert to [true]. *)
Lemma get_to_bool bs i : BitSet32.get bs i = true -> BitSet32.to_bool bs = true.
Proof.
  unfold BitSet32.get, BitSet32.to_bool. intros H.
  apply negb_true_iff, Z.eqb_neq in H. apply negb_true_iff, Z.eqb_neq.
  intros H0. rewrite H0, Z.land_0_l in H. done.
Qed.

(** For a 32-bit word, no member means the set converts to [false]. *)
Lemma elements_nil_to_bool bs :
  BitSet32.in_range bs -> BitSet32.elements bs = [] ->
  BitSet32.to_bool bs = false.
Proof.
  intros [H0 H1] Hnil. destruct (BitSet32.to_bool bs) eqn:E; [|done].
  apply to_bool_true in E as (n & Hn & Hbit); [|done].
  assert (n < BitSet32.width) as Hlt.
  { destruct (Z.lt_ge_cases n BitSet32.width) as [|Hge]; [done|].
    rewrite <- (Z.mod_small _ _ (conj H0 H1)) in Hbit.
    rewrite Z.mod_pow2_bits_high in Hbit; [done|].
    unfold BitSet32.width in *. lia. }
  assert (n ∈ BitSet32.elements bs) as Hin.
  { apply elem_of_BitSet32_elements. split; [lia|]. by rewrite get_testbit by lia. }
  rewrite Hnil in Hin. by apply elem_of_nil in Hin.
Qed.

(** What [LogWithFullPath] does when the call passes the filter. *)
Lemma LogWithFullPath_passes m time level type file line expanded :
  Container.IsEnabled (m_log m type) = true ->
  level_value level <= GetLogLevel m ->
  Container.HasListeners (m_log m type) = true ->
  LogWithFullPath m time level type file line expanded =
    let temp := CharArrayFromFormatV MAX_MSGLEN expanded in
    let msg := format_line time file line level
                 (Container.GetShortName (m_log m type)) temp in
    ([Formatted temp; TimeRead; Formatted msg]
       ++ dispatch (m_listeners m) level msg
            (Container.listener_ids (m_log m type)))%list.
Proof.
  intros He Hl Hh. unfold LogWithFullPath. rewrite He, Hh.
  assert ((level_value level >? GetLogLevel m) = false) as ->.
  { rewrite Z.gtb_ltb. apply Z.ltb_ge. lia. }
  done.
Qed.

(** What it does when the call does not pass. *)
Lemma LogWithFullPath_filtered m time level type file line expanded :
  Container.IsEnabled (m_log m type) = false
  \/ level_value level > GetLogLevel m
  \/ Container.HasListeners (m_log m type) = false ->
  LogWithFullPath m time level type file line expanded = [].
Proof.
  unfold LogWithFullPath. intros [->|[Hl| ->]].
  - done.
  - assert ((level_value level >? GetLogLevel m) = true) as ->.
    { rewrite Z.gtb_ltb. apply Z.ltb_lt. lia. }
    by rewrite orb_true_r.
  - by rewrite orb_true_r.
Qed.

(** Every call on a listener comes from the fan-out of a call that passed
    the filter. *)
Lemma LogWithFullPath_emit m time level type file line expanded e :
  e ∈ LogWithFullPath m time level type file line expanded ->
  is_Some (listener_id_of e) ->
  Container.IsEnabled (m_log m type) = true
  /\ level_value level <= GetLogLevel m
  /\ Container.HasListeners (m_log m type) = true
  /\ e ∈ dispatch (m_listeners m) level
           (format_line time file line level
              (Container.GetShortName (m_log m type))
              (CharArrayFromFormatV MAX_MSGLEN expanded))
           (Container.listener_ids (m_log m type)).
Proof.
  intros He Hid.
  destruct (Container.IsEnabled (m_log m type)) eqn:E1; cycle 1.
  { rewrite LogWithFullPath_filtered in He by auto. by apply elem_of_nil in He. }
  destruct (Z.le_gt_cases (level_value level) (GetLogLevel m)) as [E2|E2]; cycle 1.
  { rewrite LogWithFullPath_filtered in He by (right; left; lia).
    by apply elem_of_nil in He. }
  destruct (Container.HasListeners (m_log m type)) eqn:E3; cycle 1.
  { rewrite LogWithFullPath_filtered in He by auto. by apply elem_of_nil in He. }
  rewrite LogWithFullPath_passes in He by done. cbv zeta in He.
  repeat split; try done.
  apply elem_of_app in He as [He|He]; [|done].
  exfalso. destruct Hid as [i Hi].
  repeat (apply elem_of_cons in He as [->|He]; [done|]).
  by apply elem_of_nil in He.
Qed.

End Dispatch_facts.

Section Log_facts.

Import Manager Trace.

Lemma emits_to_LogWithFullPath m time level type file line expanded i :
  emits_to i (LogWithFullPath m time level type file line expanded) =
    if negb (Container.IsEnabled (m_log m type))
       || (level_value level >? GetLogLevel m)
       || negb (Container.HasListeners (m_log m type))
    then []
    else emits_to i
           (dispatch (m_listeners m) level
              (format_line time file line level
                 (Container.GetShortName (m_log m type))
                 (CharArrayFromFormatV MAX_MSGLEN expanded))
              (Container.listener_ids (m_log m type))).
Proof.
  unfold LogWithFullPath.
  destruct (negb _ || _ || negb _); [done|].
  unfold emits_to. rewrite filter_app.
  rewrite !filter_cons_False by (cbn; congruence). done.
Qed.

Lemma emits_on_LogWithFullPath m time level type file line expanded p :
  emits_on p (LogWithFullPath m time level type file line expanded) =
    if negb (Container.IsEnabled (m_log m type))
       || (level_value level >? GetLogLevel m)
       || negb (Container.HasListeners (m_log m type))
    then []
    else emits_on p
           (dispatch (m_listeners m) level
              (format_line time file line level
                 (Container.GetShortName (m_log m type))
                 (CharArrayFromFormatV MAX_MSGLEN expanded))
              (Container.listener_ids (m_log m type))).
Proof.
  unfold LogWithFullPath.
  destruct (negb _ || _ || negb _); [done|].
  unfold emits_on. rewrite filter_app.
  rewrite !filter_cons_False by (cbn; congruence). done.
Qed.

Lemma subscribed_HasListeners c id :
  Container.subscribed c id = true -> Container.HasListeners c = true.
Proof. apply get_to_bool. Qed.

(** One call through the slot of a subscribed identity that holds a
    listener, when the call passes the filter. *)
Lemma emits_to_subscribed m time level type file line expanded id p :
  Container.IsEnabled (m_log m type) = true ->
  level_value level <= GetLogLevel m ->
  Container.subscribed (m_log m type) id = true ->
  m_listeners m !! listener_index id = Some p ->
  emits_to (listener_index id)
    (LogWithFullPath m time level type file line expanded) =
  [ListenerLog (listener_index id) p level
     (format_line time file line level (GetShortName m type)
        (CharArrayFromFormatV MAX_MSGLEN expanded))].
Proof.
  intros He Hl Hs Hp. rewrite emits_to_LogWithFullPath.
  rewrite He, (subscribed_HasListeners _ _ Hs).
  assert ((level_value level >? GetLogLevel m) = false) as ->.
  { rewrite Z.gtb_ltb. apply Z.ltb_ge. lia. }
  cbn [negb orb].
  rewrite emits_to_dispatch by apply NoDup_BitSet32_elements.
  rewrite decide_True by (by apply listener_ids_subscribed).
  by rewrite Hp.
Qed.

(** No call through the slot of an identity that is not subscribed. *)
Lemma emits_to_not_subscribed m time level type file line expanded id :
  Container.subscribed (m_log m type) id = false ->
  emits_to (listener_index id)
    (LogWithFullPath m time level type file line expanded) = [].
Proof.
  intros Hs. rewrite emits_to_LogWithFullPath.
  destruct (negb _ || _ || negb _); [done|].
  rewrite emits_to_dispatch by apply NoDup_BitSet32_elements.
  rewrite decide_False; [done|].
  rewrite listener_ids_subscribed, Hs. done.
Qed.

Lemma m_log_update_same log type f : update_log log type f type = f (log type).
Proof. unfold update_log. by rewrite decide_True. Qed.

Lemma m_log_update_other log type f t :
  t <> type -> update_log log type f t = log t.
Proof. intros. unfold update_log. by rewrite decide_False. Qed.

End Log_facts.

(** C1: a call of the log entry point ([GenericLog] with an instance, [Log],
    or [LogWithFullPath] behind them) calls [Log] on a listener only
    through an id that is in the listener
    set of the container of the log type, with that listener registered at
    the id in the listener table, the container enabled, and the level not
    above the level of the manager (a larger number is a less severe
    level). If one of these fails for an id, no call is made through it. *)
Theorem emit_only_if_subscribed_registered_enabled_passing
    (m : LogManager) (time : string) (level : LOG_LEVELS) (type : LOG_TYPE)
    (file : string) (line : Z) (expanded : string) (tr : list event) :
  tr = Manager.Log m time level type file line expanded
  \/ tr = Manager.LogWithFullPath m time level type file line expanded
  \/ (exists w, Singleton.GetInstance w = Some m
                /\ tr = Singleton.GenericLog w time level type file line expanded) ->
  (forall i p lvl msg,
     ListenerLog i p lvl msg ∈ tr ->
     i ∈ Container.listener_ids (m_log m type)
     /\ BitSet32.get (m_listener_ids (m_log m type)) i = true
     /\ m_listeners m !! i = Some p
     /\ Container.IsEnabled (m_log m type) = true
     /\ level_value level <= Manager.GetLogLevel m
     /\ lvl = level)
  /\ (forall i,
        i ∉ Container.listener_ids (m_log m type)
        \/ m_listeners m !! i = None
        \/ Container.IsEnabled (m_log m type) = false
        \/ level_value level > Manager.GetLogLevel m ->
        Trace.emits_to i tr = []).
Proof.
  intros Htr.
  assert (forall i p lvl msg,
     ListenerLog i p lvl msg ∈ tr ->
     i ∈ Container.listener_ids (m_log m type)
     /\ BitSet32.get (m_listener_ids (m_log m type)) i = true
     /\ m_listeners m !! i = Some p
     /\ Container.IsEnabled (m_log m type) = true
     /\ level_value level <= Manager.GetLogLevel m
     /\ lvl = level) as Honly.
  { intros i p lvl msg Hin.
    assert (exists f, ListenerLog i p lvl msg
                        ∈ Manager.LogWithFullPath m time level type f line expanded)
      as [f Hf].
    { destruct Htr as [->|[->|(w & Hw & ->)]]; eauto.
      unfold Singleton.GenericLog in Hin. rewrite Hw in Hin. eauto. }
    apply LogWithFullPath_emit in Hf as (He & Hl & _ & Hd); [|by eexists].
    apply elem_of_dispatch in Hd as (j & q & Heq & Hj & Hq).
    injection Heq as -> -> -> _.
    pose proof Hj as Hj'. apply elem_of_BitSet32_elements in Hj' as [_ Hg].
    done. }
  split; [exact Honly|].
  intros i Hfail. apply elem_of_nil_inv. intros e He.
  apply list_elem_of_filter in He as [Hid Hin].
  destruct e as [| |j p lvl msg]; cbn in Hid; try done.
  injection Hid as ->.
  apply Honly in Hin as (H1 & _ & H3 & H4 & H5 & _).
  destruct Hfail as [?|[?|[?|?]]]; [done|congruence|congruence|lia].
Qed.

(** The theorem at the audio log of the example configuration: the call on
    the console listener. *)
Lemma emit_only_if_subscribed_registered_enabled_passing_witness :
  1 ∈ Container.listener_ids (m_log Example.manager AUDIO)
  /\ m_listeners Example.manager !! 1 = Some 1%nat.
Proof.
  pose proof (emit_only_if_subscribed_registered_enabled_passing
                Example.manager "12:34:567" LWARNING AUDIO
                "/src/dolphin/Source/Core/AudioCommon/audio.cpp" 42
                "buffer underrun" _ (or_introl eq_refl)) as [H _].
  specialize (H 1 1%nat LWARNING
    ("12:34:567 AudioCommon/audio.cpp:42 W[Audio]: buffer underrun"
       +:+ String (ascii_of_nat 10) "")).
  destruct H as (H1 & _ & H3 & _).
  - vm_compute. do 3 right. left.
  - split; assumption.
Defined.

(** The calls on one listener object by a call that passes the filter: one
    for each id of the container's set at which the object is
    registered. *)
Lemma emits_on_passing m time level type file line expanded p :
  Container.IsEnabled (m_log m type) = true ->
  level_value level <= Manager.GetLogLevel m ->
  Container.HasListeners (m_log m type) = true ->
  Trace.emits_on p
    (Manager.LogWithFullPath m time level type file line expanded)
  = map (fun j =>
           ListenerLog j p level
             (Manager.format_line time file line level
                (Manager.GetShortName m type)
                (CharArrayFromFormatV MAX_MSGLEN expanded)))
      (filter (fun j => m_listeners m !! j = Some p)
         (Container.listener_ids (m_log m type))).
Proof.
  intros He Hl Hh. rewrite emits_on_LogWithFullPath, He, Hh.
  assert ((level_value level >? Manager.GetLogLevel m) = false) as ->.
  { rewrite Z.gtb_ltb. apply Z.ltb_ge. lia. }
  cbn [negb orb]. apply emits_on_dispatch.
Qed.

(** A list without repetition that holds [x] has one element exactly when
    it holds nothing else. *)
Lemma NoDup_length_1 {A} (l : list A) (x : A) :
  NoDup l -> x ∈ l ->
  length l = 1%nat <-> forall y, y ∈ l -> y = x.
Proof.
  intros Hnd Hx. split.
  - intros Hlen y Hy. destruct l as [|z [|z' l]]; try done.
    apply list_elem_of_singleton in Hx, Hy. congruence.
  - intros Hall. destruct l as [|z [|z' l]]; [by apply elem_of_nil in Hx|done|].
    exfalso. apply NoDup_cons in Hnd as [Hz _]. apply Hz.
    rewrite (Hall z) by left. rewrite <- (Hall z') at 1 by (right; left).
    left.
Qed.

(** C2, as the code has it: when the container of the log type is enabled,
    the level passes and an identity is subscribed with a listener
    registered at it, one call of the entry point makes exactly one call of
    [Log] through that identity, with the level and the formatted line. The
    listener object gets one call for each subscribed identity at which it
    is registered: exactly one call exactly when it is registered at no
    other subscribed identity. Through [Log] the line has the file path
    after the cut-off point, for a path that reaches the cut-off point.
    Registering, subscribing, enabling and then logging at a passing level
    makes one call through the identity. After [RemoveListener(type, id)]
    a call for this log type makes no call through the identity, while the
    object is still called through every other subscribed identity at
    which it is registered. *)
Theorem one_emit_per_subscribed_listener
    (m : LogManager) (time : string) (level : LOG_LEVELS) (type : LOG_TYPE)
    (file : string) (line : Z) (expanded : string)
    (id : LISTENER) (p : nat) :
  Container.IsEnabled (m_log m type) = true ->
  level_value level <= Manager.GetLogLevel m ->
  Container.subscribed (m_log m type) id = true ->
  m_listeners m !! listener_index id = Some p ->
  let i := listener_index id in
  let msg f :=
    Manager.format_line time f line level (Manager.GetShortName m type)
      (CharArrayFromFormatV MAX_MSGLEN expanded) in
  let tr := Manager.LogWithFullPath m time level type file line expanded in
  let ids_of_p :=
    filter (fun j => m_listeners m !! j = Some p)
      (Container.listener_ids (m_log m type)) in
  Trace.emits_to i tr = [ListenerLog i p level (msg file)]
  /\ Trace.emits_on p tr
     = map (fun j => ListenerLog j p level (msg file)) ids_of_p
  /\ i ∈ ids_of_p
  /\ NoDup ids_of_p
  /\ (length (Trace.emits_on p tr) = 1%nat <->
      forall j, j ∈ Container.listener_ids (m_log m type) ->
                m_listeners m !! j = Some p -> j = i)
  /\ (forall path,
        advance_defined path (m_path_cutoff_point m) ->
        advance path (m_path_cutoff_point m) = file ->
        Manager.Log m time level type path line expanded = tr)
  /\ (forall m0 q,
        let m1 := Manager.SetEnable type true
                    (Manager.AddListener type id
                       (Manager.RegisterListener id (Some q) m0)) in
        level_value level <= Manager.GetLogLevel m1 ->
        length (Trace.emits_to i
                  (Manager.Log m1 time level type file line expanded)) = 1%nat)
  /\ (forall time' level' file' line' expanded',
        let m' := Manager.RemoveListener type id m in
        Trace.emits_to i
          (Manager.Log m' time' level' type file' line' expanded') = []
        /\ Trace.emits_to i
             (Manager.LogWithFullPath m' time' level' type file' line' expanded') = [])
  /\ (forall other,
        other <> id ->
        Container.subscribed (m_log m type) other = true ->
        m_listeners m !! listener_index other = Some p ->
        Trace.emits_to (listener_index other)
          (Manager.LogWithFullPath (Manager.RemoveListener type id m)
             time level type file line expanded)
        = [ListenerLog (listener_index other) p level (msg file)]).
Proof.
  intros He Hl Hs Hp i msg tr ids_of_p.
  assert (Trace.emits_on p tr
          = map (fun j => ListenerLog j p level (msg file)) ids_of_p) as Hon.
  { apply emits_on_passing; [done|done|]. by eapply subscribed_HasListeners. }
  assert (i ∈ ids_of_p) as Hi.
  { apply list_elem_of_filter. split; [done|]. by apply listener_ids_subscribed. }
  assert (NoDup ids_of_p) as Hnd.
  { apply NoDup_filter, NoDup_BitSet32_elements. }
  split; [by apply emits_to_subscribed|].
  split; [exact Hon|]. split; [exact Hi|]. split; [exact Hnd|].
  split; [|split; [|split; [|split]]].
  - rewrite Hon, length_map, (NoDup_length_1 _ i Hnd Hi). split.
    + intros Hall j Hj Hjp. apply Hall. by apply list_elem_of_filter.
    + intros Hall j [Hjp Hj]%list_elem_of_filter. by apply Hall.
  - intros path _ Hpath. unfold Manager.Log. by rewrite Hpath.
  - intros m0 q m1 Hl1. unfold Manager.Log.
    rewrite (emits_to_subscribed m1 _ _ _ _ _ _ id q); [done| |done| | ].
    + subst m1. cbn. by rewrite !m_log_update_same.
    + subst m1. cbn. rewrite !m_log_update_same.
      rewrite subscribed_SetEnable, subscribed_AddListener.
      by rewrite decide_True.
    + subst m1. cbn. apply lookup_insert_eq.
  - intros time' level' file' line' expanded' m'.
    assert (Container.subscribed (m_log m' type) id = false) as Hrem.
    { subst m'. cbn. rewrite m_log_update_same, subscribed_RemoveListener.
      by rewrite decide_True. }
    split; [unfold Manager.Log|]; by apply emits_to_not_subscribed.
  - intros other Hne Hso Hpo.
    rewrite (emits_to_subscribed _ _ _ _ _ _ _ other p).
    + subst msg. unfold Manager.GetShortName. cbn.
      by rewrite m_log_update_same.
    + cbn. by rewrite m_log_update_same.
    + exact Hl.
    + cbn. rewrite m_log_update_same, subscribed_RemoveListener.
      by rewrite decide_False.
    + exact Hpo.
Qed.

(** The theorem at the audio log of the example configuration and its
    console listener, for a source file of the build. *)
Lemma one_emit_per_subscribed_listener_witness :
  advance_defined Example.audio_cpp (m_path_cutoff_point Example.manager)
  /\ Trace.emits_to 1
       (Manager.Log Example.manager "12:34:567" LWARNING AUDIO
          Example.audio_cpp 42 "buffer underrun")
     = [ListenerLog 1 1%nat LWARNING
          ("12:34:567 AudioCommon/audio.cpp:42 W[Audio]: buffer underrun"
             +:+ String (ascii_of_nat 10) "")]
  /\ length (Trace.emits_on 1%nat
               (Manager.Log Example.manager "12:34:567" LWARNING AUDIO
                  Example.audio_cpp 42 "buffer underrun")) = 1%nat.
Proof.
  assert (advance_defined Example.audio_cpp
            (m_path_cutoff_point Example.manager)) as Hdef.
  { vm_compute. lia. }
  pose proof (one_emit_per_subscribed_listener
                Example.manager "12:34:567" LWARNING AUDIO
                "AudioCommon/audio.cpp" 42
                "buffer underrun" CONSOLE_LISTENER 1%nat) as H.
  destruct H as (Hto & _ & _ & _ & Hone & Hlog & _).
  - reflexivity.
  - vm_compute. discriminate.
  - reflexivity.
  - reflexivity.
  - rewrite (Hlog Example.audio_cpp Hdef eq_refl).
    split; [exact Hdef|]. split; [exact Hto|].
    apply Hone. intros j Hj Hp.
    vm_compute in Hj.
    repeat (apply elem_of_cons in Hj as [->|Hj]; [first [reflexivity|discriminate Hp]|]).
    by apply elem_of_nil in Hj.
Defined.

(** C2 as stated fails for a listener registered at two subscribed
    identities: in the example configuration with its console listener
    registered at the id of the log window as well, the audio log is
    enabled, both identities are subscribed and hold the listener and the
    level passes, and one call calls the listener twice; after
    [RemoveListener(AUDIO, LOG_WINDOW_LISTENER)] a call still calls it
    once. *)
Lemma one_emit_per_subscribed_listener_counterexample :
  Container.IsEnabled (m_log Example.shared_manager AUDIO) = true
  /\ level_value LWARNING <= Manager.GetLogLevel Example.shared_manager
  /\ Container.subscribed (m_log Example.shared_manager AUDIO)
       CONSOLE_LISTENER = true
  /\ Container.subscribed (m_log Example.shared_manager AUDIO)
       LOG_WINDOW_LISTENER = true
  /\ m_listeners Example.shared_manager !! listener_index CONSOLE_LISTENER
     = Some 1%nat
  /\ m_listeners Example.shared_manager !! listener_index LOG_WINDOW_LISTENER
     = Some 1%nat
  /\ length (Trace.emits_on 1%nat
               (Manager.Log Example.shared_manager "12:34:567" LWARNING AUDIO
                  Example.audio_cpp 42 "buffer underrun")) = 2%nat
  /\ length (Trace.emits_on 1%nat
               (Manager.Log
                  (Manager.RemoveListener AUDIO LOG_WINDOW_LISTENER
                     Example.shared_manager)
                  "12:34:567" LWARNING AUDIO
                  Example.audio_cpp 42 "buffer underrun")) = 1%nat.
Proof.
  repeat apply conj; try reflexivity.
  vm_compute. discriminate.
Qed.

(** C3: when the container of the log type is disabled, or the level is
    strictly less severe than the level of the manager (a larger number), or
    the listener set of the container is empty, the call returns without
    any formatting, without reading the time and without calling a
    listener: it makes no call at all. In particular a disabled log type
    calls no listener, at any level. *)
Theorem filtered_call_makes_no_call
    (m : LogManager) (time : string) (level : LOG_LEVELS) (type : LOG_TYPE)
    (file : string) (line : Z) (expanded : string) :
  Container.IsEnabled (m_log m type) = false
  \/ level_value level > Manager.GetLogLevel m
  \/ (BitSet32.in_range (m_listener_ids (m_log m type))
      /\ Container.listener_ids (m_log m type) = []) ->
  Manager.LogWithFullPath m time level type file line expanded = []
  /\ Manager.Log m time level type file line expanded = []
  /\ (forall w, Singleton.GetInstance w = Some m ->
        Singleton.GenericLog w time level type file line expanded = []).
Proof.
  intros H.
  assert (Container.IsEnabled (m_log m type) = false
          \/ level_value level > Manager.GetLogLevel m
          \/ Container.HasListeners (m_log m type) = false) as H'.
  { destruct H as [?|[?|[Hr Hn]]]; auto.
    right. right. by apply elements_nil_to_bool. }
  repeat apply conj.
  - by apply LogWithFullPath_filtered.
  - unfold Manager.Log. by apply LogWithFullPath_filtered.
  - intros w Hw. unfold Singleton.GenericLog. rewrite Hw.
    unfold Manager.Log. by apply LogWithFullPath_filtered.
Qed.

(** The theorem at a log type the example configuration leaves disabled. *)
Lemma filtered_call_makes_no_call_witness :
  Manager.Log Example.manager "12:34:567" LNOTICE VIDEO
    "/src/dolphin/Source/Core/VideoCommon/video.cpp" 7 "frame" = [].
Proof.
  pose proof (filtered_call_makes_no_call Example.manager "12:34:567" LNOTICE
                VIDEO "/src/dolphin/Source/Core/VideoCommon/video.cpp" 7 "frame")
    as H.
  destruct H as (_ & H & _); [left; reflexivity|exact H].
Defined.

(** ** The emitted line *)

Section Line_facts.

Lemma substring_0_all n s :
  (String.length s <= n)%nat -> substring 0 n s = s.
Proof.
  revert n. induction s as [|a s IH]; intros n Hn.
  - by destruct n.
  - destruct n as [|n]; cbn in *; [lia|]. rewrite IH by lia. done.
Qed.

Lemma substring_0_length n s :
  (String.length (substring 0 n s) <= n)%nat.
Proof.
  revert s. induction n as [|n IH]; intros s.
  - by destruct s.
  - destruct s as [|a s]; cbn; [lia|]. specialize (IH s). lia.
Qed.

Lemma take_all n s :
  (String.length s <= n)%nat -> FileListener.take n s = s.
Proof. apply substring_0_all. Qed.

Lemma take_length n s : (String.length (FileListener.take n s) <= n)%nat.
Proof. apply substring_0_length. Qed.

Lemma format_u_nonneg line :
  0 <= line < 2 ^ 32 -> format_u line = pretty (Z.to_N line).
Proof. intros H. unfold format_u. by rewrite Z.mod_small. Qed.

(** A pointer moved within the string leaves behind a prefix of as many
    characters. *)
Lemma advance_prefix file n :
  advance_defined file n ->
  file = FileListener.take n file +:+ advance file n
  /\ String.length (FileListener.take n file) = n.
Proof.
  unfold advance_defined, advance, FileListener.take, FileListener.drop.
  revert file. induction n as [|n IH]; intros file Hn.
  - rewrite Nat.sub_0_r, (substring_0_all (String.length file) file) by done.
    by destruct file.
  - destruct file as [|a file]; cbn in Hn; [lia|].
    destruct (IH file) as [Hfile Hlen]; [lia|].
    change (String a file
            = String a (substring 0 n file
                          +:+ substring n (String.length file - n) file)
            /\ S (String.length (substring 0 n file)) = S n).
    by rewrite <- Hfile, Hlen.
Qed.

End Line_facts.

(** C4, as the code has it: every line delivered to a listener is
    "<timestamp> <file>:<line> <levelChar>[<shortName>]: <message>\n", with
    the timestamp of the timer, the file path, the line number in decimal
    (as [%u] prints it), the character of the level, the short name of the
    container and a newline at the end. Through [Log] the file path is the
    path of the call without its first [m_path_cutoff_point] characters,
    for a path that reaches the cut-off point; through [LogWithFullPath] it
    is the path of the call. The message is the caller's formatted text cut
    to its first [MAX_MSGLEN - 1] characters, the size of the buffer it is
    formatted into; a text shorter than [MAX_MSGLEN] is there whole. *)
Theorem delivered_line_shape
    (m : LogManager) (time : string) (level : LOG_LEVELS) (type : LOG_TYPE)
    (file : string) (line : Z) (expanded : string)
    (i : Z) (p : nat) (lvl : LOG_LEVELS) (msg : string) :
  advance_defined file (m_path_cutoff_point m) ->
  ListenerLog i p lvl msg ∈ Manager.Log m time level type file line expanded ->
  let message := FileListener.take (MAX_MSGLEN - 1) expanded in
  let shape path :=
    time +:+ " " +:+ path +:+ ":"
      +:+ format_u line +:+ " " +:+ String (LOG_LEVEL_TO_CHAR level) ""
      +:+ "[" +:+ Manager.GetShortName m type +:+ "]: "
      +:+ message +:+ String (ascii_of_nat 10) "" in
  msg = shape (advance file (m_path_cutoff_point m))
  /\ lvl = level
  /\ (exists root,
        file = root +:+ advance file (m_path_cutoff_point m)
        /\ String.length root = m_path_cutoff_point m)
  /\ (String.length message <= MAX_MSGLEN - 1)%nat
  /\ ((String.length expanded < MAX_MSGLEN)%nat -> message = expanded)
  /\ (0 <= line < 2 ^ 32 -> format_u line = pretty (Z.to_N line))
  /\ (forall path i' p' lvl' msg',
        ListenerLog i' p' lvl' msg'
          ∈ Manager.LogWithFullPath m time level type path line expanded ->
        msg' = shape path /\ lvl' = level).
Proof.
  intros Hdef Hin message shape. subst message shape. cbv beta.
  assert (forall path i' p' lvl' msg',
            ListenerLog i' p' lvl' msg'
              ∈ Manager.LogWithFullPath m time level type path line expanded ->
            msg' = Manager.format_line time path line level
                     (Manager.GetShortName m type)
                     (CharArrayFromFormatV MAX_MSGLEN expanded)
            /\ lvl' = level) as Hshape.
  { intros path i' p' lvl' msg' Hin'.
    apply LogWithFullPath_emit in Hin' as (_ & _ & _ & Hd); [|by eexists].
    apply elem_of_dispatch in Hd as (j & q & Heq & _ & _).
    by injection Heq as -> -> -> ->. }
  unfold Manager.Log in Hin. apply Hshape in Hin as [-> ->].
  split; [reflexivity|]. split; [reflexivity|].
  split; [|split; [|split; [|split]]].
  - destruct (advance_prefix file _ Hdef) as [Hfile Hlen]. by eexists.
  - apply take_length.
  - intros Hlen. apply take_all. unfold MAX_MSGLEN in *. lia.
  - apply format_u_nonneg.
  - intros path i' p' lvl' msg' Hin'.
    by destruct (Hshape _ _ _ _ _ Hin') as [-> ->].
Qed.

(** The theorem at the call of the example configuration: a source file
    under the "Source/Core/" of the build is logged without the 25
    characters before its own part of the path. *)
Lemma delivered_line_shape_witness :
  advance_defined Example.audio_cpp (m_path_cutoff_point Example.manager)
  /\ ListenerLog 1 1%nat LWARNING
       ("12:34:567 AudioCommon/audio.cpp:42 W[Audio]: buffer underrun"
          +:+ String (ascii_of_nat 10) "")
       ∈ Manager.Log Example.manager "12:34:567" LWARNING AUDIO
           Example.audio_cpp 42 "buffer underrun"
  /\ ("12:34:567 AudioCommon/audio.cpp:42 W[Audio]: buffer underrun"
        +:+ String (ascii_of_nat 10) "")
     = "12:34:567" +:+ " " +:+ "AudioCommon/audio.cpp" +:+ ":" +:+ "42" +:+ " "
         +:+ "W" +:+ "[" +:+ "Audio" +:+ "]: " +:+ "buffer underrun"
         +:+ String (ascii_of_nat 10) "".
Proof.
  assert (advance_defined Example.audio_cpp
            (m_path_cutoff_point Example.manager)) as Hdef.
  { vm_compute. lia. }
  assert (ListenerLog 1 1%nat LWARNING
            ("12:34:567 AudioCommon/audio.cpp:42 W[Audio]: buffer underrun"
               +:+ String (ascii_of_nat 10) "")
            ∈ Manager.Log Example.manager "12:34:567" LWARNING AUDIO
                Example.audio_cpp 42 "buffer underrun") as Hin.
  { vm_compute. do 3 right. left. }
  destruct (delivered_line_shape _ _ _ _ _ _ _ _ _ _ _ Hdef Hin) as (H & _).
  split; [exact Hdef|]. split; [exact Hin|]. exact H.
Defined.

(** C4 as stated fails at a text of [MAX_MSGLEN] characters: the console
    listener gets a line, and it is not the line with the whole text. *)
Lemma delivered_line_shape_counterexample :
  exists msg,
    ListenerLog 1 1%nat LNOTICE msg
      ∈ Manager.Log Example.manager "12:34:567" LNOTICE AUDIO
          "/src/dolphin/Source/Core/AudioCommon/audio.cpp" 42 Example.long_text
    /\ msg <> "12:34:567" +:+ " " +:+ "AudioCommon/audio.cpp" +:+ ":" +:+ "42"
                +:+ " " +:+ "N" +:+ "[" +:+ "Audio" +:+ "]: "
                +:+ Example.long_text +:+ String (ascii_of_nat 10) "".
Proof.
  eexists. split.
  - vm_compute. do 3 right. left.
  - intros H. apply (f_equal String.length) in H. vm_compute in H.
    discriminate H.
Qed.

(** ** The file listener *)

Section FileListener_facts.

Import FileListener.

Lemma Log_guard io l level msg :
  IsEnabled l = false \/ IsValid l = false -> Log io l level msg = l.
Proof.
  unfold Log. intros [-> | ->]; [done|]. by rewrite orb_true_r.
Qed.

Lemma Log_writes io l level msg :
  IsEnabled l = true -> IsValid l = true ->
  Log io l level msg = with_logfile l (flush io (insert msg (m_logfile l))).
Proof. unfold Log. by intros -> ->. Qed.

(** An invalid stream stays as it is under every member function. *)
Lemma run_op_invalid l o :
  IsValid l = false ->
  m_logfile (run_op l o) = m_logfile l.
Proof.
  intros Hv. destruct o as [io level msg|enable]; cbn.
  - by rewrite Log_guard by auto.
  - done.
Qed.

Lemma run_ops_invalid ops l :
  IsValid l = false ->
  m_logfile (run_ops l ops) = m_logfile l.
Proof.
  unfold run_ops. revert l. induction ops as [|o ops IH]; intros l Hv; [done|].
  cbn. rewrite IH.
  - by apply run_op_invalid.
  - unfold IsValid. by rewrite run_op_invalid.
Qed.

(** Between calls a good stream has nothing pending: every call that
    inserts also flushes. *)
Lemma run_ops_pending opened ops :
  let l := run_ops (new opened) ops in
  IsValid l = true -> os_pending (m_logfile l) = "".
Proof.
  unfold run_ops.
  assert (forall l, (IsValid l = true -> os_pending (m_logfile l) = "") ->
            IsValid (foldl run_op l ops) = true ->
            os_pending (m_logfile (foldl run_op l ops)) = "") as H.
  { induction ops as [|o ops IH]; intros l Hl; [done|].
    cbn. apply IH. intros Hv.
    destruct o as [io level msg|enable]; cbn in *; [|by apply Hl].
    unfold Log in *.
    destruct (negb (IsEnabled l) || negb (IsValid l)) eqn:E; [by apply Hl|].
    apply orb_false_iff in E as [_ E]. apply negb_false_iff in E.
    unfold IsValid in *. cbn in *. unfold flush, insert in *.
    rewrite E in *. cbn in *. destruct io; cbn in *; done. }
  cbv zeta. apply H. by destruct opened.
Qed.

End FileListener_facts.

(** C5: [Log(level, msg)] of a file listener changes nothing (neither the
    file nor the listener) when the listener is not enabled or its stream
    is not good. A listener whose file could not be opened is constructed
    all the same, its stream is not good, and it stays so: after any calls
    of its member functions the stream is as the constructor left it, and
    every call of [Log] changes nothing. Otherwise [Log] inserts the message
    as it is and flushes: when the device takes the flush, the file ends
    with the message and nothing is left pending. *)
Theorem file_listener_log (l : FileLogListener) (io : io_result)
    (level : LOG_LEVELS) (msg : string) :
  (FileListener.IsEnabled l = false \/ FileListener.IsValid l = false ->
     FileListener.Log io l level msg = l)
  /\ (forall ops,
        let l' := FileListener.run_ops (FileListener.new None) ops in
        FileListener.IsValid l' = false
        /\ m_logfile l' = m_logfile (FileListener.new None)
        /\ FileListener.Log io l' level msg = l')
  /\ (FileListener.IsEnabled l = true -> FileListener.IsValid l = true ->
        FileListener.Log io l level msg
          = FileListener.with_logfile l
              (FileListener.flush io (FileListener.insert msg (m_logfile l)))
        /\ (io = IoOk ->
              m_logfile (FileListener.Log io l level msg)
              = mkOfstream true ""
                  (os_file (m_logfile l) +:+ (os_pending (m_logfile l) +:+ msg))))
  /\ (forall opened ops,
        let l' := FileListener.run_ops (FileListener.new opened) ops in
        FileListener.IsEnabled l' = true -> FileListener.IsValid l' = true ->
        m_logfile (FileListener.Log IoOk l' level msg)
        = mkOfstream true "" (os_file (m_logfile l') +:+ msg)).
Proof.
  repeat apply conj.
  - apply Log_guard.
  - intros ops l'.
    assert (m_logfile l' = m_logfile (FileListener.new None)) as Hf.
    { by apply run_ops_invalid. }
    assert (FileListener.IsValid l' = false) as Hv.
    { unfold FileListener.IsValid. by rewrite Hf. }
    repeat split; [done..|]. apply Log_guard. by right.
  - intros He Hv. split; [by apply Log_writes|].
    intros ->. rewrite Log_writes by done.
    unfold FileListener.IsValid in Hv. cbn.
    unfold FileListener.flush, FileListener.insert. rewrite Hv. done.
  - intros opened ops l' He Hv.
    pose proof (run_ops_pending opened ops Hv) as Hp. fold l' in Hp.
    rewrite Log_writes by done.
    unfold FileListener.IsValid in Hv. cbn.
    unfold FileListener.flush, FileListener.insert. rewrite Hv. cbn.
    by rewrite Hp.
Qed.

(** The theorem at a disabled listener, at a listener whose file did not
    open, and at a listener with an open file. *)
Lemma file_listener_log_witness :
  FileListener.Log IoOk (FileListener.SetEnable false (FileListener.new (Some "old")))
    LINFO "line" = FileListener.SetEnable false (FileListener.new (Some "old"))
  /\ FileListener.Log IoOk (FileListener.new None) LINFO "line"
     = FileListener.new None
  /\ m_logfile (FileListener.Log IoOk (FileListener.new (Some "old")) LINFO "line")
     = mkOfstream true "" "oldline".
Proof.
  repeat apply conj.
  - pose proof (file_listener_log
                  (FileListener.SetEnable false (FileListener.new (Some "old")))
                  IoOk LINFO "line") as (H & _).
    apply H. left. reflexivity.
  - pose proof (file_listener_log (FileListener.new None) IoOk LINFO "line")
      as (H & _).
    apply H. right. reflexivity.
  - pose proof (file_listener_log (FileListener.new (Some "old")) IoOk LINFO "line")
      as (_ & _ & H & _).
    destruct H as [_ H]; [reflexivity..|].
    exact (H eq_refl).
Defined.

(** ** The constructor *)

Section Constructor_facts.

Import Manager.

Lemma NoDup_all_log_types : NoDup all_log_types.
Proof. apply (bool_decide_unpack _). vm_compute. exact I. Qed.

Lemma elem_of_all_log_types t : t ∈ all_log_types.
Proof. apply (bool_decide_unpack _). destruct t; vm_compute; exact I. Qed.

(** The loop over the containers applies its body once to each. *)
Lemma foldl_update_log g l log t :
  NoDup l ->
  foldl (fun log t => update_log log t g) log l t =
    if decide (t ∈ l) then g (log t) else log t.
Proof.
  intros Hnd. revert log. induction Hnd as [|x l Hx Hnd IH]; intros log.
  - cbn. by rewrite decide_False by apply not_elem_of_nil.
  - cbn [foldl]. rewrite IH. destruct (decide (t = x)) as [->|Hne].
    + rewrite (decide_False (P := x ∈ l)) by done.
      rewrite decide_True by left. apply m_log_update_same.
    + rewrite m_log_update_other by done.
      destruct (decide (t ∈ l)) as [Hin|Hnin].
      * rewrite decide_True by (by right). done.
      * rewrite decide_False; [done|]. rewrite elem_of_cons. tauto.
Qed.

Variables (env : Env) (h : gmap nat object).

Let logs := IniFile.GetOrCreateSection (logger_config env) "Logs".
Let options := IniFile.GetOrCreateSection (logger_config env) "Options".

Lemma new_level :
  m_level (new env h).1 =
    clamp_verbosity (MAX_LOGLEVEL env) (IniFile.GetInt options "Verbosity" 0).
Proof. done. Qed.

Lemma new_log t :
  m_log (new env h).1 t =
    configure_container logs
      (IniFile.GetBool options "WriteToFile" false)
      (IniFile.GetBool options "WriteToConsole" true)
      (IniFile.GetBool options "WriteToWindow" true)
      (create_container t).
Proof.
  unfold new, heap_new. cbv beta iota zeta delta [fst].
  cbn [with_log m_log SetLogLevel RegisterListener].
  rewrite foldl_update_log by apply NoDup_all_log_types.
  by rewrite decide_True by apply elem_of_all_log_types.
Qed.

Lemma new_listeners :
  let f := fresh (dom h) in
  let file_listener := ObjFileLogListener (FileListener.new (main_log env)) in
  let c := fresh (dom (<[f:=file_listener]> h)) in
  m_listeners (new env h).1
    = <[listener_index CONSOLE_LISTENER := c]>
        (<[listener_index FILE_LISTENER := f]> ∅)
  /\ (new env h).2 = <[c:=ObjConsoleListener]> (<[f:=file_listener]> h)
  /\ h !! f = None /\ h !! c = None /\ f <> c.
Proof.
  intros f file_listener c. repeat apply conj; try done.
  - apply not_elem_of_dom, is_fresh.
  - assert (<[f:=file_listener]> h !! c = None) as Hc.
    { apply not_elem_of_dom, is_fresh. }
    apply lookup_insert_None in Hc. tauto.
  - assert (<[f:=file_listener]> h !! c = None) as Hc.
    { apply not_elem_of_dom, is_fresh. }
    apply lookup_insert_None in Hc. tauto.
Qed.

Lemma new_path_cutoff_point :
  m_path_cutoff_point (new env h).1
    = DeterminePathCutOffPoint (DIR_SEP env) (FILE_macro env).
Proof. done. Qed.

End Constructor_facts.

Section Configure_facts.

Import Manager.

Lemma subscribed_new short_name full_name enable id :
  Container.subscribed (Container.new short_name full_name enable) id = false.
Proof. by destruct id. Qed.

Lemma create_container_built t : Container.built (create_container t).
Proof. destruct t; apply Container.built_new. Qed.

Lemma create_container_not_subscribed t id :
  Container.subscribed (create_container t) id = false.
Proof. destruct t; apply subscribed_new. Qed.

(** What the body of the loop leaves in a container. *)
Lemma configure_container_spec logs write_file write_console write_window c :
  let enable := IniFile.GetBool logs (Container.GetShortName c) false in
  let c' := configure_container logs write_file write_console write_window c in
  Container.IsEnabled c' = enable
  /\ Container.GetShortName c' = Container.GetShortName c
  /\ Container.GetFullName c' = Container.GetFullName c
  /\ (forall id,
        Container.subscribed c' id =
          Container.subscribed c id
          || enable && match id with
                       | FILE_LISTENER => write_file
                       | CONSOLE_LISTENER => write_console
                       | LOG_WINDOW_LISTENER => write_window
                       end)
  /\ (Container.built c -> Container.built c').
Proof.
  intros enable c'. subst c'. unfold configure_container. fold enable.
  destruct enable, write_file, write_console, write_window; cbn [andb];
    (repeat apply conj; [done..| |eauto using Container.built]);
    intros id;
    rewrite ?subscribed_AddListener, ?subscribed_SetEnable;
    destruct id; repeat case_decide; try done;
    by destruct (Container.subscribed c _).
Qed.

End Configure_facts.

(** C6: the constructor always builds a manager, and its level is the
    configured verbosity clamped into the valid levels: never below the
    most severe level, never above [MAX_LOGLEVEL], the verbosity itself
    when it was valid. A missing key takes its default: without
    "Verbosity" the level is the most severe one; without "WriteToFile" no
    container is subscribed to the file listener; without "WriteToConsole"
    or "WriteToWindow" exactly the enabled containers are subscribed to the
    console or the window listener. *)
Theorem verbosity_clamped_and_defaults (env : Env) (h : gmap nat object) :
  let m := (Manager.new env h).1 in
  let options := IniFile.GetOrCreateSection (logger_config env) "Options" in
  let verbosity := IniFile.GetInt options "Verbosity" 0 in
  let lowest := level_value LNOTICE in
  let highest := level_value (MAX_LOGLEVEL env) in
  lowest <= Manager.GetLogLevel m <= highest
  /\ Manager.GetLogLevel m = Z.min highest (Z.max lowest verbosity)
  /\ (verbosity < lowest -> Manager.GetLogLevel m = lowest)
  /\ (verbosity > highest -> Manager.GetLogLevel m = highest)
  /\ (lowest <= verbosity <= highest -> Manager.GetLogLevel m = verbosity)
  /\ (options !! "Verbosity" = None -> Manager.GetLogLevel m = lowest)
  /\ (forall t,
        let enabled := Container.IsEnabled (m_log m t) in
        (options !! "WriteToFile" = None ->
           Container.subscribed (m_log m t) FILE_LISTENER = false)
        /\ (options !! "WriteToConsole" = None ->
              Container.subscribed (m_log m t) CONSOLE_LISTENER = enabled)
        /\ (options !! "WriteToWindow" = None ->
              Container.subscribed (m_log m t) LOG_WINDOW_LISTENER = enabled)).
Proof.
  intros m options verbosity lowest highest.
  assert (Manager.GetLogLevel m
          = Manager.clamp_verbosity (MAX_LOGLEVEL env) verbosity) as Hm.
  { apply new_level. }
  assert (lowest <= highest) as Hle.
  { subst lowest highest. destruct (MAX_LOGLEVEL env); cbn; lia. }
  assert (Manager.GetLogLevel m = Z.min highest (Z.max lowest verbosity)) as Hc.
  { rewrite Hm. unfold Manager.clamp_verbosity. fold highest.
    change (level_value LNOTICE) with 1 in *.
    destruct (Z.ltb_spec verbosity 1);
      destruct (Z.gtb_spec 1 highest); destruct (Z.gtb_spec verbosity highest);
      lia. }
  repeat apply conj; try lia.
  - intros Hnone. rewrite Hc. subst verbosity. unfold IniFile.GetInt.
    rewrite Hnone. change (level_value LNOTICE) with 1 in *. lia.
  - intros t enabled. subst enabled m. rewrite new_log. fold options.
    destruct (configure_container_spec
                (IniFile.GetOrCreateSection (logger_config env) "Logs")
                (IniFile.GetBool options "WriteToFile" false)
                (IniFile.GetBool options "WriteToConsole" true)
                (IniFile.GetBool options "WriteToWindow" true)
                (Manager.create_container t)) as (He & _ & _ & Hs & _).
    rewrite !Hs, He, !create_container_not_subscribed.
    repeat apply conj; intros Hnone;
      unfold IniFile.GetBool; rewrite Hnone; cbn [orb];
      [apply andb_false_r|apply andb_true_r|apply andb_true_r].
Qed.

(** The theorem without a configuration file: the level is the most severe
    one and no container is subscribed to the file listener. *)
Lemma verbosity_clamped_and_defaults_witness :
  Manager.GetLogLevel (Manager.new Example.bare_env ∅).1 = level_value LNOTICE
  /\ Container.subscribed (m_log (Manager.new Example.bare_env ∅).1 AUDIO)
       FILE_LISTENER = false.
Proof.
  pose proof (verbosity_clamped_and_defaults Example.bare_env ∅)
    as (_ & _ & _ & _ & _ & Hv & Hw).
  split.
  - apply Hv. reflexivity.
  - destruct (Hw AUDIO) as (Hf & _). apply Hf. reflexivity.
Defined.

Section Wiring_facts.

Import Manager Trace.

Lemma append_assoc (s1 s2 s3 : string) :
  (s1 +:+ s2) +:+ s3 = s1 +:+ (s2 +:+ s3).
Proof.
  induction s1 as [|a s1 IH]; [done|].
  change (String a ((s1 +:+ s2) +:+ s3) = String a (s1 +:+ (s2 +:+ s3))).
  by rewrite IH.
Qed.

(** The line holds the short name in brackets and the message. *)
Lemma format_line_contains time file line level short_name temp :
  contains (format_line time file line level short_name temp)
    ("[" +:+ short_name +:+ "]")
  /\ contains (format_line time file line level short_name temp) temp.
Proof.
  unfold contains, format_line. split.
  - exists (time +:+ " " +:+ file +:+ ":" +:+ format_u line +:+ " "
              +:+ String (LOG_LEVEL_TO_CHAR level) ""),
           (": " +:+ temp +:+ String (ascii_of_nat 10) "").
    rewrite !append_assoc. done.
  - exists (time +:+ " " +:+ file +:+ ":" +:+ format_u line +:+ " "
              +:+ String (LOG_LEVEL_TO_CHAR level) ("[" +:+ short_name +:+ "]: ")),
           (String (ascii_of_nat 10) "").
    rewrite !append_assoc.
    change (String (LOG_LEVEL_TO_CHAR level) ("[" +:+ short_name +:+ "]: ") +:+ temp +:+ String (ascii_of_nat 10) "")
      with (String (LOG_LEVEL_TO_CHAR level) (("[" +:+ short_name +:+ "]: ") +:+ temp +:+ String (ascii_of_nat 10) "")).
    rewrite !append_assoc. done.
Qed.

(** Every call of the fan-out is a call on a listener. *)
Lemma emits_dispatch listeners level msg ids :
  emits (dispatch listeners level msg ids) = dispatch listeners level msg ids.
Proof.
  unfold emits. induction ids as [|i ids IH]; [done|].
  rewrite dispatch_cons, filter_app, IH. f_equal.
  destruct (listeners !! i); [|done].
  by rewrite filter_cons_True by (by eexists).
Qed.

Lemma emits_LogWithFullPath m time level type file line expanded :
  emits (LogWithFullPath m time level type file line expanded) =
    if negb (Container.IsEnabled (m_log m type))
       || (level_value level >? GetLogLevel m)
       || negb (Container.HasListeners (m_log m type))
    then []
    else dispatch (m_listeners m) level
           (format_line time file line level
              (Container.GetShortName (m_log m type))
              (CharArrayFromFormatV MAX_MSGLEN expanded))
           (Container.listener_ids (m_log m type)).
Proof.
  unfold LogWithFullPath.
  destruct (negb _ || _ || negb _); [done|].
  unfold emits at 1. rewrite filter_app.
  rewrite !filter_cons_False by (cbn; by intros [? ?]).
  apply emits_dispatch.
Qed.

(** In a container the program builds, the iteration visits listener
    identities only. *)
Lemma listener_ids_listener c i :
  Container.built c -> i ∈ Container.listener_ids c ->
  exists id, i = listener_index id /\ Container.subscribed c id = true.
Proof.
  intros Hb Hi. apply elem_of_BitSet32_elements in Hi as [Hr Hg].
  rewrite get_testbit in Hg by done.
  destruct (built_listener_bits c Hb) as [_ Hhigh].
  destruct (Z.lt_ge_cases i NUMBER_OF_LISTENERS) as [Hlt|Hge].
  - destruct (listener_of_index i) as [id <-]; [lia|].
    exists id. by rewrite subscribed_testbit.
  - rewrite Hhigh in Hg by done. done.
Qed.

Lemma listener_ids_nil c :
  Container.built c -> (forall id, Container.subscribed c id = false) ->
  Container.listener_ids c = [] /\ Container.HasListeners c = false.
Proof.
  intros Hb Hnone. split.
  - apply elem_of_nil_inv. intros i Hi.
    apply listener_ids_listener in Hi as (id & _ & Hs); [|done].
    by rewrite Hnone in Hs.
  - destruct (Container.HasListeners c) eqn:E; [|done].
    apply HasListeners_subscribed in E as [id Hs]; [|done].
    by rewrite Hnone in Hs.
Qed.

(** No call when no id of the set has a listener in the table. *)
Lemma dispatch_none listeners level msg ids :
  (forall i, i ∈ ids -> listeners !! i = None) ->
  dispatch listeners level msg ids = [].
Proof.
  induction ids as [|j ids IH]; intros Hnone; [done|].
  rewrite dispatch_cons, Hnone by left. cbn [app].
  apply IH. intros i Hi. apply Hnone. by right.
Qed.

(** One call when one id of the set has a listener in the table. *)
Lemma dispatch_single listeners level msg ids k p :
  NoDup ids -> k ∈ ids -> listeners !! k = Some p ->
  (forall i, i ∈ ids -> is_Some (listeners !! i) -> i = k) ->
  dispatch listeners level msg ids = [ListenerLog k p level msg].
Proof.
  induction 1 as [|j ids Hj Hnd IH]; intros Hk Hp Honly.
  - by apply elem_of_nil in Hk.
  - rewrite dispatch_cons. destruct (decide (j = k)) as [->|Hne].
    + rewrite Hp. cbn [app]. f_equal. apply dispatch_none.
      intros i Hi. destruct (listeners !! i) eqn:E; [|done].
      exfalso. apply Hj. rewrite <- (Honly i); [done|by right|by eexists].
    + destruct (listeners !! j) eqn:E.
      { exfalso. apply Hne, Honly; [left|by eexists]. }
      cbn [app]. apply IH; [|done|].
      * apply elem_of_cons in Hk as [|]; [congruence|done].
      * intros i Hi. apply Honly. by right.
Qed.

Lemma Init_eq env w :
  Singleton.Init env w =
    {| s_log_manager := Some (new env (heap w)).1;
       heap := (new env (heap w)).2 |}.
Proof. unfold Singleton.Init. by destruct (new env (heap w)). Qed.

End Wiring_facts.

(** C8: the constructor sets the enabled flag of every container from the
    boolean under the container's short name in the section "Logs" (false
    when the key is missing), and subscribes the container to the file, the
    console and the window listener exactly when it is enabled and
    "WriteToFile", "WriteToConsole" or "WriteToWindow" is true; a container
    that is not enabled is subscribed to nothing. With "Audio" enabled,
    "WriteToConsole" true, "WriteToFile" false and the verbosity Info (a
    level the build allows), a warning logged to the audio log makes one
    call on the console listener and none on the file listener, and the
    line holds "[Audio]" and the message. *)
Theorem constructor_wires_containers (env : Env) (w : World) (t : LOG_TYPE) :
  let m := (Manager.new env (heap w)).1 in
  let logs := IniFile.GetOrCreateSection (logger_config env) "Logs" in
  let options := IniFile.GetOrCreateSection (logger_config env) "Options" in
  let short_name := Container.GetShortName (Manager.create_container t) in
  let enable := IniFile.GetBool logs short_name false in
  Container.IsEnabled (m_log m t) = enable
  /\ Manager.GetShortName m t = short_name
  /\ (logs !! short_name = None -> Container.IsEnabled (m_log m t) = false)
  /\ Container.subscribed (m_log m t) FILE_LISTENER
     = enable && IniFile.GetBool options "WriteToFile" false
  /\ Container.subscribed (m_log m t) CONSOLE_LISTENER
     = enable && IniFile.GetBool options "WriteToConsole" true
  /\ Container.subscribed (m_log m t) LOG_WINDOW_LISTENER
     = enable && IniFile.GetBool options "WriteToWindow" true
  /\ (enable = false ->
        Container.listener_ids (m_log m t) = []
        /\ Container.HasListeners (m_log m t) = false)
  /\ (logs !! "Audio" = Some (IniBool true) ->
      options !! "WriteToConsole" = Some (IniBool true) ->
      options !! "WriteToFile" = Some (IniBool false) ->
      options !! "Verbosity" = Some (IniInt (level_value LINFO)) ->
      level_value LINFO <= level_value (MAX_LOGLEVEL env) ->
      forall time file,
        let w1 := Singleton.Init env w in
        let tr := Singleton.GenericLog w1 time LWARNING AUDIO file 42
                    "buffer underrun" in
        exists console msg,
          Trace.emits tr
            = [ListenerLog (listener_index CONSOLE_LISTENER) console LWARNING msg]
          /\ heap w1 !! console = Some ObjConsoleListener
          /\ Trace.contains msg "[Audio]"
          /\ Trace.contains msg "buffer underrun"
          /\ Trace.emits_to (listener_index FILE_LISTENER) tr = []).
Proof.
  intros m logs options short_name enable.
  assert (forall t', m_log m t' =
            Manager.configure_container logs
              (IniFile.GetBool options "WriteToFile" false)
              (IniFile.GetBool options "WriteToConsole" true)
              (IniFile.GetBool options "WriteToWindow" true)
              (Manager.create_container t')) as Hlog.
  { intros t'. apply new_log. }
  assert (forall t',
    let c' := m_log m t' in
    let e := IniFile.GetBool logs
               (Container.GetShortName (Manager.create_container t')) false in
    Container.IsEnabled c' = e
    /\ Container.GetShortName c'
       = Container.GetShortName (Manager.create_container t')
    /\ (forall id,
          Container.subscribed c' id =
            e && match id with
                 | FILE_LISTENER => IniFile.GetBool options "WriteToFile" false
                 | CONSOLE_LISTENER => IniFile.GetBool options "WriteToConsole" true
                 | LOG_WINDOW_LISTENER => IniFile.GetBool options "WriteToWindow" true
                 end)
    /\ Container.built c') as Hspec.
  { intros t' c' e. subst c'. rewrite Hlog.
    destruct (configure_container_spec logs
                (IniFile.GetBool options "WriteToFile" false)
                (IniFile.GetBool options "WriteToConsole" true)
                (IniFile.GetBool options "WriteToWindow" true)
                (Manager.create_container t')) as (He & Hn & _ & Hs & Hb).
    repeat apply conj; try done.
    - intros id. rewrite Hs, create_container_not_subscribed. done.
    - apply Hb, create_container_built. }
  destruct (Hspec t) as (He & Hn & Hs & Hb).
  repeat apply conj.
  - exact He.
  - exact Hn.
  - intros Hnone. rewrite He. unfold IniFile.GetBool.
    fold short_name. by rewrite Hnone.
  - apply (Hs FILE_LISTENER).
  - apply (Hs CONSOLE_LISTENER).
  - apply (Hs LOG_WINDOW_LISTENER).
  - intros Hoff. apply listener_ids_nil; [done|].
    intros id. rewrite Hs. fold short_name. fold enable. by rewrite Hoff.
  - intros Haudio Hconsole Hfile Hverb Hmax time file w1 tr.
    destruct (Hspec AUDIO) as (Hea & Hna & Hsa & Hba).
    change (Container.GetShortName (Manager.create_container AUDIO))
      with "Audio" in *.
    assert (IniFile.GetBool logs "Audio" false = true) as Hga.
    { unfold IniFile.GetBool. by rewrite Haudio. }
    rewrite Hga in *.
    assert (Container.subscribed (m_log m AUDIO) CONSOLE_LISTENER = true) as Hsc.
    { rewrite Hsa. unfold IniFile.GetBool. by rewrite Hconsole. }
    assert (Container.subscribed (m_log m AUDIO) FILE_LISTENER = false) as Hsf.
    { rewrite Hsa. unfold IniFile.GetBool. by rewrite Hfile. }
    assert (Manager.GetLogLevel m = level_value LINFO) as Hlevel.
    { unfold Manager.GetLogLevel. subst m. rewrite new_level.
      fold options. unfold IniFile.GetInt. rewrite Hverb.
      unfold Manager.clamp_verbosity. cbn in *.
      destruct (Z.gtb_spec 4 (level_value (MAX_LOGLEVEL env))); [lia|done]. }
    destruct (new_listeners env (heap w)) as (Hl & Hh & Hf0 & Hc0 & Hfc).
    fold m in Hl.
    set (f := fresh (dom (heap w))) in *.
    set (c := fresh (dom (<[f:=ObjFileLogListener
                                 (FileListener.new (main_log env))]> (heap w))))
      in *.
    assert (tr = Manager.LogWithFullPath m time LWARNING AUDIO
                   (advance file (m_path_cutoff_point m)) 42 "buffer underrun")
      as Htr.
    { subst tr w1. rewrite Init_eq. done. }
    exists c.
    exists (Manager.format_line time (advance file (m_path_cutoff_point m)) 42
              LWARNING "Audio" "buffer underrun").
    repeat apply conj.
    + rewrite Htr, emits_LogWithFullPath.
      rewrite Hea, (subscribed_HasListeners _ _ Hsc), Hlevel, Hna.
      cbn [negb orb level_value Z.gtb Z.compare Pos.compare Pos.compare_cont].
      change (CharArrayFromFormatV MAX_MSGLEN "buffer underrun")
        with "buffer underrun".
      apply dispatch_single.
      * apply NoDup_BitSet32_elements.
      * by apply listener_ids_subscribed.
      * rewrite Hl. apply lookup_insert_eq.
      * intros i Hi [q Hq].
        apply listener_ids_listener in Hi as (id & -> & Hid); [|done].
        destruct id; [congruence|done|].
        rewrite Hl in Hq. cbn in Hq.
        rewrite !lookup_insert_ne, lookup_empty in Hq by done. done.
    + subst w1. rewrite Init_eq. cbn [heap]. rewrite Hh.
      apply lookup_insert_eq.
    + apply (format_line_contains time _ 42 LWARNING "Audio" "buffer underrun").
    + apply (format_line_contains time _ 42 LWARNING "Audio" "buffer underrun").
    + rewrite Htr. by apply emits_to_not_subscribed.
Qed.

(** The theorem at the example configuration, from an empty heap. *)
Lemma constructor_wires_containers_witness :
  let tr := Singleton.GenericLog (Singleton.Init Example.env Example.empty_world)
              "12:34:567" LWARNING AUDIO Example.audio_cpp 42 "buffer underrun" in
  exists console msg,
    Trace.emits tr = [ListenerLog 1 console LWARNING msg]
    /\ Trace.contains msg "[Audio]"
    /\ Trace.contains msg "buffer underrun"
    /\ Trace.emits_to 0 tr = [].
Proof.
  intros tr.
  pose proof (constructor_wires_containers Example.env Example.empty_world AUDIO)
    as H.
  cbv zeta in H. destruct H as (_ & _ & _ & _ & _ & _ & _ & H).
  destruct (H eq_refl eq_refl eq_refl eq_refl
              ltac:(vm_compute; discriminate) "12:34:567" Example.audio_cpp)
    as (console & msg & H1 & _ & H3 & H4 & H5).
  exists console, msg. repeat split; assumption.
Defined.

(** ** The process-wide instance *)

(** C7: [Init()] followed at once by [Shutdown()] deletes the file and the
    console listener that [Init()] created, and nothing else: the heap is
    as before, and no instance is left. The log window is never deleted:
    when the GUI registers its window after [Init()], the window is still
    there after [Shutdown()], while the file and the console listener are
    gone. A call of [GenericLog] while there is no instance, before
    [Init()] or after [Shutdown()], makes no call at all. *)
Theorem init_shutdown_and_log_without_instance
    (env : Env) (w : World) (time : string) (level : LOG_LEVELS)
    (type : LOG_TYPE) (file : string) (line : Z) (expanded : string) :
  let w1 := Singleton.Init env w in
  let w2 := Singleton.Shutdown w1 in
  (exists m f c,
      Singleton.GetInstance w1 = Some m
      /\ m_listeners m !! listener_index FILE_LISTENER = Some f
      /\ m_listeners m !! listener_index CONSOLE_LISTENER = Some c
      /\ m_listeners m !! listener_index LOG_WINDOW_LISTENER = None
      /\ heap w !! f = None /\ heap w !! c = None
      /\ heap w1 !! f
         = Some (ObjFileLogListener (FileListener.new (main_log env)))
      /\ heap w1 !! c = Some ObjConsoleListener
      /\ heap w2 !! f = None /\ heap w2 !! c = None)
  /\ Singleton.GetInstance w2 = None
  /\ heap w2 = heap w
  /\ Singleton.GenericLog w2 time level type file line expanded = []
  /\ (Singleton.GetInstance w = None ->
        Singleton.GenericLog w time level type file line expanded = [])
  /\ (forall window o,
        heap w !! window = Some o ->
        let w3 := Singleton.Shutdown
                    (Singleton.on_instance
                       (Manager.RegisterListener LOG_WINDOW_LISTENER (Some window))
                       w1) in
        heap w3 !! window = Some o /\ heap w3 = heap w
        /\ Singleton.GetInstance w3 = None).
Proof.
  intros w1 w2.
  destruct (new_listeners env (heap w)) as (Hl & Hh & Hf0 & Hc0 & Hfc).
  set (f := fresh (dom (heap w))) in *.
  set (file_listener := ObjFileLogListener (FileListener.new (main_log env))) in *.
  set (c := fresh (dom (<[f:=file_listener]> (heap w)))) in *.
  assert (w1 = {| s_log_manager := Some (Manager.new env (heap w)).1;
                  heap := (Manager.new env (heap w)).2 |}) as Hw1.
  { apply Init_eq. }
  assert (heap w2 = heap w) as Hw2.
  { subst w2. rewrite Hw1. unfold Singleton.Shutdown, Manager.destroy.
    cbn [s_log_manager heap]. rewrite Hl, Hh.
    rewrite lookup_insert_eq, lookup_insert_ne, lookup_insert_eq by done.
    cbn [heap_delete].
    rewrite delete_insert_eq, delete_insert_ne by done.
    rewrite (delete_id _ c) by done.
    by apply delete_insert_id. }
  repeat apply conj.
  - exists (Manager.new env (heap w)).1, f, c. rewrite Hw2, Hw1.
    cbn [Singleton.GetInstance s_log_manager heap]. rewrite Hl, Hh.
    repeat apply conj; try done.
    + by rewrite lookup_insert_ne, lookup_insert_eq by done.
    + apply lookup_insert_eq.
  - done.
  - exact Hw2.
  - done.
  - unfold Singleton.GenericLog. by intros ->.
  - intros window o Ho w3.
    assert (heap w3 = heap w) as Hw3.
    { subst w3. rewrite Hw1.
      unfold Singleton.Shutdown, Singleton.on_instance, Manager.destroy.
      cbn [s_log_manager heap fmap option_fmap option_map
           Manager.RegisterListener m_listeners].
      rewrite Hl, Hh.
      change (listener_index LOG_WINDOW_LISTENER) with 2.
      change (listener_index CONSOLE_LISTENER) with 1.
      change (listener_index FILE_LISTENER) with 0.
      rewrite (lookup_insert_ne _ 2 1), lookup_insert_eq by done.
      rewrite (lookup_insert_ne _ 2 0), (lookup_insert_ne _ 1 0) by done.
      rewrite lookup_insert_eq.
      cbn [heap_delete].
      rewrite delete_insert_eq, delete_insert_ne by done.
      rewrite (delete_id _ c) by done.
      by apply delete_insert_id. }
    rewrite Hw3. repeat apply conj; done.
Qed.

(** The theorem at a world where the GUI owns a log window at address 7:
    the window outlives the manager, and a call without an instance makes
    no call. *)
Lemma init_shutdown_and_log_without_instance_witness :
  let w := {| s_log_manager := None; heap := {[ 7%nat := ObjLogWindow ]} |} in
  heap (Singleton.Shutdown
          (Singleton.on_instance
             (Manager.RegisterListener LOG_WINDOW_LISTENER (Some 7%nat))
             (Singleton.Init Example.env w))) !! 7%nat = Some ObjLogWindow
  /\ Singleton.GenericLog w "12:34:567" LERROR AUDIO Example.audio_cpp 42 "lost" = [].
Proof.
  intros w.
  pose proof (init_shutdown_and_log_without_instance Example.env w
                "12:34:567" LERROR AUDIO Example.audio_cpp 42 "lost")
    as (_ & _ & _ & _ & Hlog & Hwindow).
  split.
  - apply (Hwindow 7%nat ObjLogWindow). reflexivity.
  - apply Hlog. reflexivity.
Defined.


(** ** Concurrent callers of the file listener *)

Section Concurrent_facts.

Import Concurrent.

Lemma append_nil_r (s : string) : s +:+ "" = s.
Proof.
  induction s as [|a s IH]; [done|].
  change (String a (s +:+ "") = String a s). by rewrite IH.
Qed.

Lemma concat_msgs_app l1 l2 :
  concat_msgs (l1 ++ l2) = concat_msgs l1 +:+ concat_msgs l2.
Proof.
  induction l1 as [|m l1 IH]; [done|].
  cbn [app concat_msgs foldr]. fold (concat_msgs (l1 ++ l2)).
  fold (concat_msgs l1). by rewrite IH, append_assoc.
Qed.

Lemma concat_msgs_singleton m : concat_msgs [m] = m.
Proof. apply append_nil_r. Qed.

Variables (l0 : FileLogListener) (msgs : list string).

Lemma inv_start :
  m_log_lock l0 = false ->
  FileListener.IsEnabled l0 = true ->
  FileListener.IsValid l0 = true ->
  os_pending (m_logfile l0) = "" ->
  inv l0 msgs (start l0 msgs) [] None.
Proof.
  intros Hlock He Hv Hp. split; cbn; try done.
  - rewrite <- list_fmap_compose. cbn. apply list_fmap_id.
  - intros i t Ht. apply list_lookup_fmap_Some in Ht as (m & -> & _).
    cbn. split; done.
  - apply NoDup_nil_2.
  - intros i. split; [by intros ?%elem_of_nil|].
    intros (t & Ht & Hf). apply list_lookup_fmap_Some in Ht as (m & -> & _).
    done.
  - by rewrite append_nil_r.
Qed.

(** One thread moves: what to check to keep the invariant. *)
Lemma inv_update l threads i t l' t' order holder order' holder' :
  inv l0 msgs (mkState l threads) order holder ->
  threads !! i = Some t ->
  t_msg t' = t_msg t ->
  m_file_enable l' = true ->
  os_good (m_logfile l') = true ->
  m_log_lock l' = bool_decide (is_Some holder') ->
  (holding (t_pc t') = true <-> holder' = Some i) ->
  (forall j, j <> i -> holder' = Some j <-> holder = Some j) ->
  pending_ok (holder' ≫= fun j => <[i:=t']> threads !! j)
    (os_pending (m_logfile l')) ->
  NoDup order' ->
  (forall j, j ∈ order' <->
             (j ∈ order /\ j <> i) \/ (j = i /\ flushed (t_pc t') = true)) ->
  os_file (m_logfile l')
    = os_file (m_logfile l0) +:+ concat_msgs (written msgs order') ->
  inv l0 msgs (mkState l' (<[i:=t']> threads)) order' holder'.
Proof.
  intros [Hmsgs Hen Hgood Hlock Hhold Hht Hpend Hnd Hfl Hfile]
    Hi Hmsg Hen' Hgood' Hlock' Hhold' Hother Hpend' Hnd' Hfl' Hfile'.
  cbn in *.
  assert (i < length threads)%nat as Hlen by (by eapply lookup_lt_Some).
  split; cbn; try done.
  - rewrite list_fmap_insert, Hmsg, list_insert_id; [done|].
    by rewrite list_lookup_fmap, Hi.
  - intros j tj Hj. destruct (decide (j = i)) as [->|Hne].
    + rewrite list_lookup_insert_eq in Hj by done. by injection Hj as <-.
    + rewrite list_lookup_insert_ne in Hj by done.
      rewrite (Hhold j tj Hj). symmetry. by apply Hother.
  - intros j Hj. destruct (decide (j = i)) as [->|Hne].
    + rewrite list_lookup_insert_eq by done. by eexists.
    + rewrite list_lookup_insert_ne by done. by apply Hht, Hother.
  - intros j. rewrite Hfl'. destruct (decide (j = i)) as [->|Hne].
    + rewrite list_lookup_insert_eq by done. split.
      * intros [[_ ?]|[_ Hf]]; [done|]. by exists t'.
      * intros (? & [= <-] & Hf). by right.
    + rewrite list_lookup_insert_ne by done. rewrite Hfl. split.
      * intros [[? _]|[? _]]; done.
      * intros ?. by left.
Qed.

(** A thread that does not hold the lock is not the holder; the holder's
    thread is not touched by an update elsewhere. *)
Lemma pending_ok_other (threads : list thread) (i : nat) t' holder pending :
  holder <> Some i ->
  pending_ok (holder ≫= fun j => threads !! j) pending ->
  pending_ok (holder ≫= fun j => <[i:=t']> threads !! j) pending.
Proof.
  intros Hne. destruct holder as [j|]; [|done]. cbn.
  rewrite list_lookup_insert_ne by congruence. done.
Qed.

Lemma inv_step s s' order holder :
  inv l0 msgs s order holder -> step s s' ->
  exists order' holder', inv l0 msgs s' order' holder'.
Proof.
  intros Hinv Hstep.
  destruct Hstep as [i t l' t' s Hi Hst].
  destruct s as [l threads]. cbn [st_listener st_threads] in *.
  pose proof Hinv as [Hmsgs Hen Hgood Hlock Hhold Hht Hpend Hnd Hfl Hfile].
  cbn [st_listener st_threads] in *.
  assert (i < length threads)%nat as Hlen by (by eapply lookup_lt_Some).
  pose proof (Hhold i t Hi) as Hhi.
  assert (i ∈ order <-> flushed (t_pc t) = true) as Hfi.
  { rewrite Hfl. split; [|intros ?; by exists t].
    intros (x & Hx & ?). rewrite Hi in Hx. by injection Hx as <-. }
  assert (flushed (t_pc t) = false ->
          forall j, j ∈ order <-> (j ∈ order /\ j <> i) \/ (j = i /\ false = true))
    as Hsame.
  { intros Hnf j. split.
    - intros Hj. left. split; [done|]. intros ->.
      apply Hfi in Hj. congruence.
    - intros [[? _]|[_ ?]]; done. }
  destruct t as [msg p]. cbn [t_msg t_pc] in *.
  unfold step_thread in Hst. cbn [t_msg t_pc] in Hst.
  destruct p as [| |rest| | |].
  - (* the guard *)
    unfold FileListener.IsEnabled, FileListener.IsValid in Hst.
    rewrite Hen, Hgood in Hst. cbn in Hst. injection Hst as <- <-.
    exists order, holder.
    assert (holder <> Some i) as Hne.
    { intros ?. by apply Hhi in H. }
    eapply inv_update;
      [exact Hinv|exact Hi|done|done|done|done| | | |done| |done]; cbn.
    + split; [done|]. intros ?. by apply Hhi.
    + done.
    + by apply pending_ok_other.
    + by apply Hsame.
  - (* taking the lock *)
    destruct (m_log_lock l) eqn:El; [done|].
    injection Hst as <- <-.
    assert (holder = None) as ->.
    { destruct holder; [|done]. symmetry in Hlock.
      apply bool_decide_eq_false in Hlock. destruct Hlock. by eexists. }
    exists order, (Some i).
    eapply inv_update;
      [exact Hinv|exact Hi|done|done|done|done| | | |done| |done]; cbn.
    + done.
    + intros j Hj. split; [congruence|done].
    + rewrite list_lookup_insert_eq by done. cbn. cbn in Hpend.
      by rewrite Hpend.
    + by apply Hsame.
  - (* inserting *)
    assert (holder = Some i) as -> by (by apply Hhi).
    cbn in Hpend. rewrite Hi in Hpend. cbn in Hpend.
    destruct rest as [|a rest]; injection Hst as <- <-.
    + exists order, (Some i).
      eapply inv_update;
        [exact Hinv|exact Hi|done|done|done|done| | | |done| |done]; cbn.
      * done.
      * done.
      * rewrite list_lookup_insert_eq by done. cbn.
        by rewrite append_nil_r in Hpend.
      * by apply Hsame.
    + exists order, (Some i).
      assert (FileListener.insert (String a "") (m_logfile l)
              = mkOfstream true (os_pending (m_logfile l) +:+ String a "")
                  (os_file (m_logfile l))) as Hins.
      { unfold FileListener.insert. by rewrite Hgood. }
      eapply inv_update;
        [exact Hinv|exact Hi|done| | |done| | | |done| | ]; cbn;
        rewrite ?Hins; cbn.
      * done.
      * done.
      * done.
      * done.
      * rewrite list_lookup_insert_eq by done. cbn.
        by rewrite append_assoc.
      * by apply Hsame.
      * done.
  - (* flushing *)
    assert (holder = Some i) as -> by (by apply Hhi).
    cbn in Hpend. rewrite Hi in Hpend. cbn in Hpend.
    injection Hst as <- <-.
    assert (msgs !! i = Some msg) as Hmi.
    { rewrite <- Hmsgs, list_lookup_fmap, Hi. done. }
    assert (FileListener.flush IoOk (m_logfile l)
            = mkOfstream true ""
                (os_file (m_logfile l) +:+ os_pending (m_logfile l))) as Hflush.
    { unfold FileListener.flush. by rewrite Hgood. }
    exists (order ++ [i])%list, (Some i).
    eapply inv_update;
      [exact Hinv|exact Hi|done| | |done| | | | | | ]; cbn;
      rewrite ?Hflush; cbn.
    + done.
    + done.
    + done.
    + done.
    + rewrite list_lookup_insert_eq by done. done.
    + apply NoDup_app. repeat split; [done| |apply NoDup_singleton].
      intros j Hj ->%list_elem_of_singleton. by apply Hfi in Hj.
    + intros j. rewrite elem_of_app, list_elem_of_singleton. split.
      * intros [Hj| ->]; [|by right]. left. split; [done|].
        intros ->. by apply Hfi in Hj.
      * intros [[? _]|[-> _]]; [by left|by right].
    + rewrite Hfile, Hpend. unfold written. rewrite fmap_app.
      rewrite concat_msgs_app, append_assoc. cbn [fmap list_fmap].
      rewrite Hmi. cbn. by rewrite append_nil_r.
  - (* releasing the lock *)
    assert (holder = Some i) as -> by (by apply Hhi).
    cbn in Hpend. rewrite Hi in Hpend. cbn in Hpend.
    injection Hst as <- <-.
    exists order, None.
    eapply inv_update;
      [exact Hinv|exact Hi|done|done|done|done| | | |done| |done]; cbn.
    + split; done.
    + intros j Hj. split; [done|congruence].
    + done.
    + intros j. split.
      * intros Hj. destruct (decide (j = i)) as [->|]; [by right|by left].
      * intros [[? _]|[-> _]]; [done|]. by apply Hfi.
  - (* returned *)
    done.
Qed.

Lemma inv_steps s s' order holder :
  inv l0 msgs s order holder -> steps s s' ->
  exists order' holder', inv l0 msgs s' order' holder'.
Proof.
  intros Hinv Hsteps. revert order holder Hinv.
  induction Hsteps as [s|s1 s2 s3 Hstep _ IH]; intros order holder Hinv.
  - eauto.
  - destruct (inv_step _ _ _ _ Hinv Hstep) as (order' & holder' & Hinv').
    eauto.
Qed.

(** The messages of all the threads, by thread number. *)
Lemma written_all : written msgs (seq 0 (length msgs)) = msgs.
Proof.
  unfold written. apply list_eq. intros i.
  rewrite list_lookup_fmap.
  destruct (msgs !! i) as [m|] eqn:E.
  - rewrite lookup_seq_lt by (by eapply lookup_lt_Some). cbn. by rewrite E.
  - rewrite lookup_seq_ge; [done|]. by apply lookup_ge_None.
Qed.

(** When all the callers have returned, the file holds their messages
    whole, one after the other, and the lock is free. *)
Lemma inv_all_done s order holder :
  inv l0 msgs s order holder -> all_done s ->
  exists ordered,
    ordered ≡ₚ msgs
    /\ m_logfile (st_listener s)
       = mkOfstream true "" (os_file (m_logfile l0) +:+ concat_msgs ordered)
    /\ m_log_lock (st_listener s) = false.
Proof.
  intros [Hmsgs Hen Hgood Hlock Hhold Hht Hpend Hnd Hfl Hfile] Hdone.
  unfold all_done in Hdone. rewrite Forall_lookup in Hdone.
  assert (holder = None) as ->.
  { destruct holder as [i|]; [|done].
    destruct (Hht i eq_refl) as [t Ht].
    pose proof (Hdone i t Ht) as Hd.
    assert (holding (t_pc t) = true) as Hh by (by apply (Hhold i t Ht)).
    rewrite Hd in Hh. done. }
  cbn in Hpend.
  exists (written msgs order). repeat split.
  - rewrite <- written_all at 2. unfold written. apply fmap_Permutation.
    apply NoDup_Permutation; [done|apply NoDup_seq|].
    intros i. rewrite Hfl, elem_of_seq. split.
    + intros (t & Ht & _). apply lookup_lt_Some in Ht.
      rewrite <- Hmsgs, length_fmap. lia.
    + intros [_ Hi]. rewrite <- Hmsgs, length_fmap in Hi.
      destruct (lookup_lt_is_Some_2 (st_threads s) i) as [t Ht]; [lia|].
      exists t. split; [done|]. by rewrite (Hdone i t Ht).
  - destruct (m_logfile (st_listener s)) as [g p f]. cbn in *. congruence.
  - done.
Qed.

(** Every statement a thread runs brings it closer to its return. *)
Lemma step_thread_remaining l t l' t' :
  step_thread l t = Some (l', t') -> (remaining t' < remaining t)%nat.
Proof.
  unfold step_thread, remaining. destruct t as [msg p]. cbn.
  destruct p as [| |[|a rest]| | |]; cbn; intros H;
    try destruct (negb _ || negb _); try destruct (m_log_lock l);
    try done; injection H as <- <-; cbn; lia.
Qed.

Lemma remaining_insert (threads : list thread) (i : nat) t t' :
  threads !! i = Some t ->
  (foldr (fun t n => remaining t + n) 0 (<[i:=t']> threads) + remaining t
   = foldr (fun t n => remaining t + n) 0 threads + remaining t')%nat.
Proof.
  revert i. induction threads as [|x threads IH]; intros i Hi; [done|].
  destruct i as [|i].
  - injection Hi as ->.
    change (<[0%nat:=t']> (t :: threads)) with (t' :: threads).
    cbn [foldr]. lia.
  - change (<[S i:=t']> (x :: threads)) with (x :: <[i:=t']> threads).
    cbn [foldr]. specialize (IH i Hi). lia.
Qed.

Lemma step_remaining s s' :
  step s s' -> (remaining_all s' < remaining_all s)%nat.
Proof.
  intros [i t l' t' s0 Hi Hst]. unfold remaining_all. cbn.
  pose proof (step_thread_remaining _ _ _ _ Hst).
  pose proof (remaining_insert _ _ _ t' Hi). lia.
Qed.

(** No deadlock: while a caller has not returned, some thread can move. *)
Lemma inv_progress s order holder :
  inv l0 msgs s order holder -> all_done s \/ exists s', step s s'.
Proof.
  intros [Hmsgs Hen Hgood Hlock Hhold Hht Hpend Hnd Hfl Hfile].
  destruct holder as [i|].
  - right. destruct (Hht i eq_refl) as [t Ht].
    assert (holding (t_pc t) = true) as Hh by (by apply (Hhold i t Ht)).
    assert (is_Some (step_thread (st_listener s) t)) as [[l' t'] Hst].
    { unfold step_thread. destruct t as [msg p]. cbn in *.
      destruct p as [| |[|a rest]| | |]; try done; by eexists. }
    eexists. by eapply step_at.
  - destruct (decide (Forall (fun t => t_pc t = Done) (st_threads s)))
      as [Hall|Hnot]; [by left|right].
    apply not_Forall_Exists in Hnot; [|apply _].
    apply Exists_exists in Hnot as (t & Hin & Hnd').
    apply list_elem_of_lookup in Hin as [i Ht].
    assert (holding (t_pc t) = false) as Hh.
    { destruct (holding (t_pc t)) eqn:E; [|done].
      by apply (Hhold i t Ht) in E. }
    assert (is_Some (step_thread (st_listener s) t)) as [[l' t'] Hst].
    { unfold step_thread. cbn in Hlock. destruct t as [msg p]. cbn in *.
      destruct p as [| |[|a rest]| | |]; try done.
      - case_match; by eexists.
      - rewrite Hlock. by eexists. }
    eexists. by eapply step_at.
Qed.

Lemma steps_trans s1 s2 s3 : steps s1 s2 -> steps s2 s3 -> steps s1 s3.
Proof.
  induction 1 as [|s1 s2 s2' Hstep _ IH]; [done|].
  intros H3. eapply steps_step; eauto.
Qed.

(** Every run can be finished. *)
Lemma inv_finish n s order holder :
  (remaining_all s <= n)%nat ->
  inv l0 msgs s order holder ->
  exists s', steps s s' /\ all_done s'.
Proof.
  revert s order holder. induction n as [|n IH]; intros s order holder Hn Hinv.
  - destruct (inv_progress _ _ _ Hinv) as [Hd|[s' Hstep]].
    + exists s. split; [apply steps_refl|done].
    + apply step_remaining in Hstep. lia.
  - destruct (inv_progress _ _ _ Hinv) as [Hd|[s' Hstep]].
    + exists s. split; [apply steps_refl|done].
    + destruct (inv_step _ _ _ _ Hinv Hstep) as (order' & holder' & Hinv').
      pose proof (step_remaining _ _ Hstep).
      destruct (IH s' order' holder') as (s'' & Hsteps & Hd); [lia|done|].
      exists s''. split; [|done]. eapply steps_step; eauto.
Qed.

Lemma inv_reachable s :
  m_log_lock l0 = false ->
  FileListener.IsEnabled l0 = true ->
  FileListener.IsValid l0 = true ->
  os_pending (m_logfile l0) = "" ->
  steps (start l0 msgs) s ->
  exists order holder, inv l0 msgs s order holder.
Proof.
  intros Hlock He Hv Hp Hsteps.
  eapply inv_steps; [|exact Hsteps]. by apply inv_start.
Qed.

(** A run under a schedule is a run of the step relation. *)
Lemma run_steps schedule s s' : run schedule s = Some s' -> steps s s'.
Proof.
  revert s. induction schedule as [|i schedule IH]; intros s Hrun; cbn in Hrun.
  - injection Hrun as ->. apply steps_refl.
  - destruct (st_threads s !! i) as [t|] eqn:Hi; [|done].
    destruct (step_thread (st_listener s) t) as [[l' t']|] eqn:Hst; [|done].
    eapply steps_step; [by eapply step_at|]. by apply IH.
Qed.

(** One thread calling [Log] again and again: the messages reach the file
    in the order of the calls. *)
Lemma LogAll_in_order l level :
  FileListener.IsEnabled l = true ->
  FileListener.IsValid l = true ->
  os_pending (m_logfile l) = "" ->
  m_logfile (FileListener.LogAll l ((fun m => (IoOk, level, m)) <$> msgs))
  = mkOfstream true "" (os_file (m_logfile l) +:+ concat_msgs msgs).
Proof.
  clear l0. unfold FileListener.LogAll.
  revert l. induction msgs as [|m ms IH]; intros l He Hv Hp.
  - cbn. unfold FileListener.IsValid in Hv.
    destruct (m_logfile l) as [g p f]. cbn in *. subst.
    by rewrite append_nil_r.
  - cbn [fmap list_fmap foldl fst snd].
    assert (FileListener.Log IoOk l level m
            = FileListener.with_logfile l
                (mkOfstream true "" (os_file (m_logfile l) +:+ m))) as ->.
    { rewrite Log_writes by done. unfold FileListener.IsValid in Hv.
      unfold FileListener.flush, FileListener.insert. rewrite Hv. cbn.
      by rewrite Hp. }
    rewrite IH by done. cbn. by rewrite append_assoc.
Qed.

End Concurrent_facts.

(** C9: callers of [Log] on one file listener, each in a thread of its own
    and with a message of its own, are serialized by the lock around the
    insertion and the flush. At every moment of every interleaving the file
    holds whole messages only, one after the other; while a caller has not
    returned some thread can move, and every move brings the end closer, so
    that every run ends; when all [N] callers have returned the file holds
    exactly their [N] messages after what it held before, in some order,
    nothing is pending and the lock is free. With one thread making the
    calls one after the other, the messages are in the file in the order of
    the calls. The listener is enabled and its stream good, the device
    takes every flush. *)
Theorem concurrent_emits_are_serialized
    (l0 : FileLogListener) (msgs : list string) (level : LOG_LEVELS) :
  m_log_lock l0 = false ->
  FileListener.IsEnabled l0 = true ->
  FileListener.IsValid l0 = true ->
  os_pending (m_logfile l0) = "" ->
  (forall s,
     Concurrent.steps (Concurrent.start l0 msgs) s ->
     (exists order,
        NoDup order
        /\ os_file (m_logfile (Concurrent.st_listener s))
           = os_file (m_logfile l0)
               +:+ Concurrent.concat_msgs (Concurrent.written msgs order))
     /\ (Concurrent.all_done s \/ exists s', Concurrent.step s s')
     /\ (forall s', Concurrent.step s s' ->
           (Concurrent.remaining_all s' < Concurrent.remaining_all s)%nat)
     /\ (Concurrent.all_done s ->
           exists ordered,
             ordered ≡ₚ msgs
             /\ m_logfile (Concurrent.st_listener s)
                = mkOfstream true ""
                    (os_file (m_logfile l0) +:+ Concurrent.concat_msgs ordered)
             /\ m_log_lock (Concurrent.st_listener s) = false))
  /\ (exists s,
        Concurrent.steps (Concurrent.start l0 msgs) s /\ Concurrent.all_done s)
  /\ m_logfile (FileListener.LogAll l0 ((fun m => (IoOk, level, m)) <$> msgs))
     = mkOfstream true ""
         (os_file (m_logfile l0) +:+ Concurrent.concat_msgs msgs).
Proof.
  intros Hlock He Hv Hp. repeat apply conj.
  - intros s Hsteps.
    destruct (inv_reachable l0 msgs s Hlock He Hv Hp Hsteps)
      as (order & holder & Hinv).
    repeat apply conj.
    + exists order. split; [apply Hinv|apply Hinv].
    + by eapply inv_progress.
    + apply step_remaining.
    + by eapply inv_all_done.
  - eapply inv_finish; [done|]. by apply inv_start.
  - by apply LogAll_in_order.
Qed.

(** The theorem at two callers with the messages "ab" and "cd", on a file
    that holds "x": the second caller takes the lock first. *)
Lemma concurrent_emits_are_serialized_witness :
  exists s ordered,
    Concurrent.run [0; 1; 1; 1; 1; 1; 1; 1; 0; 0; 0; 0; 0; 0]%nat
      (Concurrent.start (FileListener.new (Some "x")) ["ab"; "cd"]) = Some s
    /\ ordered ≡ₚ ["ab"; "cd"]
    /\ m_logfile (Concurrent.st_listener s)
       = mkOfstream true "" ("x" +:+ Concurrent.concat_msgs ordered)
    /\ os_file (m_logfile (Concurrent.st_listener s)) = "xcdab".
Proof.
  pose proof (concurrent_emits_are_serialized
                (FileListener.new (Some "x")) ["ab"; "cd"] LINFO
                eq_refl eq_refl eq_refl eq_refl) as (H & _).
  assert (Concurrent.run [0; 1; 1; 1; 1; 1; 1; 1; 0; 0; 0; 0; 0; 0]%nat
            (Concurrent.start (FileListener.new (Some "x")) ["ab"; "cd"])
          = Some (Concurrent.mkState
                    (mkFileLogListener false (mkOfstream true "" "xcdab") true)
                    [Concurrent.mkThread "ab" Concurrent.Done;
                     Concurrent.mkThread "cd" Concurrent.Done])) as Hrun.
  { vm_compute. reflexivity. }
  destruct (H _ (run_steps _ _ _ Hrun)) as (_ & _ & _ & Hdone).
  destruct Hdone as (ordered & Hperm & Hfile & _).
  { repeat constructor. }
  eexists _, ordered.
  split; [exact Hrun|]. split; [exact Hperm|]. split; [exact Hfile|].
  reflexivity.
Defined.


(* ===================================================================== *)
(** * Further properties of the code *)
(* ===================================================================== *)

(** ** The cut-off point of the file paths *)

Section Cutoff_facts.

Lemma string_length_app (s1 s2 : string) :
  String.length (s1 +:+ s2) = (String.length s1 + String.length s2)%nat.
Proof.
  induction s1 as [|a s1 IH]; [done|].
  change (S (String.length (s1 +:+ s2))
          = S (String.length s1 + String.length s2)). by rewrite IH.
Qed.

Lemma substring_skip (s1 s2 : string) (n : nat) :
  substring (String.length s1) n (s1 +:+ s2) = substring 0 n s2.
Proof. induction s1 as [|a s1 IH]; [done|]. exact IH. Qed.

Lemma substring_prefix (s1 s2 : string) :
  substring 0 (String.length s1) (s1 +:+ s2) = s1.
Proof.
  induction s1 as [|a s1 IH]; [by destruct s2|].
  change (String a (substring 0 (String.length s1) (s1 +:+ s2)) = String a s1).
  by rewrite IH.
Qed.

Lemma drop_app (s1 s2 : string) :
  FileListener.drop (String.length s1) (s1 +:+ s2) = s2.
Proof.
  unfold FileListener.drop. rewrite substring_skip, string_length_app.
  replace (String.length s1 + String.length s2 - String.length s1)%nat
    with (String.length s2) by lia.
  by apply substring_0_all.
Qed.

Lemma drop_0 (s : string) : FileListener.drop 0 s = s.
Proof.
  unfold FileListener.drop. rewrite Nat.sub_0_r. by apply substring_0_all.
Qed.

(** A non-empty text occurs only where the string has room for it. *)
Lemma substring_occurs (s part : string) (p : nat) :
  part <> "" -> substring p (String.length part) s = part ->
  (p + String.length part <= String.length s)%nat.
Proof.
  revert p part. induction s as [|a s IH]; intros p part Hne Hsub.
  - destruct p, part; cbn in Hsub; try done.
  - destruct p as [|p].
    + clear IH. revert s Hsub. clear Hne. revert a.
      induction part as [|b part IHp]; intros a s Hsub; cbn; [lia|].
      cbn in Hsub. injection Hsub as _ Hsub.
      destruct part as [|b' part]; [cbn; lia|].
      destruct s as [|a' s]; [done|].
      specialize (IHp a' s Hsub). cbn in *. lia.
    + cbn in Hsub. specialize (IH p part Hne Hsub). cbn. lia.
Qed.

End Cutoff_facts.

(** X1: [DeterminePathCutOffPoint] gives 0 exactly when the pattern
    DIR_SEP "Source" DIR_SEP "Core" DIR_SEP does not occur in [__FILE__],
    and then [Log] passes every file path on whole. When the pattern occurs,
    the cut-off point is the end of its first occurrence and lies within
    [__FILE__]; a file path with the same root before the pattern is logged
    by [Log] as what follows the pattern. *)
Theorem path_cutoff_point
    (dir_sep file_macro : string) (m : LogManager) (time : string)
    (level : LOG_LEVELS) (type : LOG_TYPE) (line : Z) (expanded : string) :
  m_path_cutoff_point m = Manager.DeterminePathCutOffPoint dir_sep file_macro ->
  let pattern := dir_sep +:+ "Source" +:+ dir_sep +:+ "Core" +:+ dir_sep in
  let occurs p := substring p (String.length pattern) file_macro = pattern in
  (m_path_cutoff_point m <= String.length file_macro)%nat
  /\ (m_path_cutoff_point m = 0%nat <-> forall p, ~ occurs p)
  /\ (m_path_cutoff_point m = 0%nat ->
      forall file,
        Manager.Log m time level type file line expanded
        = Manager.LogWithFullPath m time level type file line expanded)
  /\ (forall root rest,
        file_macro = root +:+ pattern +:+ rest ->
        (forall p, (p < String.length root)%nat -> ~ occurs p) ->
        m_path_cutoff_point m
        = (String.length root + String.length pattern)%nat
        /\ forall tail,
             Manager.Log m time level type (root +:+ pattern +:+ tail)
               line expanded
             = Manager.LogWithFullPath m time level type tail line expanded).
Proof.
  intros Hm pattern occurs.
  assert (pattern <> "") as Hne.
  { subst pattern. destruct dir_sep; [discriminate|discriminate]. }
  unfold Manager.DeterminePathCutOffPoint in Hm. fold pattern in Hm.
  destruct (index 0 pattern file_macro) as [pos|] eqn:Hidx.
  - pose proof (index_correct1 _ _ _ _ Hidx) as Hat.
    pose proof (index_correct2 _ _ _ _ Hidx) as Hfirst.
    pose proof (substring_occurs _ _ _ Hne Hat) as Hroom.
    assert (0 < String.length pattern)%nat as Hlen.
    { destruct pattern; [done|cbn; lia]. }
    split; [|split; [|split]].
    + lia.
    + split; [lia|]. intros Hno. by destruct (Hno pos).
    + lia.
    + intros root rest Hfile Hbefore.
      assert (occurs (String.length root)) as Hroot.
      { unfold occurs. rewrite Hfile, substring_skip. apply substring_prefix. }
      assert (pos = String.length root) as ->.
      { destruct (Nat.lt_trichotomy pos (String.length root)) as [Hlt|[->|Hgt]].
        - by destruct (Hbefore pos Hlt).
        - done.
        - destruct (Hfirst (String.length root)); [lia|done|done]. }
      split; [done|]. intros tail. unfold Manager.Log, advance. rewrite Hm.
      rewrite <- string_length_app, <- append_assoc. by rewrite drop_app.
  - assert (forall p, ~ occurs p) as Hno.
    { intros p. apply (index_correct3 0 p _ _ Hidx Hne). lia. }
    split; [|split; [|split]].
    + lia.
    + split; [|done]. intros _ p. apply Hno.
    + intros _ file. unfold Manager.Log, advance. by rewrite Hm, drop_0.
    + intros root rest Hfile Hbefore. exfalso.
      apply (Hno (String.length root)). unfold occurs.
      rewrite Hfile, substring_skip. apply substring_prefix.
Qed.

(** The theorem at the manager of the example configuration: paths under
    "/src/dolphin/Source/Core/" are logged relative to it. *)
Lemma path_cutoff_point_witness :
  m_path_cutoff_point Example.manager = 25%nat
  /\ Manager.Log Example.manager "12:34:567" LWARNING AUDIO
       "/src/dolphin/Source/Core/AudioCommon/Mixer.cpp" 7 "x"
     = Manager.LogWithFullPath Example.manager "12:34:567" LWARNING AUDIO
         "AudioCommon/Mixer.cpp" 7 "x".
Proof.
  pose proof (path_cutoff_point "/"
                "/src/dolphin/Source/Core/Common/Logging/LogManager.cpp"
                Example.manager "12:34:567" LWARNING AUDIO 7 "x" eq_refl)
    as (_ & _ & _ & H).
  destruct (H "/src/dolphin" "Common/Logging/LogManager.cpp" eq_refl)
    as [H1 H2].
  - intros p Hp. cbn in Hp.
    do 12 (destruct p as [|p]; [vm_compute; discriminate|]). lia.
  - split; [exact H1|]. exact (H2 "AudioCommon/Mixer.cpp").
Defined.

(** ** The level, the enabled flag and the listener table *)

Section Manager_facts.

Import Manager Trace.

Lemma level_value_min level : 1 <= level_value level.
Proof. destruct level; cbn; lia. Qed.

(** The trace of a call is empty exactly when the filter stops it. *)
Lemma LogWithFullPath_nil m time level type file line expanded :
  LogWithFullPath m time level type file line expanded = [] <->
  Container.IsEnabled (m_log m type) = false
  \/ level_value level > GetLogLevel m
  \/ Container.HasListeners (m_log m type) = false.
Proof.
  split; [|apply LogWithFullPath_filtered].
  unfold LogWithFullPath.
  destruct (Container.IsEnabled (m_log m type)); [|by left].
  destruct (Z.gtb_spec (level_value level) (GetLogLevel m)); [right; left; lia|].
  destruct (Container.HasListeners (m_log m type)); [|by right; right].
  done.
Qed.

(** A call reads the manager through the container of its type, the level
    and the listener table only. *)
Lemma LogWithFullPath_ext m1 m2 time level type file line expanded :
  m_log m1 type = m_log m2 type ->
  m_level m1 = m_level m2 ->
  m_listeners m1 = m_listeners m2 ->
  LogWithFullPath m1 time level type file line expanded
  = LogWithFullPath m2 time level type file line expanded.
Proof.
  intros Hlog Hlevel Hlisteners. unfold LogWithFullPath, GetLogLevel.
  by rewrite Hlog, Hlevel, Hlisteners.
Qed.

Lemma Log_ext m1 m2 time level type file line expanded :
  m_log m1 type = m_log m2 type ->
  m_level m1 = m_level m2 ->
  m_listeners m1 = m_listeners m2 ->
  m_path_cutoff_point m1 = m_path_cutoff_point m2 ->
  Log m1 time level type file line expanded
  = Log m2 time level type file line expanded.
Proof.
  intros Hlog Hlevel Hlisteners Hcut. unfold Log. rewrite Hcut.
  by apply LogWithFullPath_ext.
Qed.

End Manager_facts.

(** X2: the filter is monotone in the severity. A listener that is called
    for a message is called for every more severe message to the same log
    type; a call that passes still passes, with the same calls, when the
    level of the manager is raised with [SetLogLevel]; and a level of the
    manager below the level of the message stops the call, so that a level
    below every enumerator silences the manager. *)
Theorem severity_is_monotone
    (m : LogManager) (time : string) (level1 level2 : LOG_LEVELS)
    (type : LOG_TYPE) (file : string) (line : Z) (expanded : string) :
  level_value level1 <= level_value level2 ->
  (forall i p msg2,
     ListenerLog i p level2 msg2
       ∈ Manager.Log m time level2 type file line expanded ->
     exists msg1,
       ListenerLog i p level1 msg1
         ∈ Manager.Log m time level1 type file line expanded)
  /\ (forall raised,
        level_value level2 <= Manager.GetLogLevel m ->
        Manager.GetLogLevel m <= raised ->
        Manager.Log (Manager.SetLogLevel raised m) time level1 type file line
          expanded
        = Manager.Log m time level1 type file line expanded)
  /\ (forall lowered,
        lowered < level_value level1 ->
        Manager.Log (Manager.SetLogLevel lowered m) time level2 type file line
          expanded = [])
  /\ Manager.Log (Manager.SetLogLevel 0 m) time level2 type file line expanded
     = [].
Proof.
  intros Hle. repeat apply conj.
  - intros i p msg2 Hin. unfold Manager.Log in *.
    apply LogWithFullPath_emit in Hin as (He & Hl & Hh & Hd); [|by eexists].
    apply elem_of_dispatch in Hd as (j & q & Heq & Hj & Hq).
    injection Heq as -> -> _.
    eexists. rewrite LogWithFullPath_passes by (done || lia). cbv zeta.
    apply elem_of_app. right. apply elem_of_dispatch. by exists j, q.
  - intros raised Hpass Hraised. unfold Manager.Log. cbn [m_path_cutoff_point Manager.SetLogLevel].
    unfold Manager.LogWithFullPath, Manager.GetLogLevel in *.
    cbn [m_log m_level m_listeners Manager.SetLogLevel].
    destruct (Z.gtb_spec (level_value level1) raised); [lia|].
    destruct (Z.gtb_spec (level_value level1) (m_level m)); [lia|]. done.
  - intros lowered Hlow. unfold Manager.Log.
    apply LogWithFullPath_filtered. right. left.
    unfold Manager.GetLogLevel. cbn. lia.
  - unfold Manager.Log. apply LogWithFullPath_filtered. right. left.
    unfold Manager.GetLogLevel. cbn. pose proof (level_value_min level2). lia.
Qed.

(** The theorem at the example configuration: a notice reaches the console
    listener that a warning reaches. *)
Lemma severity_is_monotone_witness :
  exists msg,
    ListenerLog 1 1%nat LNOTICE msg
      ∈ Manager.Log Example.manager "12:34:567" LNOTICE AUDIO Example.audio_cpp 1 "x".
Proof.
  pose proof (severity_is_monotone Example.manager "12:34:567" LNOTICE LWARNING
                AUDIO Example.audio_cpp 1 "x" ltac:(vm_compute; discriminate)) as (H & _).
  apply (H 1 1%nat ("12:34:567 AudioCommon/audio.cpp:1 W[Audio]: x" +:+ String (ascii_of_nat 10) "")).
  vm_compute. do 3 right. left.
Defined.

(** X3: [IsEnabled(type, level)] is the filter of [Log] without the test for
    listeners: a call makes no call at all exactly when [IsEnabled] is false
    for its type and level or the container has no listener, so a caller
    that skips its work when [IsEnabled] is false loses no output. *)
Theorem IsEnabled_agrees_with_Log
    (m : LogManager) (time : string) (level : LOG_LEVELS) (type : LOG_TYPE)
    (file : string) (line : Z) (expanded : string) :
  (Manager.Log m time level type file line expanded = [] <->
   Manager.IsEnabled m type level = false
   \/ Container.HasListeners (m_log m type) = false)
  /\ (Manager.IsEnabled m type level = true <->
      Container.IsEnabled (m_log m type) = true
      /\ level_value level <= Manager.GetLogLevel m).
Proof.
  assert (Manager.IsEnabled m type level = true <->
          Container.IsEnabled (m_log m type) = true
          /\ level_value level <= Manager.GetLogLevel m) as Hen.
  { unfold Manager.IsEnabled. rewrite andb_true_iff, Z.geb_le. tauto. }
  split; [|exact Hen].
  unfold Manager.Log. rewrite LogWithFullPath_nil. unfold Manager.IsEnabled.
  destruct (Container.IsEnabled (m_log m type)); cbn [andb].
  - destruct (Z.geb_spec (Manager.GetLogLevel m) (level_value level)).
    + split.
      * intros [?|[?|?]]; [done|lia|by right].
      * intros [?|?]; [done|by right; right].
    + split; [by left|]. intros _. right. left. lia.
  - split; by left.
Qed.

(** X4: the log types are independent. [SetEnable], [AddListener] and
    [RemoveListener] for one log type change neither the calls made for
    another log type nor its enabled flag, its listener set or its names. *)
Theorem log_types_are_independent
    (m : LogManager) (type other : LOG_TYPE) (enable : bool) (id : LISTENER)
    (m' : LogManager) :
  other <> type ->
  m' = Manager.SetEnable type enable m
  \/ m' = Manager.AddListener type id m
  \/ m' = Manager.RemoveListener type id m ->
  m_log m' other = m_log m other
  /\ (forall level, Manager.IsEnabled m' other level = Manager.IsEnabled m other level)
  /\ Manager.GetShortName m' other = Manager.GetShortName m other
  /\ Manager.GetFullName m' other = Manager.GetFullName m other
  /\ (forall time level file line expanded,
        Manager.Log m' time level other file line expanded
        = Manager.Log m time level other file line expanded).
Proof.
  intros Hne Hm'.
  assert (m_log m' other = m_log m other
          /\ m_level m' = m_level m
          /\ m_listeners m' = m_listeners m
          /\ m_path_cutoff_point m' = m_path_cutoff_point m) as (Hlog & Hl & Hr & Hc).
  { destruct Hm' as [->|[->| ->]]; cbn; by rewrite m_log_update_other. }
  repeat apply conj.
  - done.
  - intros level. unfold Manager.IsEnabled, Manager.GetLogLevel.
    by rewrite Hlog, Hl.
  - unfold Manager.GetShortName. by rewrite Hlog.
  - unfold Manager.GetFullName. by rewrite Hlog.
  - intros. by apply Log_ext.
Qed.

(** The theorem at the example configuration: disabling the video log
    leaves the audio log as it is. *)
Lemma log_types_are_independent_witness :
  Manager.Log (Manager.SetEnable VIDEO false Example.manager)
    "12:34:567" LWARNING AUDIO Example.audio_cpp 1 "x"
  = Manager.Log Example.manager "12:34:567" LWARNING AUDIO Example.audio_cpp 1 "x".
Proof.
  pose proof (log_types_are_independent Example.manager VIDEO AUDIO false
                FILE_LISTENER _ ltac:(discriminate) (or_introl eq_refl))
    as (_ & _ & _ & _ & H).
  apply H.
Defined.



(** X6: [RegisterListener] replaces the listener at its id. After it the
    calls through the id go to the new listener and to no other, the last
    registration wins, a null pointer stops the calls through the id while
    the subscriptions stay, and the calls through the other ids are as
    before. *)
Theorem RegisterListener_replaces
    (m : LogManager) (id : LISTENER) (listener : option nat)
    (time : string) (level : LOG_LEVELS) (type : LOG_TYPE)
    (file : string) (line : Z) (expanded : string) :
  let m' := Manager.RegisterListener id listener m in
  let tr := Manager.Log m time level type file line expanded in
  let tr' := Manager.Log m' time level type file line expanded in
  m_listeners m' !! listener_index id = listener
  /\ (forall other, other <> id ->
        m_listeners m' !! listener_index other
        = m_listeners m !! listener_index other)
  /\ (forall i p lvl msg,
        ListenerLog i p lvl msg ∈ tr' -> i = listener_index id ->
        listener = Some p)
  /\ (listener = None -> Trace.emits_to (listener_index id) tr' = [])
  /\ (forall i, i <> listener_index id ->
        Trace.emits_to i tr' = Trace.emits_to i tr)
  /\ (forall id', Container.subscribed (m_log m' type) id'
                  = Container.subscribed (m_log m type) id')
  /\ (forall previous,
        Manager.Log
          (Manager.RegisterListener id listener
             (Manager.RegisterListener id previous m))
          time level type file line expanded = tr').
Proof.
  intros m' tr tr'.
  assert (m_listeners m' !! listener_index id = listener) as Hat.
  { subst m'. cbn. destruct listener.
    - apply lookup_insert_eq.
    - apply lookup_delete_eq. }
  assert (forall i, i <> listener_index id ->
            m_listeners m' !! i = m_listeners m !! i) as Hother.
  { intros i Hi. subst m'. cbn. destruct listener.
    - by apply lookup_insert_ne.
    - by apply lookup_delete_ne. }
  assert (forall i, Trace.emits_to i tr' =
            if negb (Container.IsEnabled (m_log m type))
               || (level_value level >? Manager.GetLogLevel m)
               || negb (Container.HasListeners (m_log m type))
            then []
            else if decide (i ∈ Container.listener_ids (m_log m type))
                 then match m_listeners m' !! i with
                      | Some p =>
                          [ListenerLog i p level
                             (Manager.format_line time
                                (advance file (m_path_cutoff_point m)) line level
                                (Container.GetShortName (m_log m type))
                                (CharArrayFromFormatV MAX_MSGLEN expanded))]
                      | None => []
                      end
                 else []) as Htr'.
  { intros i. subst tr'. unfold Manager.Log.
    rewrite emits_to_LogWithFullPath.
    change (m_log m' type) with (m_log m type).
    change (Manager.GetLogLevel m') with (Manager.GetLogLevel m).
    change (m_path_cutoff_point m') with (m_path_cutoff_point m).
    destruct (negb _ || _ || negb _); [done|].
    by rewrite emits_to_dispatch by apply NoDup_BitSet32_elements. }
  repeat apply conj.
  - exact Hat.
  - intros other Hne. apply Hother. intros Heq.
    by apply listener_index_inj in Heq.
  - intros i p lvl msg Hin ->.
    subst tr'. unfold Manager.Log in Hin.
    apply LogWithFullPath_emit in Hin as (_ & _ & _ & Hd); [|by eexists].
    apply elem_of_dispatch in Hd as (j & q & Heq & _ & Hq).
    injection Heq as <- <- _ _. by rewrite Hat in Hq.
  - intros ->. rewrite Htr', Hat. by repeat case_match.
  - intros i Hi. rewrite Htr', (Hother i Hi).
    subst tr. unfold Manager.Log. rewrite emits_to_LogWithFullPath.
    destruct (negb _ || _ || negb _); [done|].
    by rewrite emits_to_dispatch by apply NoDup_BitSet32_elements.
  - done.
  - intros previous. subst tr' m'. apply Log_ext; try done. cbn.
    destruct listener, previous;
      rewrite ?insert_insert_eq, ?insert_delete_eq,
              ?delete_insert_eq, ?delete_delete_eq; done.
Qed.

(** The theorem at the example configuration: a listener registered in the
    place of the console listener gets the calls. *)
Lemma RegisterListener_replaces_witness :
  Trace.emits_to 1
    (Manager.Log (Manager.RegisterListener CONSOLE_LISTENER None Example.manager)
       "12:34:567" LWARNING AUDIO Example.audio_cpp 1 "x") = [].
Proof.
  pose proof (RegisterListener_replaces Example.manager CONSOLE_LISTENER None
                "12:34:567" LWARNING AUDIO Example.audio_cpp 1 "x") as (_ & _ & _ & H & _).
  exact (H eq_refl).
Defined.

(** ** The calls of one call of [Log] *)

Section Order_facts.

Import Manager Trace.

Lemma dispatch_app listeners level msg ids1 ids2 :
  dispatch listeners level msg (ids1 ++ ids2)
  = (dispatch listeners level msg ids1 ++ dispatch listeners level msg ids2)%list.
Proof. unfold dispatch. apply flat_map_app. Qed.

(** In a container the program builds, the iteration visits the file, the
    console and the window id, in this order, each if it is subscribed. *)
Lemma listener_ids_built c :
  Container.built c ->
  Container.listener_ids c
  = ((if Container.subscribed c FILE_LISTENER then [0] else [])
     ++ (if Container.subscribed c CONSOLE_LISTENER then [1] else [])
     ++ (if Container.subscribed c LOG_WINDOW_LISTENER then [2] else []))%list.
Proof.
  intros Hb. destruct (built_listener_bits c Hb) as [_ Hhigh].
  unfold Container.listener_ids, BitSet32.elements, Container.subscribed.
  change (seqZ 0 BitSet32.width) with ([0; 1; 2] ++ seqZ 3 29)%list.
  rewrite filter_app.
  assert (filter (fun i => BitSet32.get (m_listener_ids c) i = true) (seqZ 3 29)
          = []) as ->.
  { apply elem_of_nil_inv. intros i [Hg Hi]%list_elem_of_filter.
    apply elem_of_seqZ in Hi.
    rewrite get_testbit in Hg by (unfold BitSet32.width; lia).
    rewrite Hhigh in Hg by (unfold NUMBER_OF_LISTENERS; lia). done. }
  rewrite app_nil_r, !filter_cons, filter_nil. cbn [listener_index].
  repeat case_decide;
    repeat match goal with
           | H : BitSet32.get _ _ = true |- _ => rewrite H
           | H : ~ (BitSet32.get _ _ = true) |- _ =>
               apply not_true_is_false in H; rewrite H
           end; done.
Qed.

(** The fan-out over such a container, id by id. *)
Lemma dispatch_built listeners level msg c :
  Container.built c ->
  let call id :=
    if Container.subscribed c id
    then match listeners !! listener_index id with
         | Some p => [ListenerLog (listener_index id) p level msg]
         | None => []
         end
    else [] in
  dispatch listeners level msg (Container.listener_ids c)
  = (call FILE_LISTENER ++ call CONSOLE_LISTENER ++ call LOG_WINDOW_LISTENER)%list.
Proof.
  intros Hb call. rewrite listener_ids_built by done.
  rewrite !dispatch_app. subst call. cbv beta.
  destruct (Container.subscribed c FILE_LISTENER),
           (Container.subscribed c CONSOLE_LISTENER),
           (Container.subscribed c LOG_WINDOW_LISTENER);
    cbn [Manager.dispatch flat_map listener_index app];
    rewrite ?app_nil_r; done.
Qed.

End Order_facts.

(** X7: a call that passes the filter formats the message once, reads the
    time once and formats the line once, however many listeners there are,
    and then calls the listeners with that one line and the level of the
    call: in a manager whose containers are built by the program, first the
    file listener, then the console listener, then the log window, each if
    it is subscribed and registered. So a call makes at most three calls on
    listeners. *)
Theorem calls_of_a_passing_call
    (m : LogManager) (time : string) (level : LOG_LEVELS) (type : LOG_TYPE)
    (file : string) (line : Z) (expanded : string) :
  Container.built (m_log m type) ->
  Container.IsEnabled (m_log m type) = true ->
  level_value level <= Manager.GetLogLevel m ->
  Container.HasListeners (m_log m type) = true ->
  let temp := CharArrayFromFormatV MAX_MSGLEN expanded in
  let msg := Manager.format_line time file line level
               (Manager.GetShortName m type) temp in
  let call id :=
    if Container.subscribed (m_log m type) id
    then match m_listeners m !! listener_index id with
         | Some p => [ListenerLog (listener_index id) p level msg]
         | None => []
         end
    else [] in
  let tr := Manager.LogWithFullPath m time level type file line expanded in
  tr = ([Formatted temp; TimeRead; Formatted msg]
          ++ call FILE_LISTENER ++ call CONSOLE_LISTENER
          ++ call LOG_WINDOW_LISTENER)%list
  /\ (length (Trace.emits tr) <= 3)%nat
  /\ (forall e, e ∈ Trace.emits tr ->
        exists i p, e = ListenerLog i p level msg).
Proof.
  intros Hb He Hl Hh temp msg call tr.
  assert (tr = ([Formatted temp; TimeRead; Formatted msg]
                  ++ call FILE_LISTENER ++ call CONSOLE_LISTENER
                  ++ call LOG_WINDOW_LISTENER)%list) as Htr.
  { subst tr. rewrite LogWithFullPath_passes by done. cbv zeta.
    f_equal. by rewrite dispatch_built by done. }
  split; [exact Htr|].
  assert (Trace.emits tr
          = (call FILE_LISTENER ++ call CONSOLE_LISTENER
               ++ call LOG_WINDOW_LISTENER)%list) as Hemits.
  { rewrite Htr. unfold Trace.emits. rewrite filter_app.
    rewrite !filter_cons_False by (cbn; by intros [? ?]). rewrite filter_nil.
    cbn [app]. rewrite !filter_app. subst call. cbv beta.
    repeat case_match; rewrite ?filter_nil;
      rewrite ?filter_cons_True by (by eexists); rewrite ?filter_nil; done. }
  rewrite Hemits. split.
  - rewrite !length_app. subst call. cbv beta.
    repeat case_match; cbn; lia.
  - intros e Hin. subst call. cbv beta in Hin.
    rewrite !elem_of_app in Hin.
    destruct Hin as [Hin|[Hin|Hin]]; repeat case_match;
      try (by apply elem_of_nil in Hin);
      apply list_elem_of_singleton in Hin; subst e; eauto.
Qed.

(** The theorem at the audio log of the example configuration. *)
Lemma calls_of_a_passing_call_witness :
  (length (Trace.emits
             (Manager.LogWithFullPath Example.manager "12:34:567" LWARNING AUDIO
                "" 1 "x")) <= 3)%nat.
Proof.
  pose proof (calls_of_a_passing_call Example.manager "12:34:567" LWARNING AUDIO
                "" 1 "x") as H.
  cbv zeta in H. destruct H as (_ & H & _).
  - unfold Example.manager. rewrite new_log.
    apply configure_container_spec, create_container_built.
  - reflexivity.
  - vm_compute. discriminate.
  - reflexivity.
  - exact H.
Defined.

(** ** Sequences of calls on the file listener *)

Section FileOps_facts.

Import FileListener.

Lemma run_ops_cons l o ops : run_ops l (o :: ops) = run_ops (run_op l o) ops.
Proof. done. Qed.

(** One member function on a listener with a good stream, nothing pending
    and a device that takes the flush. *)
Lemma run_op_good l o :
  IsValid l = true -> os_pending (m_logfile l) = "" -> Ops.device_ok o ->
  let l' := run_op l o in
  IsValid l' = true
  /\ os_pending (m_logfile l') = ""
  /\ IsEnabled l' = match o with
                    | OpLog _ _ _ => IsEnabled l
                    | OpSetEnable enable => enable
                    end
  /\ os_file (m_logfile l')
     = os_file (m_logfile l)
         +:+ Concurrent.concat_msgs (Ops.logged (IsEnabled l) [o]).
Proof.
  intros Hv Hp Hok. destruct o as [io level msg|enable].
  - cbn in Hok. subst io. cbn [run_op Ops.logged].
    destruct (IsEnabled l) eqn:He.
    + rewrite Log_writes by done. unfold IsValid in *. cbn.
      unfold flush, insert. rewrite Hv. cbn. rewrite Hp.
      repeat split; try done. by rewrite append_nil_r.
    + rewrite Log_guard by auto. cbn. rewrite append_nil_r. done.
  - cbn. unfold IsValid in *. cbn. rewrite append_nil_r. done.
Qed.

Lemma logged_cons enabled o ops :
  Ops.logged enabled (o :: ops)
  = (Ops.logged enabled [o]
       ++ Ops.logged (match o with
                      | OpLog _ _ _ => enabled
                      | OpSetEnable enable => enable
                      end) ops)%list.
Proof. destruct o as [io level msg|enable]; cbn; by destruct enabled. Qed.

(** The file only grows under one member function. *)
Lemma run_op_extends l o :
  exists added,
    os_file (m_logfile (run_op l o)) = os_file (m_logfile l) +:+ added.
Proof.
  destruct o as [io level msg|enable]; cbn.
  - unfold Log.
    destruct (IsEnabled l), (IsValid l) eqn:Hv; cbn [negb orb];
      try (exists ""; by rewrite append_nil_r).
    unfold IsValid in Hv. cbn. unfold flush, insert. rewrite Hv. cbn.
    destruct io; cbn; eexists; reflexivity.
  - exists "". by rewrite append_nil_r.
Qed.

End FileOps_facts.

(** X8: on a file listener with a good stream and a device that takes every
    flush, whatever sequence of [Log] and [SetEnable] one thread runs, the
    file ends as it was followed by the messages logged while the listener
    was enabled, whole and in the order of the calls; the stream stays good
    and nothing is left pending. Muting with [SetEnable(false)] drops the
    messages logged meanwhile and [SetEnable(true)] resumes. *)
Theorem file_holds_messages_logged_while_enabled
    (l : FileLogListener) (ops : list FileListener.op) :
  FileListener.IsValid l = true ->
  os_pending (m_logfile l) = "" ->
  Forall Ops.device_ok ops ->
  m_logfile (FileListener.run_ops l ops)
  = mkOfstream true ""
      (os_file (m_logfile l)
         +:+ Concurrent.concat_msgs (Ops.logged (FileListener.IsEnabled l) ops)).
Proof.
  intros Hv Hp Hok. revert l Hv Hp.
  induction Hok as [|o ops Ho Hok IH]; intros l Hv Hp.
  - cbn. unfold FileListener.IsValid in Hv.
    destruct (m_logfile l) as [g p f]. cbn in *. subst.
    by rewrite append_nil_r.
  - rewrite run_ops_cons.
    destruct (run_op_good l o Hv Hp Ho) as (Hv' & Hp' & He' & Hf').
    rewrite IH by done. rewrite Hf', He'.
    rewrite (logged_cons _ o ops), concat_msgs_app, append_assoc. done.
Qed.

(** The theorem at a listener on a file that holds "old": the message
    logged while the listener is muted is not in the file. *)
Lemma file_holds_messages_logged_while_enabled_witness :
  m_logfile
    (FileListener.run_ops (FileListener.new (Some "old"))
       [FileListener.OpLog IoOk LINFO "a";
        FileListener.OpSetEnable false;
        FileListener.OpLog IoOk LINFO "b";
        FileListener.OpSetEnable true;
        FileListener.OpLog IoOk LERROR "c"])
  = mkOfstream true "" "oldac".
Proof.
  apply (file_holds_messages_logged_while_enabled
           (FileListener.new (Some "old"))
           [FileListener.OpLog IoOk LINFO "a";
            FileListener.OpSetEnable false;
            FileListener.OpLog IoOk LINFO "b";
            FileListener.OpSetEnable true;
            FileListener.OpLog IoOk LERROR "c"]).
  - reflexivity.
  - reflexivity.
  - repeat constructor.
Defined.

(** X9: the file listener only appends. Whatever member functions are
    called and whatever the device answers, what the file held before is
    still at its start afterwards. *)
Theorem file_listener_only_appends
    (l : FileLogListener) (ops : list FileListener.op) :
  exists added,
    os_file (m_logfile (FileListener.run_ops l ops))
    = os_file (m_logfile l) +:+ added.
Proof.
  revert l. induction ops as [|o ops IH]; intros l.
  - exists "". by rewrite append_nil_r.
  - rewrite run_ops_cons. destruct (IH (FileListener.run_op l o)) as [a2 H2].
    destruct (run_op_extends l o) as [a1 H1].
    exists (a1 +:+ a2). by rewrite H2, H1, append_assoc.
Qed.

(** X10: a failed flush silences the file listener for good. When the device
    fails during [Log], the stream is no longer good, and no member
    function of the listener makes it good again: every later call leaves
    the stream and the file as the failure left them. *)
Theorem failed_flush_is_final
    (l : FileLogListener) (level : LOG_LEVELS) (msg : string) (n : nat)
    (ops : list FileListener.op) :
  FileListener.IsEnabled l = true ->
  FileListener.IsValid l = true ->
  let failed := FileListener.Log (IoError n) l level msg in
  FileListener.IsValid failed = false
  /\ m_logfile (FileListener.run_ops failed ops) = m_logfile failed
  /\ FileListener.IsValid (FileListener.run_ops failed ops) = false
  /\ (forall io level' msg',
        FileListener.Log io (FileListener.run_ops failed ops) level' msg'
        = FileListener.run_ops failed ops).
Proof.
  intros He Hv failed.
  assert (FileListener.IsValid failed = false) as Hf.
  { subst failed. rewrite Log_writes by done.
    unfold FileListener.IsValid in *. cbn.
    unfold FileListener.flush, FileListener.insert. by rewrite Hv. }
  assert (m_logfile (FileListener.run_ops failed ops) = m_logfile failed) as Hs.
  { by apply run_ops_invalid. }
  assert (FileListener.IsValid (FileListener.run_ops failed ops) = false) as Hv'.
  { unfold FileListener.IsValid. by rewrite Hs. }
  repeat apply conj; try done.
  intros io level' msg'. apply Log_guard. by right.
Qed.

(** The theorem at a listener on an empty file, with a device that fails
    after one character. *)
Lemma failed_flush_is_final_witness :
  m_logfile
    (FileListener.run_ops
       (FileListener.Log (IoError 1) (FileListener.new (Some "")) LINFO "ab")
       [FileListener.OpLog IoOk LINFO "cd"])
  = mkOfstream false "b" "a".
Proof.
  pose proof (failed_flush_is_final (FileListener.new (Some "")) LINFO "ab" 1
                [FileListener.OpLog IoOk LINFO "cd"] eq_refl eq_refl)
    as (_ & H & _).
  rewrite H. reflexivity.
Defined.

(** ** The instance and the ownership of the listeners *)

Section Lifecycle_facts.

(** What [Shutdown] leaves of the heap of a world with an instance that
    holds [f] at the file id and [c] at the console id. *)
Lemma destroy_heap m h f c :
  m_listeners m !! listener_index FILE_LISTENER = Some f ->
  m_listeners m !! listener_index CONSOLE_LISTENER = Some c ->
  Manager.destroy m h = delete f (delete c h).
Proof. intros Hf Hc. unfold Manager.destroy. by rewrite Hf, Hc. Qed.

(** [Init()] and then [Shutdown()] give the heap back. *)
Lemma Init_Shutdown_heap env w :
  heap (Singleton.Shutdown (Singleton.Init env w)) = heap w.
Proof.
  destruct (new_listeners env (heap w)) as (Hl & Hh & Hf0 & Hc0 & Hfc).
  rewrite Init_eq. unfold Singleton.Shutdown. cbn [s_log_manager heap].
  rewrite (destroy_heap _ _ _ _
             ltac:(rewrite Hl; by rewrite lookup_insert_ne, lookup_insert_eq)
             ltac:(rewrite Hl; apply lookup_insert_eq)).
  rewrite Hh, delete_insert_eq, delete_insert_ne by done.
  rewrite (delete_id _ (fresh (dom (<[_:=_]> (heap w))))) by done.
  by apply delete_insert_id.
Qed.

End Lifecycle_facts.

(** X11: [Shutdown()] without an instance changes nothing, so a second
    [Shutdown()] does nothing more than the first. [Init()] while there is
    an instance replaces the instance without destroying it: the file and
    the console listener of the first instance stay on the heap, and the
    [Shutdown()] that follows deletes those of the second instance only. *)
Theorem init_twice_leaks_and_shutdown_twice_is_safe
    (env1 env2 : Env) (w : World) :
  (Singleton.GetInstance w = None -> Singleton.Shutdown w = w)
  /\ Singleton.Shutdown (Singleton.Shutdown w) = Singleton.Shutdown w
  /\ heap (Singleton.Shutdown (Singleton.Init env2 (Singleton.Init env1 w)))
     = heap (Singleton.Init env1 w)
  /\ (exists f c,
        f <> c /\ heap w !! f = None /\ heap w !! c = None
        /\ heap (Singleton.Shutdown (Singleton.Init env2 (Singleton.Init env1 w)))
             !! f
           = Some (ObjFileLogListener (FileListener.new (main_log env1)))
        /\ heap (Singleton.Shutdown (Singleton.Init env2 (Singleton.Init env1 w)))
             !! c
           = Some ObjConsoleListener).
Proof.
  pose proof Init_Shutdown_heap as Hround.
  repeat apply conj.
  - destruct w as [i h]. cbn. by intros ->.
  - done.
  - apply Hround.
  - rewrite Hround.
    destruct (new_listeners env1 (heap w)) as (_ & Hh & Hf0 & Hc0 & Hfc).
    rewrite Init_eq. cbn [heap].
    eexists _, _. repeat apply conj; [exact Hfc|exact Hf0|exact Hc0| |].
    + rewrite Hh. by rewrite lookup_insert_ne, lookup_insert_eq.
    + rewrite Hh. apply lookup_insert_eq.
Qed.

(** The theorem from a world without instance. *)
Lemma init_twice_leaks_and_shutdown_twice_is_safe_witness :
  Singleton.Shutdown Example.empty_world = Example.empty_world.
Proof.
  pose proof (init_twice_leaks_and_shutdown_twice_is_safe
                Example.env Example.env Example.empty_world) as (H & _).
  apply H. reflexivity.
Defined.

(** X12: the destructor deletes the listeners that are registered at the
    file and the console id when it runs. A listener registered in the place
    of the file listener after [Init()] is deleted by [Shutdown()], and the
    file listener that [Init()] created, no longer in the table, stays on
    the heap; the console listener is deleted as before. *)
Theorem shutdown_deletes_what_is_registered
    (env : Env) (w : World) (p : nat) (o : object) :
  heap w !! p = Some o ->
  let w1 := Singleton.Init env w in
  let w2 := Singleton.on_instance
              (Manager.RegisterListener FILE_LISTENER (Some p)) w1 in
  let w3 := Singleton.Shutdown w2 in
  heap w3 !! p = None
  /\ Singleton.GetInstance w3 = None
  /\ exists f c,
       heap w !! f = None /\ heap w !! c = None
       /\ heap w1 !! f
          = Some (ObjFileLogListener (FileListener.new (main_log env)))
       /\ heap w3 !! f
          = Some (ObjFileLogListener (FileListener.new (main_log env)))
       /\ heap w1 !! c = Some ObjConsoleListener
       /\ heap w3 !! c = None.
Proof.
  intros Hp w1 w2 w3.
  destruct (new_listeners env (heap w)) as (Hl & Hh & Hf0 & Hc0 & Hfc).
  set (f := fresh (dom (heap w))) in *.
  set (file_listener := ObjFileLogListener (FileListener.new (main_log env))) in *.
  set (c := fresh (dom (<[f:=file_listener]> (heap w)))) in *.
  assert (p <> f) as Hpf by (intros ->; congruence).
  assert (p <> c) as Hpc by (intros ->; congruence).
  assert (heap w1 = <[c:=ObjConsoleListener]> (<[f:=file_listener]> (heap w)))
    as Hw1.
  { subst w1. rewrite Init_eq. exact Hh. }
  assert (heap w3 = delete p (delete c (heap w1))) as Hw3.
  { subst w3 w2 w1. rewrite Init_eq.
    unfold Singleton.Shutdown, Singleton.on_instance.
    cbn [s_log_manager heap fmap option_fmap option_map].
    apply destroy_heap; cbn [Manager.RegisterListener m_listeners].
    - apply lookup_insert_eq.
    - rewrite lookup_insert_ne by done. rewrite Hl. apply lookup_insert_eq. }
  repeat apply conj.
  - rewrite Hw3. apply lookup_delete_eq.
  - done.
  - exists f, c. rewrite Hw3, Hw1. repeat apply conj; try done.
    + by rewrite lookup_insert_ne, lookup_insert_eq.
    + rewrite lookup_delete_ne, lookup_delete_ne by done.
      by rewrite lookup_insert_ne, lookup_insert_eq.
    + apply lookup_insert_eq.
    + rewrite lookup_delete_ne by done. apply lookup_delete_eq.
Qed.

(** The theorem at a world with one object, registered as the file
    listener after [Init()]. *)
Lemma shutdown_deletes_what_is_registered_witness :
  let w := {| s_log_manager := None; heap := {[ 7%nat := ObjLogWindow ]} |} in
  heap (Singleton.Shutdown
          (Singleton.on_instance
             (Manager.RegisterListener FILE_LISTENER (Some 7%nat))
             (Singleton.Init Example.env w))) !! 7%nat = None.
Proof.
  intros w.
  pose proof (shutdown_deletes_what_is_registered Example.env w 7%nat
                ObjLogWindow eq_refl) as (H & _).
  exact H.
Defined.

(** ** From the call to the file *)

Section Delivery_facts.

Lemma deliver_all_app io h tr1 tr2 :
  Ops.deliver_all io h (tr1 ++ tr2)
  = Ops.deliver_all io h tr1 ≫= fun h' => Ops.deliver_all io h' tr2.
Proof.
  revert h. induction tr1 as [|e tr1 IH]; intros h; [done|].
  cbn. destruct (Ops.deliver io h e); [apply IH|done].
Qed.

(** What the constructor leaves in a container, read from the
    configuration. *)
Lemma new_container env h t :
  let m := (Manager.new env h).1 in
  let logs := IniFile.GetOrCreateSection (logger_config env) "Logs" in
  let options := IniFile.GetOrCreateSection (logger_config env) "Options" in
  let enable :=
    IniFile.GetBool logs
      (Container.GetShortName (Manager.create_container t)) false in
  Container.built (m_log m t)
  /\ Container.IsEnabled (m_log m t) = enable
  /\ Container.GetShortName (m_log m t)
     = Container.GetShortName (Manager.create_container t)
  /\ Container.GetFullName (m_log m t)
     = Container.GetFullName (Manager.create_container t)
  /\ Container.subscribed (m_log m t) FILE_LISTENER
     = enable && IniFile.GetBool options "WriteToFile" false
  /\ Container.subscribed (m_log m t) CONSOLE_LISTENER
     = enable && IniFile.GetBool options "WriteToConsole" true
  /\ Container.subscribed (m_log m t) LOG_WINDOW_LISTENER
     = enable && IniFile.GetBool options "WriteToWindow" true.
Proof.
  intros m logs options enable. subst m. rewrite new_log.
  destruct (configure_container_spec logs
              (IniFile.GetBool options "WriteToFile" false)
              (IniFile.GetBool options "WriteToConsole" true)
              (IniFile.GetBool options "WriteToWindow" true)
              (Manager.create_container t)) as (He & Hn & Hf & Hs & Hb).
  repeat apply conj; try done.
  - apply Hb, create_container_built.
  - by rewrite Hs, create_container_not_subscribed.
  - by rewrite Hs, create_container_not_subscribed.
  - by rewrite Hs, create_container_not_subscribed.
Qed.

End Delivery_facts.



(** ** What the configuration leaves out *)

Section Defaults_facts.

Lemma short_names_NoDup :
  NoDup ((fun t => Container.GetShortName (Manager.create_container t))
           <$> all_log_types).
Proof. apply (bool_decide_unpack _). vm_compute. exact I. Qed.

Lemma NoDup_fmap_eq {A B} (f : A -> B) (l : list A) (x y : A) :
  NoDup (f <$> l) -> x ∈ l -> y ∈ l -> f x = f y -> x = y.
Proof.
  induction l as [|a l IH]; intros Hnd Hx Hy Hf.
  - by apply elem_of_nil in Hx.
  - rewrite fmap_cons in Hnd. apply NoDup_cons in Hnd as [Ha Hnd].
    apply elem_of_cons in Hx as [->|Hx]; apply elem_of_cons in Hy as [->|Hy].
    + done.
    + destruct Ha. rewrite Hf. by apply list_elem_of_fmap_2.
    + destruct Ha. rewrite <- Hf. by apply list_elem_of_fmap_2.
    + by apply IH.
Qed.

End Defaults_facts.

(** X14: a log type the configuration does not mention is silent. When the
    section "Logs" has no key for the short name of the type (or there is
    no such section, or no configuration file), the constructor leaves the
    type disabled and subscribed to no listener, and every call for it,
    at any level, makes no call at all. *)
Theorem unconfigured_log_type_is_silent
    (env : Env) (w : World) (type : LOG_TYPE) :
  IniFile.GetOrCreateSection (logger_config env) "Logs"
    !! Container.GetShortName (Manager.create_container type) = None ->
  let m := (Manager.new env (heap w)).1 in
  (forall level, Manager.IsEnabled m type level = false)
  /\ Container.listener_ids (m_log m type) = []
  /\ (forall time level file line expanded,
        Singleton.GenericLog (Singleton.Init env w) time level type file line
          expanded = []).
Proof.
  intros Hnone m.
  destruct (new_container env (heap w) type)
    as (Hb & He & _ & _ & Hsf & Hsc & Hsw).
  fold m in Hb, He, Hsf, Hsc, Hsw.
  assert (Container.IsEnabled (m_log m type) = false) as Hoff.
  { rewrite He. unfold IniFile.GetBool. by rewrite Hnone. }
  rewrite He in Hoff. rewrite Hoff in *. cbn [andb] in *.
  repeat apply conj.
  - intros level. unfold Manager.IsEnabled. by rewrite He.
  - apply listener_ids_nil; [done|]. by intros [].
  - intros. rewrite Init_eq. unfold Singleton.GenericLog.
    cbn [Singleton.GetInstance s_log_manager]. unfold Manager.Log.
    apply LogWithFullPath_filtered. by left.
Qed.

(** The theorem without a configuration file. *)
Lemma unconfigured_log_type_is_silent_witness :
  Singleton.GenericLog (Singleton.Init Example.bare_env Example.empty_world)
    "12:34:567" LNOTICE CORE Example.audio_cpp 3 "x" = [].
Proof.
  pose proof (unconfigured_log_type_is_silent Example.bare_env
                Example.empty_world CORE eq_refl) as (_ & _ & H).
  apply H.
Defined.

(** X15: without the key "Verbosity" the manager passes notices only. The
    default 0 is clamped to the most severe level, so every call at
    another level makes no call at all, whatever is enabled, while a notice
    to an enabled log type with a listener is formatted. *)
Theorem default_verbosity_passes_notices_only
    (env : Env) (w : World) (type : LOG_TYPE) (time : string)
    (file : string) (line : Z) (expanded : string) :
  IniFile.GetOrCreateSection (logger_config env) "Options" !! "Verbosity"
    = None ->
  let m := (Manager.new env (heap w)).1 in
  Manager.GetLogLevel m = level_value LNOTICE
  /\ (forall level, level <> LNOTICE ->
        Singleton.GenericLog (Singleton.Init env w) time level type file line
          expanded = [])
  /\ (Container.IsEnabled (m_log m type) = true ->
      Container.HasListeners (m_log m type) = true ->
      Singleton.GenericLog (Singleton.Init env w) time LNOTICE type file line
        expanded <> []).
Proof.
  intros Hnone m.
  assert (Manager.GetLogLevel m = 1) as Hlevel.
  { unfold Manager.GetLogLevel. subst m. rewrite new_level.
    unfold IniFile.GetInt. rewrite Hnone. unfold Manager.clamp_verbosity.
    cbn. by destruct (MAX_LOGLEVEL env). }
  assert (forall level,
            Singleton.GenericLog (Singleton.Init env w) time level type file
              line expanded
            = Manager.Log m time level type file line expanded) as Hlog.
  { intros level. by rewrite Init_eq. }
  repeat apply conj.
  - exact Hlevel.
  - intros level Hne. rewrite Hlog. unfold Manager.Log.
    apply LogWithFullPath_filtered. right. left. rewrite Hlevel.
    destruct level; cbn; try lia. done.
  - intros He Hh. rewrite Hlog. unfold Manager.Log.
    rewrite LogWithFullPath_passes; [done|done| |done].
    rewrite Hlevel. cbn. lia.
Qed.

(** The theorem at a configuration that enables the audio log and gives no
    verbosity. *)
Lemma default_verbosity_passes_notices_only_witness :
  let env :=
    {| MAX_LOGLEVEL := LDEBUG;
       DIR_SEP := "/";
       FILE_macro := "";
       logger_config := {[ "Logs" := {[ "Audio" := IniBool true ]} ]};
       main_log := None |} in
  Singleton.GenericLog (Singleton.Init env Example.empty_world)
    "12:34:567" LERROR AUDIO "a.cpp" 3 "x" = [].
Proof.
  intros env.
  pose proof (default_verbosity_passes_notices_only env Example.empty_world
                AUDIO "12:34:567" "a.cpp" 3 "x" eq_refl) as (_ & H & _).
  apply H. discriminate.
Defined.

(** X16: the short names the constructor gives are pairwise different, so a
    key of the section "Logs" governs one log type: with the key of one
    type as the only key, that type is enabled and no other. The names
    stay what the constructor made them. *)
Theorem short_names_identify_log_types
    (env : Env) (h : gmap nat object) (type : LOG_TYPE) :
  let m := (Manager.new env h).1 in
  (forall t1 t2,
     Manager.GetShortName m t1 = Manager.GetShortName m t2 -> t1 = t2)
  /\ (IniFile.GetOrCreateSection (logger_config env) "Logs"
      = {[ Manager.GetShortName m type := IniBool true ]} ->
      forall t, Container.IsEnabled (m_log m t) = true <-> t = type).
Proof.
  intros m.
  assert (forall t, Manager.GetShortName m t
                    = Container.GetShortName (Manager.create_container t))
    as Hname.
  { intros t. apply (new_container env h t). }
  assert (forall t1 t2,
            Manager.GetShortName m t1 = Manager.GetShortName m t2 -> t1 = t2)
    as Hinj.
  { intros t1 t2. rewrite !Hname.
    apply (NoDup_fmap_eq
             (fun t => Container.GetShortName (Manager.create_container t))
             all_log_types);
      [apply short_names_NoDup|apply elem_of_all_log_types..]. }
  split; [exact Hinj|].
  intros Hlogs t.
  destruct (new_container env h t) as (_ & He & _).
  fold m in He. rewrite He, Hlogs, <- Hname. unfold IniFile.GetBool.
  destruct (decide (t = type)) as [->|Hne].
  - by rewrite lookup_singleton_eq.
  - rewrite lookup_singleton_ne; [done|].
    intros Heq. by apply Hne, Hinj.
Qed.

(** The theorem at the example configuration, whose only key is "Audio". *)
Lemma short_names_identify_log_types_witness :
  Container.IsEnabled (m_log Example.manager AUDIO_INTERFACE) = true
  <-> AUDIO_INTERFACE = AUDIO.
Proof.
  pose proof (short_names_identify_log_types Example.env ∅ AUDIO) as [_ H].
  apply (H ltac:(vm_compute; reflexivity) AUDIO_INTERFACE).
Defined.

(** ** Invariants of the manager *)

Section Invariant_facts.

Lemma run_manager_ops_snoc m ops o :
  Ops.run_manager_ops m (ops ++ [o])
  = Ops.run_manager_op (Ops.run_manager_ops m ops) o.
Proof. unfold Ops.run_manager_ops. by rewrite foldl_app. Qed.

(** What a member function does to the container of a log type. *)
Lemma run_manager_op_log m o t :
  m_log (Ops.run_manager_op m o) t = m_log m t
  \/ (exists b, m_log (Ops.run_manager_op m o) t
                = Container.SetEnable b (m_log m t))
  \/ (exists id, m_log (Ops.run_manager_op m o) t
                 = Container.AddListener id (m_log m t))
  \/ (exists id, m_log (Ops.run_manager_op m o) t
                 = Container.RemoveListener id (m_log m t)).
Proof.
  destruct o as [level|type enable|id listener|type id|type id]; cbn;
    try (by left);
    (destruct (decide (t = type)) as [->|Hne];
     [rewrite m_log_update_same|rewrite m_log_update_other by done; by left]).
  - right. left. by eexists.
  - right. right. left. by eexists.
  - right. right. right. by eexists.
Qed.

Lemma clamp_verbosity_range max_loglevel verbosity :
  1 <= Manager.clamp_verbosity max_loglevel verbosity
    <= level_value max_loglevel.
Proof.
  unfold Manager.clamp_verbosity.
  destruct (Z.ltb_spec verbosity 1);
    destruct (Z.gtb_spec 1 (level_value max_loglevel));
    try destruct (Z.gtb_spec verbosity (level_value max_loglevel));
    destruct max_loglevel; cbn in *; lia.
Qed.

Lemma run_manager_ops_level m ops :
  m_level (Ops.run_manager_ops m ops) = Ops.last_level (m_level m) ops.
Proof.
  unfold Ops.run_manager_ops. revert m.
  induction ops as [|o ops IH]; intros m; [done|].
  cbn [foldl]. rewrite IH. by destruct o.
Qed.

Lemma last_level_range (lo hi level : Z) ops :
  lo <= level <= hi ->
  (forall level', Ops.OpSetLogLevel level' ∈ ops -> lo <= level' <= hi) ->
  lo <= Ops.last_level level ops <= hi.
Proof.
  revert level. induction ops as [|o ops IH]; intros level Hl Hops; [done|].
  destruct o as [level'| | | |]; cbn [Ops.last_level];
    apply IH; try done; try (intros v Hv; apply Hops; by right).
  apply Hops. left.
Qed.

Lemma last_level_snoc level ops level' :
  Ops.last_level level (ops ++ [Ops.OpSetLogLevel level']) = level'.
Proof.
  revert level. induction ops as [|o ops IH]; intros level; [done|].
  destruct o; cbn [app Ops.last_level]; apply IH.
Qed.

End Invariant_facts.

(** X17: what every manager keeps, from the constructor through any
    sequence of [SetLogLevel], [SetEnable], [RegisterListener],
    [AddListener] and [RemoveListener]. Every id the fan-out visits is the
    id of a listener, below [NUMBER_OF_LISTENERS], so that the listener
    table is never read outside its bounds; [HasListeners()] is true
    exactly when an id is subscribed; the names of the log types and the
    cut-off point are those of the constructor. The level is the one the
    constructor clamped, between 1 and [MAX_LOGLEVEL], until [SetLogLevel]
    is called, and then the argument of the last [SetLogLevel], stored as
    it is given: it is the number of an enumerator when the arguments
    were, and leaves the range when an argument does. *)
Theorem manager_invariants
    (env : Env) (h : gmap nat object) (ops : list Ops.manager_op)
    (type : LOG_TYPE) :
  let m0 := (Manager.new env h).1 in
  let m := Ops.run_manager_ops m0 ops in
  (forall i, i ∈ Container.listener_ids (m_log m type) ->
     0 <= i < NUMBER_OF_LISTENERS
     /\ exists id, i = listener_index id
                   /\ Container.subscribed (m_log m type) id = true)
  /\ (Container.HasListeners (m_log m type) = true <->
      exists id, Container.subscribed (m_log m type) id = true)
  /\ Manager.GetShortName m type
     = Container.GetShortName (Manager.create_container type)
  /\ Manager.GetFullName m type
     = Container.GetFullName (Manager.create_container type)
  /\ m_path_cutoff_point m
     = Manager.DeterminePathCutOffPoint (DIR_SEP env) (FILE_macro env)
  /\ level_value LNOTICE <= Manager.GetLogLevel m0
       <= level_value (MAX_LOGLEVEL env)
  /\ Manager.GetLogLevel m = Ops.last_level (Manager.GetLogLevel m0) ops
  /\ ((forall level, Ops.OpSetLogLevel level ∈ ops ->
         level_value LNOTICE <= level <= level_value LDEBUG) ->
      level_value LNOTICE <= Manager.GetLogLevel m <= level_value LDEBUG)
  /\ (forall level,
        Manager.GetLogLevel
          (Ops.run_manager_ops m0 (ops ++ [Ops.OpSetLogLevel level]))
        = level).
Proof.
  intros m0 m.
  assert (Container.built (m_log m type)
          /\ Container.GetShortName (m_log m type)
             = Container.GetShortName (Manager.create_container type)
          /\ Container.GetFullName (m_log m type)
             = Container.GetFullName (Manager.create_container type)
          /\ m_path_cutoff_point m
             = Manager.DeterminePathCutOffPoint (DIR_SEP env) (FILE_macro env))
    as (Hb & Hs & Hf & Hc).
  { subst m m0. induction ops as [|o ops IH] using rev_ind.
    - destruct (new_container env h type) as (Hb & _ & Hs & Hf & _).
      split; [done|]. split; [done|]. split; [done|].
      apply new_path_cutoff_point.
    - rewrite run_manager_ops_snoc.
      destruct IH as (Hb & Hs & Hf & Hc).
      set (m1 := Ops.run_manager_ops (Manager.new env h).1 ops) in *.
      assert (m_path_cutoff_point (Ops.run_manager_op m1 o)
              = m_path_cutoff_point m1) as Hc'.
      { by destruct o. }
      rewrite Hc'.
      destruct (run_manager_op_log m1 o type)
        as [->|[[b ->]|[[id ->]|[id ->]]]];
        (split; [by first [assumption|constructor]|]);
        (split; [exact Hs|]); (split; [exact Hf|exact Hc]). }
  assert (1 <= m_level m0 <= level_value (MAX_LOGLEVEL env)) as Hl0.
  { subst m0. rewrite new_level. apply clamp_verbosity_range. }
  assert (m_level m = Ops.last_level (m_level m0) ops) as Hl.
  { subst m. apply run_manager_ops_level. }
  split; [|split; [|split; [|split; [|split; [|split; [|split; [|split]]]]]]].
  - intros i Hi.
    destruct (listener_ids_listener _ _ Hb Hi) as (id & -> & Hid).
    split; [|by exists id].
    unfold NUMBER_OF_LISTENERS. destruct id; cbn; lia.
  - by apply HasListeners_subscribed.
  - exact Hs.
  - exact Hf.
  - exact Hc.
  - exact Hl0.
  - exact Hl.
  - intros Hops. unfold Manager.GetLogLevel. rewrite Hl.
    apply last_level_range; [|exact Hops].
    change (level_value LNOTICE) with 1. change (level_value LDEBUG) with 5.
    assert (level_value (MAX_LOGLEVEL env) <= 5) as Hmax.
    { by destruct (MAX_LOGLEVEL env). }
    lia.
  - intros level. unfold Manager.GetLogLevel.
    by rewrite run_manager_ops_level, last_level_snoc.
Qed.

(** The theorem at the example configuration: lowering the level to 0,
    which is below every enumerator, is stored as it is. *)
Lemma manager_invariants_witness :
  Manager.GetLogLevel
    (Ops.run_manager_ops Example.manager
       [Ops.OpSetEnable VIDEO true; Ops.OpSetLogLevel 0]) = 0
  /\ Manager.GetLogLevel
       (Ops.run_manager_ops Example.manager [Ops.OpSetEnable VIDEO true]) = 4.
Proof.
  pose proof (manager_invariants Example.env ∅
                [Ops.OpSetEnable VIDEO true] AUDIO)
    as (_ & _ & _ & _ & _ & _ & H4 & _ & H0).
  split; [exact (H0 0)|exact H4].
Defined.

(** ** Concurrent callers of a muted file listener *)

Section Muted_facts.

Import Concurrent.

Variables (l0 : FileLogListener) (msgs : list string).

Hypothesis Hmuted :
  FileListener.IsEnabled l0 = false \/ FileListener.IsValid l0 = false.

Let muted (s : state) : Prop :=
  st_listener s = l0
  /\ Forall (fun t => t_pc t = AtGuard \/ t_pc t = Done) (st_threads s).

Lemma muted_start : muted (start l0 msgs).
Proof.
  split; [done|]. cbn. apply Forall_fmap, Forall_true. by left.
Qed.

Lemma muted_guard :
  negb (FileListener.IsEnabled l0) || negb (FileListener.IsValid l0) = true.
Proof. destruct Hmuted as [-> | ->]; [done|apply orb_true_r]. Qed.

Lemma muted_step s s' : muted s -> step s s' -> muted s'.
Proof.
  intros [Hl Hts] Hstep.
  inversion Hstep as [i t l' t' s0 Hi Hst]; subst s0 s'. rewrite Hl in Hst.
  pose proof (proj1 (Forall_lookup _ _) Hts i t Hi) as Ht.
  unfold step_thread in Hst. destruct Ht as [Ht|Ht]; rewrite Ht in Hst.
  - rewrite muted_guard in Hst. injection Hst as <- <-.
    split; [done|]. cbn. apply Forall_insert; [done|]. by right.
  - done.
Qed.

Lemma muted_steps s s' : muted s -> steps s s' -> muted s'.
Proof. induction 2; eauto using muted_step. Qed.

Lemma muted_progress s : muted s -> all_done s \/ exists s', step s s'.
Proof.
  intros [Hl Hts].
  destruct (decide (Forall (fun t => t_pc t = Done) (st_threads s)))
    as [Hall|Hnot]; [by left|right].
  apply not_Forall_Exists in Hnot; [|apply _].
  apply Exists_exists in Hnot as (t & Hin & Hnd).
  pose proof (proj1 (Forall_forall _ _) Hts t Hin) as [Ht|Ht]; [|done].
  apply list_elem_of_lookup in Hin as [i Hi].
  eexists. eapply step_at; [exact Hi|].
  unfold step_thread. rewrite Ht, Hl, muted_guard. done.
Qed.

Lemma muted_reachable s : steps (start l0 msgs) s -> muted s.
Proof. apply muted_steps, muted_start. Qed.

Lemma muted_unfold s :
  muted s ->
  st_listener s = l0
  /\ Forall (fun t => holding (t_pc t) = false) (st_threads s).
Proof.
  intros [Hl Hts]. split; [done|].
  eapply Forall_impl; [exact Hts|]. by intros t [-> | ->].
Qed.

End Muted_facts.

(** X18: callers of [Log] on a file listener that is disabled, or whose
    stream is not good, return at the guard whatever the interleaving: no
    thread takes the lock, the listener and its file stay as they were in
    every state of every run, and while a caller has not returned some
    thread can move, each move bringing the end closer. *)
Theorem concurrent_emits_on_a_muted_listener
    (l0 : FileLogListener) (msgs : list string) (s : Concurrent.state) :
  FileListener.IsEnabled l0 = false \/ FileListener.IsValid l0 = false ->
  Concurrent.steps (Concurrent.start l0 msgs) s ->
  Concurrent.st_listener s = l0
  /\ Forall (fun t => Concurrent.holding (Concurrent.t_pc t) = false)
       (Concurrent.st_threads s)
  /\ (Concurrent.all_done s \/ exists s', Concurrent.step s s')
  /\ (forall s', Concurrent.step s s' ->
        (Concurrent.remaining_all s' < Concurrent.remaining_all s)%nat).
Proof.
  intros Hmuted Hsteps.
  pose proof (muted_reachable l0 msgs Hmuted s Hsteps) as Hs.
  destruct (muted_unfold l0 s Hs) as [Hl Hh].
  repeat apply conj; try done.
  - by eapply muted_progress.
  - apply step_remaining.
Qed.

(** The theorem at two callers on a disabled listener, after both have
    run their guard. *)
Lemma concurrent_emits_on_a_muted_listener_witness :
  let l0 := FileListener.SetEnable false (FileListener.new (Some "x")) in
  exists s,
    Concurrent.run [1; 0]%nat (Concurrent.start l0 ["ab"; "cd"]) = Some s
    /\ Concurrent.st_listener s = l0
    /\ Concurrent.all_done s.
Proof.
  intros l0.
  assert (Concurrent.run [1; 0]%nat (Concurrent.start l0 ["ab"; "cd"])
          = Some (Concurrent.mkState l0
                    [Concurrent.mkThread "ab" Concurrent.Done;
                     Concurrent.mkThread "cd" Concurrent.Done])) as Hrun.
  { vm_compute. reflexivity. }
  pose proof (concurrent_emits_on_a_muted_listener l0 ["ab"; "cd"] _
                (or_introl eq_refl) (run_steps _ _ _ Hrun)) as (H & _).
  eexists. split; [exact Hrun|]. split; [exact H|]. repeat constructor.
Defined.
